(** * hikkatl.extensions.html: the HTML <-> Telegram entity codec

    A shallow embedding of [hikkatl/extensions/html.py]: the surrogate
    helpers, the [HTMLToTelegramParser] handlers, [parse], and the
    [TextDecoration] / [HtmlDecoration] unparser, followed by the
    properties of the specification that concern them.

    Conventions.
    - A Python [str] is the list of its code points ([pystr]); a lone
      surrogate is an ordinary element, as in Python.
    - A Python [bytes] is the list of its byte values ([bytes]).
    - Python integers are [Z].
    - A call that may raise returns an [outcome]. *)

From Stdlib Require Import ZArith List String Ascii Lia Bool DecimalString DecimalPos Sorted.
From stdpp Require Import gmap list fin_maps sorting.

Local Open Scope Z_scope.

(** ** Exceptions and results *)

Inductive exn :=
| UnicodeEncodeError
| UnicodeDecodeError
| StructError
| IndexError
| KeyError
| TypeError
| AttributeError
| ValueError
| RecursionError.

Inductive outcome (A : Type) :=
| Ok (a : A)
| Raise (e : exn).
Arguments Ok {A} a.
Arguments Raise {A} e.

Global Instance outcome_ret : MRet outcome := fun A a => Ok a.
Global Instance outcome_bind : MBind outcome :=
  fun A B f m => match m with Ok a => f a | Raise e => Raise e end.

(** ** State and exceptions

    A computation on a state [St] that may raise: a function from the
    state to a result and the state it leaves, so that what was changed
    before an exception is still there for an [except] clause.  The state
    is the parser object for the handlers of the parser, and the heap of
    the caller's objects for the heap version of [unparse]. *)

Definition ST (St A : Type) : Type := St -> outcome A * St.

Definition ret {St A} (a : A) : ST St A := fun s => (Ok a, s).
Definition bind {St A B} (m : ST St A) (k : A -> ST St B) : ST St B :=
  fun s => match m s with
           | (Ok a, s') => k a s'
           | (Raise e, s') => (Raise e, s')
           end.
Definition raise {St A} (e : exn) : ST St A := fun s => (Raise e, s).
Definition get {St} : ST St St := fun s => (Ok s, s).
Definition modify {St} (f : St -> St) : ST St unit := fun s => (Ok tt, f s).
Definition lift {St A} (o : outcome A) : ST St A := fun s => (o, s).

Global Instance exn_eq_dec : EqDecision exn.
Proof. solve_decision. Defined.

(** [try: body except exc: handler] *)
Definition try_except {St A} (body : ST St A) (exc : exn) (handler : ST St A)
  : ST St A :=
  fun s => match body s with
           | (Raise e, s') => if decide (e = exc) then handler s' else (Raise e, s')
           | r => r
           end.

Notation "x <~ m ;; k" := (bind m (fun x => k))
  (at level 100, m at next level, right associativity).
Notation "m ;;; k" := (bind m (fun _ => k))
  (at level 100, right associativity).

(** ** Strings and bytes *)

Abbreviation pystr := (list Z) (only parsing).
Abbreviation bytes := (list Z) (only parsing).

(** [str "..."] is the Python literal with the same ASCII characters. *)
Fixpoint str (s : string) : pystr :=
  match s with
  | EmptyString => []
  | String a s' => Z.of_N (N_of_ascii a) :: str s'
  end.
Arguments str s%_string.

(** [len(x)] *)
Definition len {A} (l : list A) : Z := Z.of_nat (length l).

(** [x[a:b]] with Python's treatment of negative and out-of-range bounds. *)
Definition slice_index (n i : Z) : Z :=
  if i <? 0 then Z.max 0 (i + n) else Z.min i n.

Definition py_slice {A} (l : list A) (a b : Z) : list A :=
  let n := len l in
  let a' := slice_index n a in
  let b' := slice_index n b in
  take (Z.to_nat (b' - a')) (drop (Z.to_nat a') l).

(** [startswith] and [s[n:]] on strings. *)
Fixpoint startswith (s prefix : pystr) : bool :=
  match prefix, s with
  | [], _ => true
  | p :: prefix', c :: s' => (c =? p) && startswith s' prefix'
  | _ :: _, [] => false
  end.

(** ** UTF-16 (the codecs of the Python runtime) *)

Definition is_high_surrogate (u : Z) : bool := (0xD800 <=? u) && (u <=? 0xDBFF).
Definition is_low_surrogate (u : Z) : bool := (0xDC00 <=? u) && (u <=? 0xDFFF).
Definition is_surrogate (u : Z) : bool := (0xD800 <=? u) && (u <=? 0xDFFF).

(** CPython's [Py_UNICODE_HIGH_SURROGATE], [Py_UNICODE_LOW_SURROGATE] and
    [Py_UNICODE_JOIN_SURROGATES]. *)
Definition Py_UNICODE_HIGH_SURROGATE (ch : Z) : Z :=
  0xD800 - Z.shiftr 0x10000 10 + Z.shiftr ch 10.
Definition Py_UNICODE_LOW_SURROGATE (ch : Z) : Z :=
  0xDC00 + Z.land ch 0x3FF.
Definition Py_UNICODE_JOIN_SURROGATES (high low : Z) : Z :=
  0x10000 + Z.lor (Z.shiftl (Z.land high 0x3FF) 10) (Z.land low 0x3FF).

(** The UTF-16 code units of one code point, as the encoder emits them. *)
Definition code_units (c : Z) : list Z :=
  if c <? 0x10000 then [c]
  else [Py_UNICODE_HIGH_SURROGATE c; Py_UNICODE_LOW_SURROGATE c].

Inductive byteorder := LittleEndian | BigEndian.

Definition unit_bytes (o : byteorder) (u : Z) : bytes :=
  match o with
  | LittleEndian => [Z.land u 0xFF; Z.shiftr u 8]
  | BigEndian => [Z.shiftr u 8; Z.land u 0xFF]
  end.

Definition unit_of_bytes (o : byteorder) (b0 b1 : Z) : Z :=
  match o with
  | LittleEndian => Z.lor b0 (Z.shiftl b1 8)
  | BigEndian => Z.lor b1 (Z.shiftl b0 8)
  end.

(** The [errors=] argument of [str.encode]. *)
Inductive errors := strict | surrogatepass.

(** [s.encode('utf-16-le', errors)]: a lone surrogate is refused unless
    [errors='surrogatepass']. *)
Fixpoint encode_units (errs : errors) (s : pystr) : outcome (list Z) :=
  match s with
  | [] => Ok []
  | c :: s' =>
      match errs, is_surrogate c with
      | strict, true => Raise UnicodeEncodeError
      | _, _ => us ← encode_units errs s'; Ok (code_units c ++ us)
      end
  end.

Definition encode_utf_16_le (errs : errors) (s : pystr) : outcome bytes :=
  us ← encode_units errs s; Ok (concat (map (unit_bytes LittleEndian) us)).

(** Strict decoding: an odd byte count is "truncated data", a high
    surrogate must be followed by a low one, a low surrogate may not come
    first; each is a [UnicodeDecodeError]. *)
Fixpoint units_of_bytes (o : byteorder) (b : bytes) : outcome (list Z) :=
  match b with
  | [] => Ok []
  | [_] => Raise UnicodeDecodeError
  | b0 :: b1 :: rest =>
      us ← units_of_bytes o rest; Ok (unit_of_bytes o b0 b1 :: us)
  end.

Fixpoint decode_units (us : list Z) : outcome pystr :=
  match us with
  | [] => Ok []
  | u :: rest =>
      if is_high_surrogate u then
        match rest with
        | [] => Raise UnicodeDecodeError
        | v :: rest' =>
            if is_low_surrogate v
            then s ← decode_units rest'; Ok (Py_UNICODE_JOIN_SURROGATES u v :: s)
            else Raise UnicodeDecodeError
        end
      else if is_low_surrogate u then Raise UnicodeDecodeError
      else s ← decode_units rest; Ok (u :: s)
  end.

Definition decode_utf_16_with (o : byteorder) (b : bytes) : outcome pystr :=
  us ← units_of_bytes o b; decode_units us.

Definition decode_utf_16_le : bytes -> outcome pystr :=
  decode_utf_16_with LittleEndian.

(** [s.encode('utf-16', errors)] writes a byte order mark and then the
    units in native order (little-endian here); [b.decode('utf-16')] reads
    the mark, if any, to choose the order. *)
Definition BOM_LE : bytes := [0xFF; 0xFE].
Definition BOM_BE : bytes := [0xFE; 0xFF].

Definition encode_utf_16 (errs : errors) (s : pystr) : outcome bytes :=
  b ← encode_utf_16_le errs s; Ok (BOM_LE ++ b).

Definition decode_utf_16 (b : bytes) : outcome pystr :=
  match b with
  | b0 :: b1 :: rest =>
      if (b0 =? 0xFF) && (b1 =? 0xFE) then decode_utf_16_with LittleEndian rest
      else if (b0 =? 0xFE) && (b1 =? 0xFF) then decode_utf_16_with BigEndian rest
      else decode_utf_16_with LittleEndian b
  | _ => decode_utf_16_with LittleEndian b
  end.

(** [struct.unpack('<HH', b)] *)
Definition struct_unpack_HH (b : bytes) : outcome (Z * Z) :=
  match b with
  | [b0; b1; b2; b3] =>
      Ok (unit_of_bytes LittleEndian b0 b1, unit_of_bytes LittleEndian b2 b3)
  | _ => Raise StructError
  end.

(** ** Helpers from markdown.py *)

(** [_add_surrogate(text)] *)
Fixpoint _add_surrogate (text : pystr) : outcome pystr :=
  match text with
  | [] => Ok []
  | x :: text' =>
      piece ← (if (0x10000 <=? x) && (x <=? 0x10FFFF)
               then b ← encode_utf_16_le strict [x];
                    y ← struct_unpack_HH b;
                    Ok [y.1; y.2]
               else Ok [x]);
      rest ← _add_surrogate text';
      Ok (piece ++ rest)
  end.

(** [_del_surrogate(text)] *)
Definition _del_surrogate (text : pystr) : outcome pystr :=
  b ← encode_utf_16 surrogatepass text; decode_utf_16 b.

(** ** Message entities (the imported [tl.types] classes)

    [offset] and [length] are common to every entity class; the fields
    that only some classes have travel with the class. *)

Inductive entity_type :=
| MessageEntityBold
| MessageEntityItalic
| MessageEntityCode
| MessageEntityPre (language : pystr)
| MessageEntityEmail
| MessageEntityUrl
| MessageEntityTextUrl (url : pystr)
| MessageEntityMentionName (user_id : Z)
| MessageEntityUnderline
| MessageEntityStrike
| MessageEntityBlockquote
| MessageEntityCustomEmoji (document_id : Z)
| MessageEntitySpoiler
| MessageEntityMention
| MessageEntityHashtag
| MessageEntityBotCommand
| MessageEntityUnknown.

Module MessageEntity.
Record t := mk { type : entity_type; offset : Z; length : Z }.
End MessageEntity.
Abbreviation entity := MessageEntity.t.

Global Instance entity_type_eq_dec : EqDecision entity_type.
Proof. solve_decision. Defined.
Global Instance entity_eq_dec : EqDecision entity.
Proof. solve_decision. Defined.

(** [str(n)] for an integer, as an f-string formats it. *)
Fixpoint digits_str (d : Decimal.uint) : pystr :=
  match d with
  | Decimal.Nil => []
  | Decimal.D0 d => 48 :: digits_str d
  | Decimal.D1 d => 49 :: digits_str d
  | Decimal.D2 d => 50 :: digits_str d
  | Decimal.D3 d => 51 :: digits_str d
  | Decimal.D4 d => 52 :: digits_str d
  | Decimal.D5 d => 53 :: digits_str d
  | Decimal.D6 d => 54 :: digits_str d
  | Decimal.D7 d => 55 :: digits_str d
  | Decimal.D8 d => 56 :: digits_str d
  | Decimal.D9 d => 57 :: digits_str d
  end.

Definition int_str (n : Z) : pystr :=
  match Z.to_int n with
  | Decimal.Pos d => digits_str d
  | Decimal.Neg d => 45 :: digits_str d
  end.

(** [s.replace(old, new)] for a one-character [old]. *)
Fixpoint replace (s : pystr) (old : Z) (new : pystr) : pystr :=
  match s with
  | [] => []
  | c :: s' => (if c =? old then new else [c]) ++ replace s' old new
  end.

(** [html.escape(s, quote=False)] of the standard library. *)
Definition escape (s : pystr) : pystr :=
  let s := replace s 38 (str "&amp;") in
  let s := replace s 60 (str "&lt;") in
  let s := replace s 62 (str "&gt;") in
  s.

(** [sorted(l, key=key)]: a stable sort, here by insertion from the right;
    an element goes before the elements of equal key that followed it. *)
Fixpoint insert_by {A} (key : A -> Z) (x : A) (l : list A) : list A :=
  match l with
  | [] => [x]
  | y :: l' => if key y <? key x then y :: insert_by key x l' else x :: l
  end.

Definition sorted_by {A} (key : A -> Z) (l : list A) : list A :=
  foldr (insert_by key) [] l.

(** ** TextDecoration

    The abstract methods of the class; [blockquote] is not declared
    abstract in the source but [apply_entity] looks it up by name. *)

Class TextDecoration := {
  link : pystr -> pystr -> pystr;
  bold : pystr -> pystr;
  italic : pystr -> pystr;
  spoiler : pystr -> pystr;
  code : pystr -> pystr;
  pre : pystr -> pystr;
  pre_language : pystr -> pystr -> pystr;
  underline : pystr -> pystr;
  strikethrough : pystr -> pystr;
  quote : pystr -> pystr;
  blockquote : pystr -> pystr;
  custom_emoji : pystr -> Z -> pystr;
}.

(** [_add_surrogates] and [_remove_surrogates] (static methods). *)
Definition _add_surrogates (text : pystr) : outcome bytes :=
  encode_utf_16_le strict text.

Definition _remove_surrogates (text : bytes) : outcome pystr :=
  decode_utf_16_le text.

(** [a or b] on integers. *)
Definition int_or (a b : Z) : Z := if a =? 0 then b else a.

Section TextDecoration.
(** The module flag [CUSTOM_EMOJIS] ("can be disabled externally"), and
    the character class [\d] of [re] on [str] patterns (the Unicode
    decimal digits), which the runtime supplies. *)
Variable CUSTOM_EMOJIS : bool.
Variable isdecimal : Z -> bool.
Context {self : TextDecoration}.

(** [re.match(r"^<emoji document_id=\"?\d+?\"?>[^<]*?<\/emoji>$", text)]
    as a truth value.  The classes that follow one another are disjoint,
    so the match is deterministic. *)
Definition strip_prefix (prefix s : pystr) : option pystr :=
  if startswith s prefix then Some (drop (length prefix) s) else None.

Definition skip_optional (c : Z) (s : pystr) : pystr :=
  match s with
  | x :: s' => if x =? c then s' else s
  | [] => s
  end.

Fixpoint skip_while (p : Z -> bool) (s : pystr) : pystr :=
  match s with
  | x :: s' => if p x then skip_while p s' else s
  | [] => []
  end.

Definition at_end (s : pystr) : bool :=
  match s with
  | [] => true
  | [c] => c =? 10
  | _ => false
  end.

Definition emoji_placeholder (text : pystr) : bool :=
  match strip_prefix (str "<emoji document_id=") text with
  | None => false
  | Some s =>
      let s := skip_optional 34 s in
      match s with
      | d :: _ =>
          isdecimal d &&
          match skip_optional 34 (skip_while isdecimal s) with
          | c :: s =>
              (c =? 62) &&
              match strip_prefix (str "</emoji>")
                      (skip_while (fun x => negb (x =? 60)) s) with
              | Some s => at_end s
              | None => false
              end
          | [] => false
          end
      | [] => false
      end
  end.

Definition entity_map (t : entity_type) : option (pystr -> pystr) :=
  match t with
  | MessageEntityBold => Some bold
  | MessageEntityItalic => Some italic
  | MessageEntitySpoiler => Some spoiler
  | MessageEntityCode => Some code
  | MessageEntityUnderline => Some underline
  | MessageEntityStrike => Some strikethrough
  | MessageEntityBlockquote => Some blockquote
  | _ => None
  end.

Definition apply_entity (entity : entity) (text : pystr) : pystr :=
  match entity_map (MessageEntity.type entity) with
  | Some method => if emoji_placeholder text then text else method text
  | None =>
      match MessageEntity.type entity with
      | MessageEntityPre language =>
          match language with
          | _ :: _ => pre_language text language
          | [] => pre text
          end
      | MessageEntityMentionName user_id =>
          link text (str "tg://user?id=" ++ int_str user_id)
      | MessageEntityTextUrl url => link text url
      | MessageEntityUrl => link text text
      | MessageEntityEmail => link text (str "mailto:" ++ text)
      | MessageEntityCustomEmoji document_id =>
          if CUSTOM_EMOJIS then custom_emoji text document_id else quote text
      | _ => quote text
      end
  end.

(** The body of the [for] loop of [_unparse_entities], over the part of
    [entities] still to visit ([entities[index:]]), with the cursor
    [offset].  It returns the fragments yielded and the final cursor.
    [recurse sub start stop] is the nested call
    [self._unparse_entities(text, sub, offset=start, length=stop)]. *)
Section for_loop.
Variable recurse : list entity -> Z -> Z -> outcome (list pystr).
Variable text : bytes.

Fixpoint for_entities (entities : list entity) (offset : Z)
  : outcome (list pystr * Z) :=
  match entities with
  | [] => Ok ([], offset)
  | entity :: rest =>
      if MessageEntity.offset entity * 2 <? offset then
        for_entities rest offset
      else
        gap ← (if MessageEntity.offset entity * 2 >? offset
               then s ← _remove_surrogates
                          (py_slice text offset (MessageEntity.offset entity * 2));
                    Ok [quote s]
               else Ok []);
        let start := MessageEntity.offset entity * 2 in
        let offset :=
          MessageEntity.offset entity * 2 + MessageEntity.length entity * 2 in
        let sub_entities :=
          List.filter (fun e => MessageEntity.offset e * 2 <? int_or offset 0) rest in
        inner ← recurse sub_entities start offset;
        r ← for_entities rest offset;
        Ok (gap ++ apply_entity entity (concat inner) :: r.1, r.2)
  end.
End for_loop.

(** [_unparse_entities(text, entities, offset, length)]: the list of the
    fragments the generator yields.  [fuel] bounds the depth of the
    recursion; the nested call is on a shorter list, and [unparse]
    supplies one more than the length of the list, which is enough (see
    [_unparse_entities_fuel] and [unparse_with_error]).  The recursion
    limit of the interpreter itself is not part of the model. *)
Fixpoint _unparse_entities (fuel : nat) (text : bytes) (entities : list entity)
    (offset length : option Z) : outcome (list pystr) :=
  match fuel with
  | O => Raise RecursionError
  | S fuel' =>
      let offset := match offset with None => 0 | Some o => o end in
      let length := match length with
                    | None | Some 0 => len text
                    | Some l => l
                    end in
      r ← for_entities
            (fun sub start stop =>
               _unparse_entities fuel' text sub (Some start) (Some stop))
            text entities offset;
      last ← (if r.2 <? length
              then s ← _remove_surrogates (py_slice text r.2 length);
                   Ok [quote s]
              else Ok []);
      Ok (r.1 ++ last)
  end.

(** [sorted(entities, key=lambda item: item.offset)] *)
Definition sorted (entities : list entity) : list entity :=
  sorted_by MessageEntity.offset entities.

(** [unparse(text, entities)] *)
Definition unparse_with (text : pystr) (entities : option (list entity))
  : outcome pystr :=
  b ← _add_surrogates text;
  let es := match entities with
            | Some [] | None => []
            | Some l => sorted l
            end in
  parts ← _unparse_entities (S (length es)) b es None None;
  Ok (concat parts).
End TextDecoration.

(** ** HtmlDecoration *)

(** The double quote character of the f-strings below. *)
Definition dquote : pystr := [34].

Global Instance HtmlDecoration : TextDecoration := {|
  link value link :=
    str "<a href=" ++ dquote ++ link ++ dquote ++ str ">" ++ value ++ str "</a>";
  bold value := str "<b>" ++ value ++ str "</b>";
  italic value := str "<i>" ++ value ++ str "</i>";
  spoiler value := str "<tg-spoiler>" ++ value ++ str "</tg-spoiler>";
  code value := str "<code>" ++ value ++ str "</code>";
  pre value := str "<pre>" ++ value ++ str "</pre>";
  pre_language value language :=
    str "<pre><code class=" ++ dquote ++ str "language-" ++ language ++ dquote
      ++ str ">" ++ value ++ str "</code></pre>";
  underline value := str "<u>" ++ value ++ str "</u>";
  strikethrough value := str "<s>" ++ value ++ str "</s>";
  quote value := escape value;
  blockquote value := str "<blockquote>" ++ value ++ str "</blockquote>";
  custom_emoji value document_id :=
    str "<emoji document_id=" ++ int_str document_id ++ str ">" ++ value
      ++ str "</emoji>";
|}.

(** [html_decoration = HtmlDecoration()] and [unparse = html_decoration.unparse] *)
Definition unparse (CUSTOM_EMOJIS : bool) (isdecimal : Z -> bool)
    (text : pystr) (entities : option (list entity)) : outcome pystr :=
  unparse_with CUSTOM_EMOJIS isdecimal (self := HtmlDecoration) text entities.

(** The ASCII digits, the least that [\d] matches. *)
Definition ascii_digit (c : Z) : bool := (48 <=? c) && (c <=? 57).

(** ** HTMLToTelegramParser

    The parser object is the state of a small state-and-exception monad:
    a handler is a function from the state to a result and the state it
    leaves, so that what a handler changed before raising is still there
    for an [except] clause. *)

Module HTMLToTelegramParser.
Record t := mk {
  text : pystr;
  entities : list entity;
  _building_entities : gmap (list Z) entity;
  _open_tags : list (list Z);
  _open_tags_meta : list (option (list Z));
}.

(** [__init__] *)
Definition __init__ : t := mk [] [] ∅ [] [].
End HTMLToTelegramParser.

Module P := HTMLToTelegramParser.

Abbreviation M := (ST P.t).

(** The attribute writes of the handlers. *)
Definition set_text (v : pystr) (s : P.t) : P.t :=
  P.mk v (P.entities s) (P._building_entities s) (P._open_tags s) (P._open_tags_meta s).
Definition set_entities (v : list entity) (s : P.t) : P.t :=
  P.mk (P.text s) v (P._building_entities s) (P._open_tags s) (P._open_tags_meta s).
Definition set_building_entities (v : gmap (list Z) entity) (s : P.t) : P.t :=
  P.mk (P.text s) (P.entities s) v (P._open_tags s) (P._open_tags_meta s).
Definition set_open_tags (v : list (list Z)) (s : P.t) : P.t :=
  P.mk (P.text s) (P.entities s) (P._building_entities s) v (P._open_tags_meta s).
Definition set_open_tags_meta (v : list (option (list Z))) (s : P.t) : P.t :=
  P.mk (P.text s) (P.entities s) (P._building_entities s) (P._open_tags s) v.

(** [deque.appendleft] and [deque.popleft] on the two stacks. *)
Definition open_tags_appendleft (tag : pystr) : M unit :=
  modify (fun s => set_open_tags (tag :: P._open_tags s) s).
Definition open_tags_meta_appendleft (meta : option pystr) : M unit :=
  modify (fun s => set_open_tags_meta (meta :: P._open_tags_meta s) s).
Definition open_tags_popleft : M pystr :=
  fun s => match P._open_tags s with
           | [] => (Raise IndexError, s)
           | tag :: tags => (Ok tag, set_open_tags tags s)
           end.
Definition open_tags_meta_popleft : M (option pystr) :=
  fun s => match P._open_tags_meta s with
           | [] => (Raise IndexError, s)
           | meta :: metas => (Ok meta, set_open_tags_meta metas s)
           end.

(** [dict(attrs)]: of two pairs with one name the later wins. An attribute
    without a value has the value [None]. *)
Definition dict (attrs : list (list Z * option (list Z))) : gmap (list Z) (option (list Z)) :=
  list_to_map (reverse attrs).

(** [pre.language = value] *)
Definition set_language (value : pystr) (e : entity) : entity :=
  match MessageEntity.type e with
  | MessageEntityPre _ =>
      MessageEntity.mk (MessageEntityPre value) (MessageEntity.offset e) (MessageEntity.length e)
  | _ => e
  end.

(** [entity.length += n] *)
Definition add_length (n : Z) (e : entity) : entity :=
  MessageEntity.mk (MessageEntity.type e) (MessageEntity.offset e) (MessageEntity.length e + n).

(** How the chain of tag tests in [handle_starttag] ends: with the early
    [return] of an anchor without [href], or at the final [if] with the
    [EntityType] chosen, [args] being the fields of that class. *)
Inductive flow :=
| Return
| Continue (EntityType : option entity_type).

Definition tag_in (tag : pystr) (names : list pystr) : bool := bool_decide (tag ∈ names).
Definition tag_is (tag : pystr) (name : pystr) : bool := bool_decide (tag = name).

Section HTMLToTelegramParser.
(** The module flag, and the built-in [int] on a string ([None]: it raises
    [ValueError]). *)
Variable CUSTOM_EMOJIS : bool.
Variable int : pystr -> option Z.

Definition starttag_code (attrs : gmap (list Z) (option (list Z))) : M flow :=
  self <~ get ;;
  match P._building_entities self !! str "pre" with
  | Some pre =>
      match attrs !! str "class" with
      | Some (Some class) =>
          modify (set_building_entities
                    (<[str "pre" := set_language (drop 9 class) pre]>
                       (P._building_entities self))) ;;;
          ret (Continue None)
      | Some None => raise TypeError
      | None => ret (Continue None)
      end
  | None => ret (Continue (Some MessageEntityCode))
  end.

Definition starttag_a (attrs : gmap (list Z) (option (list Z)))
    (starttag_text : pystr) : M flow :=
  match attrs !! str "href" with
  | None => ret Return
  | Some None => raise AttributeError
  | Some (Some url) =>
      r <~ (if startswith url (str "mailto:")
            then ret (Some (drop 7 url), MessageEntityEmail)
            else if bool_decide (starttag_text = url)
            then ret (Some url, MessageEntityUrl)
            else u <~ lift (_del_surrogate url) ;;
                 ret (None, MessageEntityTextUrl u)) ;;
      open_tags_meta_popleft ;;;
      open_tags_meta_appendleft r.1 ;;;
      ret (Continue (Some r.2))
  end.

Definition starttag_emoji (attrs : gmap (list Z) (option (list Z))) : M flow :=
  match attrs !! str "document_id" with
  | None => raise KeyError
  | Some None => raise TypeError
  | Some (Some value) =>
      match int value with
      | Some document_id => ret (Continue (Some (MessageEntityCustomEmoji document_id)))
      | None => raise ValueError
      end
  end.

(** [handle_starttag(tag, attrs)]; [starttag_text] is what
    [self.get_starttag_text()] returns during the call. *)
Definition handle_starttag (tag : pystr) (attrs : list (list Z * option (list Z)))
    (starttag_text : pystr) : M unit :=
  open_tags_appendleft tag ;;;
  open_tags_meta_appendleft None ;;;
  let attrs := dict attrs in
  f <~ (if tag_in tag [str "strong"; str "b"] then ret (Continue (Some MessageEntityBold))
        else if tag_in tag [str "em"; str "i"] then ret (Continue (Some MessageEntityItalic))
        else if tag_in tag [str "tg-spoiler"] then ret (Continue (Some MessageEntitySpoiler))
        else if tag_is tag (str "u") then ret (Continue (Some MessageEntityUnderline))
        else if tag_in tag [str "del"; str "s"] then ret (Continue (Some MessageEntityStrike))
        else if tag_is tag (str "blockquote") then ret (Continue (Some MessageEntityBlockquote))
        else if tag_is tag (str "code") then starttag_code attrs
        else if tag_is tag (str "pre") then ret (Continue (Some (MessageEntityPre [])))
        else if tag_is tag (str "a") then starttag_a attrs starttag_text
        else if tag_is tag (str "emoji") && CUSTOM_EMOJIS then starttag_emoji attrs
        else ret (Continue None)) ;;
  match f with
  | Return => ret tt
  | Continue None => ret tt
  | Continue (Some EntityType) =>
      self <~ get ;;
      match P._building_entities self !! tag with
      | Some _ => ret tt
      | None =>
          modify (set_building_entities
                    (<[tag := MessageEntity.mk EntityType (len (P.text self)) 0]>
                       (P._building_entities self)))
      end
  end.

(** [handle_data(text)] *)
Definition handle_data (text : pystr) : M unit :=
  self <~ get ;;
  let previous_tag := match P._open_tags self with
                      | tag :: _ => tag
                      | [] => []
                      end in
  text <~ (if tag_is previous_tag (str "a")
           then match P._open_tags_meta self with
                | [] => raise IndexError
                | Some (c :: url) :: _ => ret (c :: url)
                | _ :: _ => ret text
                end
           else ret text) ;;
  modify (fun s => set_building_entities
                     (add_length (len text) <$> P._building_entities s) s) ;;;
  modify (fun s => set_text (P.text s ++ text) s).

(** [handle_endtag(tag)].  An entity object is always true, so the final
    [if entity] tests that [pop] found one. *)
Definition handle_endtag (tag : pystr) : M unit :=
  try_except
    (open_tags_popleft ;;; open_tags_meta_popleft ;;; ret tt)
    IndexError
    (ret tt) ;;;
  self <~ get ;;
  let entity := P._building_entities self !! tag in
  modify (set_building_entities (delete tag (P._building_entities self))) ;;;
  match entity with
  | Some entity => modify (fun s => set_entities (P.entities s ++ [entity]) s)
  | None => ret tt
  end.

(** What the tokenizer of [html.parser.HTMLParser] reports to the
    handlers. *)
Inductive event :=
| StartTag (tag : list Z) (attrs : list (list Z * option (list Z))) (starttag_text : list Z)
| Data (text : list Z)
| EndTag (tag : list Z).

Definition handle (ev : event) : M unit :=
  match ev with
  | StartTag tag attrs starttag_text => handle_starttag tag attrs starttag_text
  | Data text => handle_data text
  | EndTag tag => handle_endtag tag
  end.

Fixpoint handle_all (events : list event) : M unit :=
  match events with
  | [] => ret tt
  | ev :: events' => handle ev ;;; handle_all events'
  end.

(** The tokenizer of the standard library, and [helpers.strip_text], which
    trims the text and returns it with the entities as it leaves them. *)
Variable tokenize : pystr -> list event.
Variable strip_text : pystr -> list entity -> pystr * list entity.

(** [parser.feed(data)] *)
Definition feed (data : pystr) : M unit := handle_all (tokenize data).

(** The truth value of the argument of [parse]: [None] and the empty
    string are false. *)
Definition truthy (html : option pystr) : bool :=
  match html with
  | Some (_ :: _) => true
  | _ => false
  end.

(** [parse(html)] *)
Definition parse (html : option pystr) : outcome (option pystr * list entity) :=
  if negb (truthy html) then Ok (html, [])
  else
    match html with
    | None => Raise TypeError
    | Some html =>
        data ← _add_surrogate html;
        let (r, parser) := feed data P.__init__ in
        _ ← r;
        let (text, entities) := strip_text (P.text parser) (P.entities parser) in
        text ← _del_surrogate text;
        Ok (Some text, entities)
    end.
End HTMLToTelegramParser.

(** ** [unparse] on the objects of its caller

    The list [entities] and the entities in it are objects that the caller
    still holds after the call.  Here they live in a heap: a list object
    holds references, an entity object holds the fields.  [sorted], a slice
    and [list(filter(...))] each make a new list object; attribute reads go
    through the heap. *)

Abbreviation loc := positive (only parsing).

Inductive object :=
| ListObject (items : list positive)
| EntityObject (e : entity).

Abbreviation heap := (gmap positive object) (only parsing).
Abbreviation H := (ST (gmap positive object)) (only parsing).

Definition alloc (o : object) : H loc :=
  fun h => let l := fresh (dom h) in (Ok l, <[l := o]> h).

Definition read_list (l : loc) : H (list loc) :=
  fun h => match h !! l with
           | Some (ListObject items) => (Ok items, h)
           | _ => (Raise TypeError, h)
           end.

Definition read_entity (l : loc) : H entity :=
  fun h => match h !! l with
           | Some (EntityObject e) => (Ok e, h)
           | _ => (Raise AttributeError, h)
           end.

Fixpoint read_entities (items : list loc) : H (list entity) :=
  match items with
  | [] => ret []
  | l :: items' =>
      e <~ read_entity l ;;
      es <~ read_entities items' ;;
      ret (e :: es)
  end.

(** [sorted(entities, key=lambda item: item.offset)] on a list object *)
Definition sorted_h (entities : loc) : H loc :=
  items <~ read_list entities ;;
  es <~ read_entities items ;;
  alloc (ListObject
           (map snd (sorted_by (fun p => MessageEntity.offset p.1) (zip es items)))).

(** [list(filter(lambda e: test(e), entities))] on a list object *)
Definition list_filter_h (test : entity -> bool) (entities : loc) : H loc :=
  items <~ read_list entities ;;
  es <~ read_entities items ;;
  alloc (ListObject (map snd (List.filter (fun p => test p.1) (zip es items)))).

Section TextDecoration_heap.
Variable CUSTOM_EMOJIS : bool.
Variable isdecimal : Z -> bool.
Context {self : TextDecoration}.

Section for_loop_heap.
Variable recurse : loc -> Z -> Z -> H (list pystr).
Variable text : bytes.

(** The loop of [_unparse_entities] over the references still to visit. *)
Fixpoint for_entities_h (entities : list loc) (offset : Z) : H (list pystr * Z) :=
  match entities with
  | [] => ret ([], offset)
  | l :: rest =>
      entity <~ read_entity l ;;
      if MessageEntity.offset entity * 2 <? offset then
        for_entities_h rest offset
      else
        gap <~ lift (if MessageEntity.offset entity * 2 >? offset
                     then s ← _remove_surrogates
                                (py_slice text offset (MessageEntity.offset entity * 2));
                          Ok [quote s]
                     else Ok []) ;;
        let start := MessageEntity.offset entity * 2 in
        let offset :=
          MessageEntity.offset entity * 2 + MessageEntity.length entity * 2 in
        tail <~ alloc (ListObject rest) ;;
        sub_entities <~ list_filter_h
                          (fun e => MessageEntity.offset e * 2 <? int_or offset 0) tail ;;
        inner <~ recurse sub_entities start offset ;;
        r <~ for_entities_h rest offset ;;
        ret (gap ++ apply_entity CUSTOM_EMOJIS isdecimal entity (concat inner) :: r.1,
             r.2)
  end.
End for_loop_heap.

Fixpoint _unparse_entities_h (fuel : nat) (text : bytes) (entities : loc)
    (offset length : option Z) : H (list pystr) :=
  match fuel with
  | O => raise RecursionError
  | S fuel' =>
      let offset := match offset with None => 0 | Some o => o end in
      let length := match length with
                    | None | Some 0 => len text
                    | Some l => l
                    end in
      items <~ read_list entities ;;
      r <~ for_entities_h
             (fun sub start stop =>
                _unparse_entities_h fuel' text sub (Some start) (Some stop))
             text items offset ;;
      last <~ lift (if r.2 <? length
                    then s ← _remove_surrogates (py_slice text r.2 length);
                         Ok [quote s]
                    else Ok []) ;;
      ret (r.1 ++ last)
  end.

(** [unparse(text, entities)], [entities] being [None] or a list object. *)
Definition unparse_h (text : pystr) (entities : option loc) : H pystr :=
  b <~ lift (_add_surrogates text) ;;
  es <~ match entities with
        | None => alloc (ListObject [])
        | Some l =>
            items <~ read_list l ;;
            match items with
            | [] => alloc (ListObject [])
            | _ :: _ => sorted_h l
            end
        end ;;
  items <~ read_list es ;;
  parts <~ _unparse_entities_h (S (length items)) b es None None ;;
  ret (concat parts).
End TextDecoration_heap.

(** * The vocabulary of the properties *)

(** ** UTF-16 in the words of the specification *)

(** The specification's reading of UTF-16: a scalar value above U+FFFF is
    written as a high surrogate followed by a low surrogate, any other
    value as itself. *)
Definition is_scalar_value (c : Z) : Prop :=
  0 <= c <= 0x10FFFF /\ ~ (0xD800 <= c <= 0xDFFF).

Definition high_surrogate (c : Z) : Z := 0xD800 + (c - 0x10000) / 0x400.
Definition low_surrogate (c : Z) : Z := 0xDC00 + (c - 0x10000) mod 0x400.

Definition to_utf16_units (c : Z) : list Z :=
  if 0xFFFF <? c then [high_surrogate c; low_surrogate c] else [c].

Definition is_code_unit (u : Z) : Prop := 0 <= u <= 0xFFFF.

(** A code point of a Python string. *)
Definition is_code_point (c : Z) : Prop := 0 <= c <= 0x10FFFF.

(** ** The quote rule *)

(** The quote rule in the specification's words: exactly ['&'], ['<'] and
    ['>'] are replaced; every other character, the two quote characters
    included, stays. *)
Definition escape_char (c : Z) : pystr :=
  if c =? 38 then str "&amp;"
  else if c =? 60 then str "&lt;"
  else if c =? 62 then str "&gt;"
  else [c].

Definition html_quote (text : pystr) : pystr := flat_map escape_char text.

(** ** Entity types without rendering *)

(** The entity types that [apply_entity] knows no rendering for: it
    returns [self.quote(text)] for them. *)
Definition unrendered (CUSTOM_EMOJIS : bool) (ty : entity_type) : bool :=
  match ty with
  | MessageEntityMention | MessageEntityHashtag | MessageEntityBotCommand
  | MessageEntityUnknown => true
  | MessageEntityCustomEmoji _ => negb CUSTOM_EMOJIS
  | _ => false
  end.

(** ** Builders *)

Definition same_span (b b' : entity) : Prop :=
  MessageEntity.offset b' = MessageEntity.offset b
  /\ MessageEntity.length b' = MessageEntity.length b.

(** A step keeps the builders when it leaves the text and the closed
    entities alone, opens and closes no builder, and changes neither the
    offset nor the length of an open one. *)
Definition builders_kept (s s' : P.t) : Prop :=
  P.text s' = P.text s
  /\ P.entities s' = P.entities s
  /\ forall t, option_Forall2 same_span
                 (P._building_entities s !! t) (P._building_entities s' !! t).

Definition keeps_builders {A} (m : M A) : Prop :=
  forall s, builders_kept s (m s).2.

(** What [handle_endtag(tag)] appends to the result list: the builder of
    [tag] if there is one. *)
Definition closed_by (tag : pystr) (s : P.t) : list entity :=
  match P._building_entities s !! tag with
  | Some e => [e]
  | None => []
  end.

(** ** Heaps *)

Definition extends {A} (m : H A) : Prop := forall h, h ⊆ (m h).2.

Definition points_to (h : gmap positive object) (items : list loc) (es : list entity) : Prop :=
  Forall2 (fun l e => h !! l = Some (EntityObject e)) items es.

Definition paired (h : gmap positive object) (ps : list (entity * positive)) : Prop :=
  Forall (fun p => h !! p.2 = Some (EntityObject p.1)) ps.

(** ** Positions in a text *)

(** The length of a text in UTF-16 code units. *)
Definition utf16_length (text : pystr) : Z := len (flat_map to_utf16_units text).





(** ** Nested spans

    A text with well-nested entities: a body is a run of gaps and spans, a
    span is an entity type over a body and the text after the last inner
    span. *)

Inductive span :=
| Span (ty : entity_type) (content : body) (last : pystr)
with body :=
| Done
| Then (gap : pystr) (s : span) (rest : body).

Fixpoint span_text (s : span) : pystr :=
  match s with
  | Span _ content last => body_text content ++ last
  end
with body_text (b : body) : pystr :=
  match b with
  | Done => []
  | Then gap s rest => gap ++ span_text s ++ body_text rest
  end.

(** The entities of the spans, parents before children, with offsets and
    lengths in UTF-16 code units. *)
Fixpoint span_entities (offset : Z) (s : span) : list entity :=
  match s with
  | Span ty content _ =>
      MessageEntity.mk ty offset (utf16_length (span_text s))
      :: body_entities offset content
  end
with body_entities (start : Z) (b : body) : list entity :=
  match b with
  | Done => []
  | Then gap s rest =>
      span_entities (start + utf16_length gap) s
      ++ body_entities (start + utf16_length gap + utf16_length (span_text s)) rest
  end.

Fixpoint span_nonempty (s : span) : Prop :=
  match s with
  | Span _ content _ => span_text s <> [] /\ body_nonempty content
  end
with body_nonempty (b : body) : Prop :=
  match b with
  | Done => True
  | Then _ s rest => span_nonempty s /\ body_nonempty rest
  end.

(** The UTF-16 buffer of a text of scalar values. *)
Definition utf16_le (text : pystr) : bytes :=
  concat (map (unit_bytes LittleEndian) (flat_map to_utf16_units text)).

Section markup.
Variable CUSTOM_EMOJIS : bool.
Variable isdecimal : Z -> bool.
Context {self : TextDecoration}.

(** A piece of plain text is quoted, and no fragment is made of an empty
    one. *)
Definition quote_if_any (t : pystr) : pystr :=
  match t with
  | [] => []
  | _ :: _ => quote t
  end.

Definition fragment_if_any (t : pystr) : list pystr :=
  match t with
  | [] => []
  | _ :: _ => [quote t]
  end.

(** The markup of nested spans: each span is its entity applied to the
    markup of what it holds. *)
Fixpoint span_markup (s : span) : pystr :=
  match s with
  | Span ty content last =>
      apply_entity CUSTOM_EMOJIS isdecimal (MessageEntity.mk ty 0 0)
        (body_markup content ++ quote_if_any last)
  end
with body_markup (b : body) : pystr :=
  match b with
  | Done => []
  | Then gap s rest => quote_if_any gap ++ span_markup s ++ body_markup rest
  end.
End markup.

(** ** Entities and the text of the parser *)

(** An entity lies within a text of [n] code units; a builder reaches
    exactly to the end of it. *)
Definition within (n : Z) (e : entity) : Prop :=
  0 <= MessageEntity.offset e /\ 0 <= MessageEntity.length e
  /\ MessageEntity.offset e + MessageEntity.length e <= n.

Definition reaches (n : Z) (e : entity) : Prop :=
  0 <= MessageEntity.offset e /\ 0 <= MessageEntity.length e
  /\ MessageEntity.offset e + MessageEntity.length e = n.

Definition parser_ok (s : P.t) : Prop :=
  Forall (within (len (P.text s))) (P.entities s)
  /\ map_Forall (fun _ b => reaches (len (P.text s)) b) (P._building_entities s)
  /\ length (P._open_tags s) = length (P._open_tags_meta s).

(** A handler keeps the invariant, also when it raises. *)
Definition keeps_parser_ok {A} (m : M A) : Prop :=
  forall s, parser_ok s -> parser_ok (m s).2.

(** The errors that a start tag with unusable attributes raises. *)
Definition attribute_error (e : exn) : Prop :=
  e = TypeError \/ e = AttributeError \/ e = KeyError \/ e = ValueError
  \/ e = UnicodeDecodeError.

(** The start tags whose attributes [handle_starttag] reads: [code], [a],
    and [emoji] when [CUSTOM_EMOJIS] is on. *)
Definition reads_attributes (CUSTOM_EMOJIS : bool) (ev : event) : bool :=
  match ev with
  | StartTag tag _ _ =>
      tag_in tag [str "code"; str "a"] || (tag_is tag (str "emoji") && CUSTOM_EMOJIS)
  | _ => false
  end.

(** The data of the events, and the events that open an anchor or close a
    tag. *)
Fixpoint data_of (events : list event) : pystr :=
  match events with
  | [] => []
  | Data text :: events' => text ++ data_of events'
  | _ :: events' => data_of events'
  end.

Definition opens_anchor (ev : event) : bool :=
  match ev with
  | StartTag tag _ _ => tag_is tag (str "a")
  | _ => false
  end.

Definition closes_tag (ev : event) : bool :=
  match ev with
  | EndTag _ => true
  | _ => false
  end.

(** The text that [handle_data] adds for the data [label] inside an anchor
    whose slot of [_open_tags_meta] holds [url]: [if url: text = url]. *)
Definition anchor_text (url : option pystr) (label : pystr) : pystr :=
  match url with
  | Some (c :: url) => c :: url
  | _ => label
  end.

(** ** The events of nested spans

    The tags that [HtmlDecoration] writes for the entity types that need
    no attribute, and that [handle_starttag] reads back as the same
    type. *)
Definition tag_of (ty : entity_type) : pystr :=
  match ty with
  | MessageEntityBold => str "b"
  | MessageEntityItalic => str "i"
  | MessageEntitySpoiler => str "tg-spoiler"
  | MessageEntityCode => str "code"
  | MessageEntityUnderline => str "u"
  | MessageEntityStrike => str "s"
  | MessageEntityBlockquote => str "blockquote"
  | MessageEntityPre _ => str "pre"
  | _ => []
  end.

Definition simple (ty : entity_type) : bool :=
  match ty with
  | MessageEntityBold | MessageEntityItalic | MessageEntitySpoiler
  | MessageEntityCode | MessageEntityUnderline | MessageEntityStrike
  | MessageEntityBlockquote | MessageEntityPre [] => true
  | _ => false
  end.

(** What the tokenizer reports for the markup of a span: it works on the
    string that [_add_surrogate] returns, so data comes in UTF-16 code
    units, and there is no data event for an empty piece of text. *)
Definition data_events (t : pystr) : list event :=
  match flat_map to_utf16_units t with
  | [] => []
  | c :: units => [Data (c :: units)]
  end.

Fixpoint span_events (s : span) : list event :=
  match s with
  | Span ty content last =>
      StartTag (tag_of ty) [] (str "<" ++ tag_of ty ++ str ">")
      :: body_events content ++ data_events last ++ [EndTag (tag_of ty)]
  end
with body_events (b : body) : list event :=
  match b with
  | Done => []
  | Then gap s rest => data_events gap ++ span_events s ++ body_events rest
  end.

(** The entities of the spans in the order in which their tags close:
    children before parents. *)
Fixpoint span_closed (offset : Z) (s : span) : list entity :=
  match s with
  | Span ty content _ =>
      body_closed offset content
      ++ [MessageEntity.mk ty offset (utf16_length (span_text s))]
  end
with body_closed (start : Z) (b : body) : list entity :=
  match b with
  | Done => []
  | Then gap s rest =>
      span_closed (start + utf16_length gap) s
      ++ body_closed (start + utf16_length gap + utf16_length (span_text s)) rest
  end.

(** Every span has a type with a tag of its own, no span lies in a span
    with the same tag, and no [code] span lies in a [pre] span; [open] are
    the tags of the spans around. *)
Fixpoint span_tags_ok (open : list pystr) (s : span) : Prop :=
  match s with
  | Span ty content _ =>
      simple ty = true /\ (tag_of ty ∉ open)
      /\ (ty = MessageEntityCode -> str "pre" ∉ open)
      /\ body_tags_ok (tag_of ty :: open) content
  end
with body_tags_ok (open : list pystr) (b : body) : Prop :=
  match b with
  | Done => True
  | Then _ s rest => span_tags_ok open s /\ body_tags_ok open rest
  end.

(** ** Inputs of the tests and of the examples *)

Definition Bold (offset length : Z) : entity :=
  MessageEntity.mk MessageEntityBold offset length.
Definition TextUrl (offset length : Z) (url : pystr) : entity :=
  MessageEntity.mk (MessageEntityTextUrl url) offset length.

(** U+1F3C6, the trophy of [test_malformed_entities]. *)
Definition trophy : Z := 0x1F3C6.

Definition challenge_text : pystr :=
  [trophy] ++ str "Telegram Official Android Challenge is over" ++ [trophy] ++ str ".".

Definition challenge_entity : entity := TextUrl 2 43 (str "https://example.com").

Definition challenge_markup : pystr :=
  [trophy] ++ str "<a href=" ++ dquote ++ str "https://example.com" ++ dquote
    ++ str ">Telegram Official Android Challenge is over</a>" ++ [trophy] ++ str ".".

(** The state after [<b>x]: one open tag, one open Bold builder. *)
Definition after_b_x : P.t :=
  P.mk (str "x") [] {[ str "b" := Bold 0 1 ]} [str "b"] [None].

(** The caller's heap for ["Hello, world"]: the list at 1 holds the
    references 3 and 2, in this order, to Bold(7,5) and Bold(0,5). *)
Definition caller_heap : gmap positive object :=
  {[ 1%positive := ListObject [3%positive; 2%positive];
     2%positive := EntityObject (Bold 0 5);
     3%positive := EntityObject (Bold 7 5) ]}.

(** * Properties *)

Ltac unfold_bind := unfold mbind, outcome_bind, mret, outcome_ret in *.

(** ** The surrogate codec *)

Section codec_facts.
Local Ltac Zify.zify_post_hook ::= Z.to_euclidean_division_equations.

Lemma land_0x3FF (a : Z) : Z.land a 0x3FF = a mod 0x400.
Proof. change 0x3FF with (Z.ones 10). now rewrite Z.land_ones by lia. Qed.

Lemma land_0xFF (a : Z) : Z.land a 0xFF = a mod 0x100.
Proof. change 0xFF with (Z.ones 8). now rewrite Z.land_ones by lia. Qed.

Lemma lor_shiftl_low (a b k : Z) :
  0 <= k -> 0 <= b < 2 ^ k -> Z.lor (Z.shiftl a k) b = a * 2 ^ k + b.
Proof.
  intros Hk Hb.
  assert (Hland : Z.land (Z.shiftl a k) b = 0).
  { apply Z.bits_inj'; intros n Hn.
    rewrite Z.land_spec, Z.bits_0.
    destruct (Z.lt_ge_cases n k) as [Hlt | Hge].
    - rewrite Z.shiftl_spec_low by lia. reflexivity.
    - replace (Z.testbit b n) with false; [apply andb_false_r |].
      symmetry. destruct (Z.eq_dec b 0) as [-> | Hnz]; [apply Z.bits_0 |].
      apply Z.bits_above_log2; [lia |].
      apply Z.log2_lt_pow2; [lia |].
      apply Z.lt_le_trans with (2 ^ k); [lia |].
      apply Z.pow_le_mono_r; lia. }
  pose proof (Z.add_lor_land (Z.shiftl a k) b) as Hadd.
  rewrite Hland, Z.add_0_r in Hadd. rewrite Hadd.
  now rewrite Z.shiftl_mul_pow2 by lia.
Qed.

Lemma unit_of_bytes_unit_bytes (o : byteorder) (u : Z) :
  match unit_bytes o u with
  | [b0; b1] => unit_of_bytes o b0 b1 = u
  | _ => False
  end.
Proof.
  assert (H : Z.lor (Z.land u 0xFF) (Z.shiftl (Z.shiftr u 8) 8) = u).
  { rewrite Z.lor_comm, land_0xFF, lor_shiftl_low by lia.
    rewrite Z.shiftr_div_pow2 by lia. change (2 ^ 8) with 256. lia. }
  destruct o; simpl; exact H.
Qed.

Lemma high_surrogate_macro (c : Z) :
  Py_UNICODE_HIGH_SURROGATE c = high_surrogate c.
Proof.
  unfold Py_UNICODE_HIGH_SURROGATE, high_surrogate.
  rewrite !Z.shiftr_div_pow2 by lia. change (2 ^ 10) with 1024.
  change (65536 / 1024) with 64. lia.
Qed.

Lemma low_surrogate_macro (c : Z) :
  Py_UNICODE_LOW_SURROGATE c = low_surrogate c.
Proof.
  unfold Py_UNICODE_LOW_SURROGATE, low_surrogate.
  rewrite land_0x3FF. lia.
Qed.

Lemma surrogate_ranges (c : Z) :
  0x10000 <= c <= 0x10FFFF ->
  0xD800 <= high_surrogate c <= 0xDBFF /\ 0xDC00 <= low_surrogate c <= 0xDFFF.
Proof. unfold high_surrogate, low_surrogate. lia. Qed.

Lemma join_surrogates (c : Z) :
  0x10000 <= c <= 0x10FFFF ->
  Py_UNICODE_JOIN_SURROGATES (high_surrogate c) (low_surrogate c) = c.
Proof.
  intros Hc. unfold Py_UNICODE_JOIN_SURROGATES.
  rewrite !land_0x3FF, lor_shiftl_low by lia.
  unfold high_surrogate, low_surrogate. change (2 ^ 10) with 1024. lia.
Qed.
End codec_facts.

Lemma code_units_to_utf16 (c : Z) : code_units c = to_utf16_units c.
Proof.
  unfold code_units, to_utf16_units.
  rewrite high_surrogate_macro, low_surrogate_macro.
  destruct (Z.ltb_spec c 0x10000), (Z.ltb_spec 0xFFFF c); (reflexivity || lia).
Qed.

Lemma to_utf16_units_bmp (c : Z) : c <= 0xFFFF -> to_utf16_units c = [c].
Proof.
  intros Hc. unfold to_utf16_units. now destruct (Z.ltb_spec 0xFFFF c); [lia |].
Qed.

Lemma to_utf16_units_astral (c : Z) :
  0xFFFF < c -> to_utf16_units c = [high_surrogate c; low_surrogate c].
Proof.
  intros Hc. unfold to_utf16_units. now destruct (Z.ltb_spec 0xFFFF c); [| lia].
Qed.

Lemma to_utf16_units_in_range (text : pystr) :
  Forall is_scalar_value text -> Forall is_code_unit (flat_map to_utf16_units text).
Proof.
  induction 1 as [| c text [Hc Hns] _ IH]; simpl; [constructor |].
  apply Forall_app; split; [| exact IH].
  unfold to_utf16_units. destruct (Z.ltb_spec 0xFFFF c).
  - destruct (surrogate_ranges c) as [Hh Hl]; [lia |].
    repeat constructor; unfold is_code_unit; lia.
  - repeat constructor; unfold is_code_unit; lia.
Qed.

Lemma encode_units_surrogatepass (us : list Z) :
  Forall is_code_unit us -> encode_units surrogatepass us = Ok us.
Proof.
  induction 1 as [| u us Hu _ IH]; simpl; [reflexivity |].
  rewrite IH. unfold_bind. unfold code_units.
  destruct (Z.ltb_spec u 0x10000); [| unfold is_code_unit in Hu; lia].
  now destruct (is_surrogate u).
Qed.

Lemma units_of_bytes_unit_bytes (o : byteorder) (us : list Z) :
  units_of_bytes o (concat (map (unit_bytes o) us)) = Ok us.
Proof.
  induction us as [| u us IH]; [reflexivity |].
  pose proof (unit_of_bytes_unit_bytes o u) as Hu.
  change (concat (map (unit_bytes o) (u :: us)))
    with (unit_bytes o u ++ concat (map (unit_bytes o) us)).
  destruct (unit_bytes o u) as [| b0 [| b1 [| ? ?]]]; try contradiction.
  simpl. rewrite IH. unfold_bind. now rewrite Hu.
Qed.

Lemma decode_units_to_utf16 (text : pystr) :
  Forall is_scalar_value text ->
  decode_units (flat_map to_utf16_units text) = Ok text.
Proof.
  induction 1 as [| c text [Hc Hns] _ IH]; [reflexivity |].
  change (flat_map to_utf16_units (c :: text))
    with (to_utf16_units c ++ flat_map to_utf16_units text).
  destruct (Z.lt_ge_cases 0xFFFF c).
  - destruct (surrogate_ranges c) as [Hh Hl]; [lia |].
    rewrite to_utf16_units_astral by lia.
    simpl. unfold is_high_surrogate, is_low_surrogate.
    replace (0xD800 <=? high_surrogate c) with true by (symmetry; apply Z.leb_le; lia).
    replace (high_surrogate c <=? 0xDBFF) with true by (symmetry; apply Z.leb_le; lia).
    replace (0xDC00 <=? low_surrogate c) with true by (symmetry; apply Z.leb_le; lia).
    replace (low_surrogate c <=? 0xDFFF) with true by (symmetry; apply Z.leb_le; lia).
    simpl. rewrite IH. unfold_bind. now rewrite join_surrogates by lia.
  - rewrite to_utf16_units_bmp by lia.
    simpl. unfold is_high_surrogate, is_low_surrogate.
    destruct (Z.leb_spec 0xD800 c), (Z.leb_spec c 0xDBFF),
      (Z.leb_spec 0xDC00 c), (Z.leb_spec c 0xDFFF); simpl; try lia;
      rewrite IH; reflexivity.
Qed.

Lemma _add_surrogate_units (text : pystr) :
  Forall is_scalar_value text ->
  _add_surrogate text = Ok (flat_map to_utf16_units text).
Proof.
  induction 1 as [| c text [Hc Hns] _ IH]; [reflexivity |].
  change (flat_map to_utf16_units (c :: text))
    with (to_utf16_units c ++ flat_map to_utf16_units text).
  simpl. rewrite IH.
  destruct (Z.lt_ge_cases 0xFFFF c).
  - replace ((0x10000 <=? c) && (c <=? 0x10FFFF)) with true
      by (symmetry; apply andb_true_iff; split; apply Z.leb_le; lia).
    unfold encode_utf_16_le. simpl.
    replace (is_surrogate c) with false
      by (symmetry; unfold is_surrogate; apply andb_false_iff; right; apply Z.leb_gt; lia).
    rewrite code_units_to_utf16, to_utf16_units_astral by lia.
    pose proof (unit_of_bytes_unit_bytes LittleEndian (high_surrogate c)) as Hh.
    pose proof (unit_of_bytes_unit_bytes LittleEndian (low_surrogate c)) as Hl.
    simpl in *. now rewrite Hh, Hl.
  - replace ((0x10000 <=? c) && (c <=? 0x10FFFF)) with false
      by (symmetry; apply andb_false_iff; left; apply Z.leb_gt; lia).
    now rewrite to_utf16_units_bmp by lia.
Qed.

Lemma _del_surrogate_units (us : list Z) :
  Forall is_code_unit us -> _del_surrogate us = decode_units us.
Proof.
  intros Hus. unfold _del_surrogate, encode_utf_16, encode_utf_16_le.
  rewrite encode_units_surrogatepass by exact Hus.
  unfold_bind. simpl. unfold decode_utf_16_with.
  now rewrite units_of_bytes_unit_bytes.
Qed.

(** C5. The surrogate codec is total and a round trip: on a string of
    Unicode scalar values [_add_surrogate] does not fail, writes every
    scalar above U+FFFF as its high surrogate (0xD800-0xDBFF) followed by
    its low surrogate (0xDC00-0xDFFF) and every other scalar as itself, and
    [_del_surrogate] maps the result back to the original string. *)
Theorem surrogate_codec_round_trip (text : pystr) :
  Forall is_scalar_value text ->
  exists units,
    _add_surrogate text = Ok units
    /\ units = flat_map to_utf16_units text
    /\ Forall (fun c => 0xFFFF < c ->
                 0xD800 <= high_surrogate c <= 0xDBFF
                 /\ 0xDC00 <= low_surrogate c <= 0xDFFF) text
    /\ _del_surrogate units = Ok text.
Proof.
  intros Htext. exists (flat_map to_utf16_units text).
  split; [now apply _add_surrogate_units |].
  split; [reflexivity |].
  split.
  - eapply Forall_impl; [exact Htext |].
    intros c [Hc _] Hbig. apply surrogate_ranges. lia.
  - rewrite _del_surrogate_units by now apply to_utf16_units_in_range.
    now apply decode_units_to_utf16.
Qed.

(** The string "a", U+1F3C6, U+FFFF. *)
Lemma surrogate_codec_round_trip_witness :
  exists units,
    _add_surrogate [97; 0x1F3C6; 0xFFFF] = Ok units
    /\ units = [97; 0xD83C; 0xDFC6; 0xFFFF]
    /\ _del_surrogate units = Ok [97; 0x1F3C6; 0xFFFF].
Proof.
  destruct (surrogate_codec_round_trip [97; 0x1F3C6; 0xFFFF]) as (units & Ha & Hu & _ & Hd).
  - repeat constructor; unfold is_scalar_value; lia.
  - exists units. split; [exact Ha |]. split; [| exact Hd].
    rewrite Hu. vm_compute. reflexivity.
Defined.

(** ** [sorted_by] is a stable sort *)

Section sorted_by.
Context {A : Type} (key : A -> Z).

Lemma insert_by_perm (x : A) (l : list A) : insert_by key x l ≡ₚ x :: l.
Proof.
  induction l as [| y l IH]; [reflexivity |].
  simpl. destruct (key y <? key x); [| reflexivity].
  rewrite IH. apply Permutation_swap.
Qed.

Lemma sorted_by_perm (l : list A) : sorted_by key l ≡ₚ l.
Proof.
  induction l as [| x l IH]; [reflexivity |].
  simpl. rewrite insert_by_perm. now rewrite IH.
Qed.

Lemma insert_by_sorted (x : A) (l : list A) :
  StronglySorted (fun a b => key a <= key b) l ->
  StronglySorted (fun a b => key a <= key b) (insert_by key x l).
Proof.
  induction 1 as [| y l Hl IH Hy]; simpl; [repeat constructor |].
  destruct (Z.ltb_spec (key y) (key x)).
  - constructor; [exact IH |].
    rewrite insert_by_perm. constructor; [lia | exact Hy].
  - constructor; [constructor; assumption |].
    constructor; [lia |].
    eapply Forall_impl; [exact Hy |]. intros z Hz. cbv beta in *. lia.
Qed.

Lemma sorted_by_sorted (l : list A) :
  StronglySorted (fun a b => key a <= key b) (sorted_by key l).
Proof.
  induction l as [| x l IH]; simpl; [constructor |]. now apply insert_by_sorted.
Qed.

Lemma insert_by_stable (k : Z) (x : A) (l : list A) :
  List.filter (fun a => key a =? k) (insert_by key x l)
  = List.filter (fun a => key a =? k) (x :: l).
Proof.
  induction l as [| y l IH]; [reflexivity |].
  cbn [insert_by]. destruct (Z.ltb_spec (key y) (key x)); [| reflexivity].
  cbn [List.filter] in *. rewrite IH.
  destruct (Z.eqb_spec (key x) k), (Z.eqb_spec (key y) k); (reflexivity || lia).
Qed.

(** Elements of equal key keep the order they had. *)
Lemma sorted_by_stable (k : Z) (l : list A) :
  List.filter (fun a => key a =? k) (sorted_by key l)
  = List.filter (fun a => key a =? k) l.
Proof.
  induction l as [| x l IH]; [reflexivity |].
  cbn [sorted_by foldr]. rewrite insert_by_stable.
  cbn [List.filter]. fold (sorted_by key l). now rewrite IH.
Qed.
End sorted_by.

(** ** Unparsing at the inputs of the tests *)

(** C1. [unparse] raises on a well-formed text with an entity that starts
    inside a surrogate pair: for the one-character text U+1F3C6 (two code
    units) and a Bold entity at offset 1 of length 1, the gap before the
    entity is the first half of the pair, and decoding it raises
    [UnicodeDecodeError]. *)
Theorem unparse_raises_inside_surrogate_pair (CUSTOM_EMOJIS : bool) (isdecimal : Z -> bool) :
  unparse CUSTOM_EMOJIS isdecimal [trophy] (Some [Bold 1 1]) = Raise UnicodeDecodeError.
Proof. reflexivity. Qed.

(** C2. For "Hello, world" with Bold spans (0,5) and (7,5) the HTML
    decoration renders bold as [<b>], so [unparse] returns
    "<b>Hello</b>, <b>world</b>" and not the [<strong>] markup. *)
Theorem unparse_entity_edges (CUSTOM_EMOJIS : bool) (isdecimal : Z -> bool) :
  unparse CUSTOM_EMOJIS isdecimal (str "Hello, world") (Some [Bold 0 5; Bold 7 5])
    = Ok (str "<b>Hello</b>, <b>world</b>")
  /\ unparse CUSTOM_EMOJIS isdecimal (str "Hello, world") (Some [Bold 0 5; Bold 7 5])
    <> Ok (str "<strong>Hello</strong>, <strong>world</strong>").
Proof. split; [reflexivity | discriminate]. Qed.

(** C3, as amended. The entity TextUrl(2, 43) of the challenge text ends at
    code unit 45 of 48, inside the text, and covers exactly the words
    between the two trophies; [unparse] returns the text with these words
    wrapped in the link and everything else preserved. *)
Theorem unparse_challenge_text (CUSTOM_EMOJIS : bool) (isdecimal : Z -> bool) :
  (exists b, _add_surrogates challenge_text = Ok b
             /\ len b = 48 * 2
             /\ (MessageEntity.offset challenge_entity
                 + MessageEntity.length challenge_entity) * 2 <= len b)
  /\ MessageEntity.offset challenge_entity + MessageEntity.length challenge_entity
     <= len challenge_text
  /\ py_slice (flat_map to_utf16_units challenge_text)
       (MessageEntity.offset challenge_entity)
       (MessageEntity.offset challenge_entity + MessageEntity.length challenge_entity)
     = str "Telegram Official Android Challenge is over"
  /\ unparse CUSTOM_EMOJIS isdecimal challenge_text (Some [challenge_entity])
     = Ok challenge_markup.
Proof.
  split; [| split; [| split]]; try reflexivity.
  - eexists. split; [reflexivity |]. split; [reflexivity |]. vm_compute. discriminate.
  - vm_compute. discriminate.
Qed.

(** What clipping is: an entity that does extend past the end of the text,
    here TextUrl(2, 100), is rendered up to the end of the text. *)
Lemma unparse_clips_entity_past_the_end (CUSTOM_EMOJIS : bool) (isdecimal : Z -> bool) :
  unparse CUSTOM_EMOJIS isdecimal challenge_text
    (Some [TextUrl 2 100 (str "https://example.com")])
  = Ok ([trophy] ++ str "<a href=" ++ dquote ++ str "https://example.com" ++ dquote
          ++ str ">Telegram Official Android Challenge is over" ++ [trophy]
          ++ str ".</a>").
Proof. reflexivity. Qed.

(** C3, as stated, fails: the length of the entity does not extend past
    the end of the text. *)
Lemma challenge_entity_not_past_the_end :
  ~ ((forall b, _add_surrogates challenge_text = Ok b ->
                len b < (MessageEntity.offset challenge_entity
                         + MessageEntity.length challenge_entity) * 2)
     /\ unparse true ascii_digit challenge_text (Some [challenge_entity])
        = Ok challenge_markup).
Proof.
  intros [Hpast _]. specialize (Hpast _ eq_refl). vm_compute in Hpast. discriminate.
Qed.

(** ** Unparsing without entities *)

Lemma replace_app (s1 s2 : pystr) (old : Z) (new : pystr) :
  replace (s1 ++ s2) old new = replace s1 old new ++ replace s2 old new.
Proof.
  induction s1 as [| c s1 IH]; [reflexivity |].
  simpl. now rewrite IH, app_assoc.
Qed.

Lemma escape_app (s1 s2 : pystr) : escape (s1 ++ s2) = escape s1 ++ escape s2.
Proof. unfold escape. now rewrite !replace_app. Qed.

Lemma escape_one (c : Z) : escape [c] = escape_char c.
Proof.
  unfold escape, escape_char. cbn [replace].
  destruct (Z.eqb_spec c 38) as [-> | H38]; [reflexivity |].
  cbn [replace app].
  destruct (Z.eqb_spec c 60) as [-> | H60]; [reflexivity |].
  cbn [replace app].
  destruct (Z.eqb_spec c 62) as [-> | H62]; reflexivity.
Qed.

Lemma escape_html_quote (text : pystr) : escape text = html_quote text.
Proof.
  induction text as [| c text IH]; [reflexivity |].
  change (c :: text) with ([c] ++ text).
  rewrite escape_app, escape_one, IH. reflexivity.
Qed.

Lemma html_quote_keeps_quotes :
  html_quote (str "'") = str "'" /\ html_quote dquote = dquote.
Proof. split; reflexivity. Qed.

Lemma encode_units_strict (text : pystr) :
  Forall is_scalar_value text ->
  encode_units strict text = Ok (flat_map to_utf16_units text).
Proof.
  induction 1 as [| c text [Hc Hns] _ IH]; [reflexivity |].
  simpl. rewrite IH, code_units_to_utf16.
  replace (is_surrogate c) with false; [reflexivity |].
  symmetry. unfold is_surrogate.
  destruct (Z.leb_spec 0xD800 c), (Z.leb_spec c 0xDFFF); simpl; lia || reflexivity.
Qed.

Lemma _remove_surrogates_add_surrogates (text : pystr) :
  Forall is_scalar_value text ->
  exists b, _add_surrogates text = Ok b
            /\ _remove_surrogates b = Ok text
            /\ (b = [] <-> text = []).
Proof.
  intros Htext. unfold _add_surrogates, encode_utf_16_le.
  rewrite encode_units_strict by exact Htext. eexists. split; [reflexivity |].
  split.
  - unfold _remove_surrogates, decode_utf_16_le, decode_utf_16_with.
    rewrite units_of_bytes_unit_bytes. now apply decode_units_to_utf16.
  - destruct text as [| c text]; [easy |]. split; [| discriminate].
    change (flat_map to_utf16_units (c :: text))
      with (to_utf16_units c ++ flat_map to_utf16_units text).
    unfold to_utf16_units at 1. destruct (0xFFFF <? c); discriminate.
Qed.

Lemma slice_index_0 (n : Z) : 0 <= n -> slice_index n 0 = 0.
Proof. intros Hn. unfold slice_index. simpl. lia. Qed.

Lemma slice_index_len (n : Z) : 0 <= n -> slice_index n n = n.
Proof.
  intros Hn. unfold slice_index. destruct (Z.ltb_spec n 0); lia.
Qed.

Lemma py_slice_all {A} (l : list A) : py_slice l 0 (len l) = l.
Proof.
  unfold py_slice. rewrite slice_index_0, slice_index_len by (unfold len; lia).
  rewrite Z.sub_0_r. unfold len. rewrite Nat2Z.id. simpl. apply firstn_all.
Qed.

Lemma unparse_no_entities (CUSTOM_EMOJIS : bool) (isdecimal : Z -> bool)
    (text : pystr) (entities : option (list entity)) :
  Forall is_scalar_value text ->
  entities = None \/ entities = Some [] ->
  unparse CUSTOM_EMOJIS isdecimal text entities = Ok (escape text).
Proof.
  intros Htext Hent.
  destruct (_remove_surrogates_add_surrogates text Htext) as (b & Hb & Hdec & Hnil).
  unfold unparse, unparse_with. rewrite Hb.
  replace (match entities with Some [] | None => [] | Some l => sorted l end)
    with (@nil entity) by (destruct Hent; subst; reflexivity).
  unfold_bind. simpl.
  destruct b as [| b0 b].
  - destruct Hnil as [Hnil _]. rewrite Hnil by reflexivity. reflexivity.
  - replace (0 <? len (b0 :: b)) with true
      by (symmetry; apply Z.ltb_lt; unfold len; simpl; lia).
    rewrite py_slice_all, Hdec. simpl. now rewrite app_nil_r.
Qed.

(** C7, as amended. For every text of Unicode scalar values, [unparse]
    with [entities] absent or empty returns the text with no decoration,
    escaped by the quote rule: ['&'], ['<'] and ['>'] are replaced and both
    quote characters are left as they are. *)
Theorem unparse_without_entities (CUSTOM_EMOJIS : bool) (isdecimal : Z -> bool)
    (text : pystr) :
  Forall is_scalar_value text ->
  unparse CUSTOM_EMOJIS isdecimal text None = Ok (html_quote text)
  /\ unparse CUSTOM_EMOJIS isdecimal text (Some []) = Ok (html_quote text)
  /\ html_quote (str "'") = str "'"
  /\ html_quote dquote = dquote.
Proof.
  intros Htext. rewrite <- escape_html_quote.
  split; [apply unparse_no_entities; auto |].
  split; [apply unparse_no_entities; auto |].
  apply html_quote_keeps_quotes.
Qed.

Lemma unparse_without_entities_witness :
  unparse true ascii_digit (str "a<b & 'c' > d") None
  = Ok (str "a&lt;b &amp; 'c' &gt; d").
Proof.
  destruct (unparse_without_entities true ascii_digit (str "a<b & 'c' > d")) as [H _].
  - repeat constructor; unfold is_scalar_value; simpl; lia.
  - exact H.
Defined.

(** C7, as stated, fails for a text that holds a lone surrogate: encoding
    it to UTF-16 raises. *)
Lemma unparse_lone_surrogate_raises :
  unparse true ascii_digit [0xD800] None = Raise UnicodeEncodeError
  /\ unparse true ascii_digit [0xD800] None <> Ok (html_quote [0xD800]).
Proof. split; [reflexivity | discriminate]. Qed.

(** ** The skip rule of the rendering loop *)

Section skip_rule.
Variable CUSTOM_EMOJIS : bool.
Variable isdecimal : Z -> bool.
Context {self : TextDecoration}.

Lemma for_entities_skip_all
    (recurse : list entity -> Z -> Z -> outcome (list pystr))
    (text : bytes) (skipped rest : list entity) (offset : Z) :
  Forall (fun e => MessageEntity.offset e * 2 < offset) skipped ->
  for_entities CUSTOM_EMOJIS isdecimal recurse text (skipped ++ rest) offset
  = for_entities CUSTOM_EMOJIS isdecimal recurse text rest offset.
Proof.
  induction 1 as [| e skipped He _ IH]; [reflexivity |].
  simpl. now replace (MessageEntity.offset e * 2 <? offset) with true
    by (symmetry; apply Z.ltb_lt; exact He).
Qed.

(** C4. In the rendering loop, an entity whose start (its offset doubled)
    is strictly below the cursor is skipped: the loop yields the same
    fragments and ends at the same cursor as it does without that entity,
    so the entity adds no decoration and no text and does not move the
    cursor; the same holds for the whole call that starts at this cursor. *)
Theorem skip_entity_before_cursor
    (recurse : list entity -> Z -> Z -> outcome (list pystr))
    (text : bytes) (e : entity) (rest : list entity) (offset : Z) :
  MessageEntity.offset e * 2 < offset ->
  for_entities CUSTOM_EMOJIS isdecimal recurse text (e :: rest) offset
  = for_entities CUSTOM_EMOJIS isdecimal recurse text rest offset
  /\ forall fuel length,
      _unparse_entities CUSTOM_EMOJIS isdecimal fuel text (e :: rest)
        (Some offset) length
      = _unparse_entities CUSTOM_EMOJIS isdecimal fuel text rest
          (Some offset) length.
Proof.
  intros Hbefore.
  assert (Hloop : forall recurse,
    for_entities CUSTOM_EMOJIS isdecimal recurse text (e :: rest) offset
    = for_entities CUSTOM_EMOJIS isdecimal recurse text rest offset).
  { intros r. apply (for_entities_skip_all r text [e] rest offset).
    constructor; [exact Hbefore | constructor]. }
  split; [apply Hloop |].
  intros [| fuel] length; [reflexivity |].
  cbn [_unparse_entities]. now rewrite Hloop.
Qed.
End skip_rule.

(** In "abc", with the cursor at byte 4 (after "ab"), Bold(1,1) starts
    before the cursor and is skipped. *)
Lemma skip_entity_before_cursor_witness :
  _unparse_entities true ascii_digit 3 [97; 0; 98; 0; 99; 0] [Bold 1 1; Bold 2 1]
    (Some 4) None
  = Ok [str "<b>c</b>"].
Proof.
  destruct (skip_entity_before_cursor true ascii_digit (self := HtmlDecoration)
              (fun _ _ _ => Ok []) [97; 0; 98; 0; 99; 0] (Bold 1 1) [Bold 2 1] 4)
    as [_ H].
  - simpl. lia.
  - rewrite H. reflexivity.
Defined.

(** ** The recursion of [_unparse_entities] is bounded by the list *)

Section fuel.
Variable CUSTOM_EMOJIS : bool.
Variable isdecimal : Z -> bool.
Context {self : TextDecoration}.

Lemma length_filter_le {A} (p : A -> bool) (l : list A) :
  (length (List.filter p l) <= length l)%nat.
Proof.
  induction l as [| x l IH]; simpl; [lia |]. destruct (p x); simpl; lia.
Qed.

Lemma for_entities_ext
    (r1 r2 : list entity -> Z -> Z -> outcome (list pystr))
    (text : bytes) (entities : list entity) (offset : Z) :
  (forall sub start stop, (length sub < length entities)%nat ->
     r1 sub start stop = r2 sub start stop) ->
  for_entities CUSTOM_EMOJIS isdecimal r1 text entities offset
  = for_entities CUSTOM_EMOJIS isdecimal r2 text entities offset.
Proof.
  revert offset. induction entities as [| e rest IH]; intros offset Hr; [reflexivity |].
  simpl.
  assert (Hrest : forall offset,
    for_entities CUSTOM_EMOJIS isdecimal r1 text rest offset
    = for_entities CUSTOM_EMOJIS isdecimal r2 text rest offset).
  { intros o. apply IH. intros sub start stop Hsub. apply Hr. simpl. lia. }
  destruct (_ <? offset); [apply Hrest |].
  unfold_bind.
  destruct (if _ >? offset then _ else _) as [gap |]; [| reflexivity].
  rewrite (Hr (List.filter _ rest))
    by (simpl; pose proof (length_filter_le
          (fun e0 => MessageEntity.offset e0 * 2
                     <? int_or (MessageEntity.offset e * 2
                                + MessageEntity.length e * 2) 0) rest); lia).
  destruct (r2 _ _ _) as [inner |]; [| reflexivity].
  now rewrite Hrest.
Qed.

Lemma _unparse_entities_fuel (fuel1 fuel2 : nat) (text : bytes)
    (entities : list entity) (offset length : option Z) :
  (List.length entities < fuel1)%nat -> (List.length entities < fuel2)%nat ->
  _unparse_entities CUSTOM_EMOJIS isdecimal fuel1 text entities offset length
  = _unparse_entities CUSTOM_EMOJIS isdecimal fuel2 text entities offset length.
Proof.
  revert fuel2 entities offset length.
  induction fuel1 as [| fuel1 IH]; intros fuel2 entities offset length H1 H2; [lia |].
  destruct fuel2 as [| fuel2]; [lia |].
  cbn [_unparse_entities].
  rewrite (for_entities_ext _
             (fun sub start stop =>
                _unparse_entities CUSTOM_EMOJIS isdecimal fuel2 text sub
                  (Some start) (Some stop))); [reflexivity |].
  intros sub start stop Hsub. apply IH; lia.
Qed.
End fuel.

(** ** The only errors of [unparse] are those of the codecs *)

Lemma pair_induction {A} (P : list A -> Prop) :
  P [] -> (forall x, P [x]) -> (forall x y l, P l -> P (x :: y :: l)) ->
  forall l, P l.
Proof.
  intros Hnil Hone Hstep.
  fix IH 1. intros [| x [| y l]]; [exact Hnil | apply Hone |].
  apply Hstep, IH.
Qed.

Lemma units_of_bytes_error (o : byteorder) (b : bytes) (e : exn) :
  units_of_bytes o b = Raise e -> e = UnicodeDecodeError.
Proof.
  revert e. induction b as [| x | x y b IH] using pair_induction; intros e; simpl.
  - discriminate.
  - congruence.
  - unfold_bind. destruct (units_of_bytes o b); [discriminate |].
    intros [= <-]. now apply IH.
Qed.

Lemma decode_units_error (us : list Z) (e : exn) :
  decode_units us = Raise e -> e = UnicodeDecodeError.
Proof.
  remember (length us) as n eqn:Hn. revert us Hn e.
  induction n as [n IH] using lt_wf_ind. intros us Hn e.
  destruct us as [| u rest]; simpl; [discriminate |].
  destruct (is_high_surrogate u).
  - destruct rest as [| v rest']; [congruence |].
    destruct (is_low_surrogate v); [| congruence].
    unfold_bind. destruct (decode_units rest') eqn:Hrest; [discriminate |].
    intros [= <-]. eapply (IH (length rest')); [simpl in Hn; lia | reflexivity | exact Hrest].
  - destruct (is_low_surrogate u); [congruence |].
    unfold_bind. destruct (decode_units rest) eqn:Hrest; [discriminate |].
    intros [= <-]. eapply (IH (length rest)); [simpl in Hn; lia | reflexivity | exact Hrest].
Qed.

Lemma _remove_surrogates_error (b : bytes) (e : exn) :
  _remove_surrogates b = Raise e -> e = UnicodeDecodeError.
Proof.
  unfold _remove_surrogates, decode_utf_16_le, decode_utf_16_with. unfold_bind.
  destruct (units_of_bytes LittleEndian b) eqn:Hu.
  - apply decode_units_error.
  - intros [= <-]. eapply units_of_bytes_error, Hu.
Qed.

Lemma encode_units_error (errs : errors) (s : pystr) (e : exn) :
  encode_units errs s = Raise e -> e = UnicodeEncodeError.
Proof.
  revert e. induction s as [| c s IH]; intros e; simpl; [discriminate |].
  unfold_bind.
  destruct errs, (is_surrogate c); try congruence;
    (destruct (encode_units _ s); [discriminate | intros [= <-]; now apply IH]).
Qed.

Section errors.
Variable CUSTOM_EMOJIS : bool.
Variable isdecimal : Z -> bool.
Context {self : TextDecoration}.

Lemma for_entities_error
    (recurse : list entity -> Z -> Z -> outcome (list pystr))
    (text : bytes) (entities : list entity) (offset : Z) (e : exn) :
  (forall sub start stop e, (length sub < length entities)%nat ->
     recurse sub start stop = Raise e -> e = UnicodeDecodeError) ->
  for_entities CUSTOM_EMOJIS isdecimal recurse text entities offset = Raise e ->
  e = UnicodeDecodeError.
Proof.
  revert offset. induction entities as [| x rest IH]; intros offset Hrec;
    [discriminate |].
  assert (Hrest : forall offset,
    for_entities CUSTOM_EMOJIS isdecimal recurse text rest offset = Raise e ->
    e = UnicodeDecodeError).
  { intros o. apply IH. intros sub start stop ex Hsub. apply Hrec. simpl. lia. }
  simpl. destruct (_ <? offset); [apply Hrest |].
  unfold_bind.
  destruct (if _ >? offset then _ else _) as [gap |] eqn:Hgap.
  - destruct (recurse _ _ _) as [inner |] eqn:Hinner.
    + destruct (for_entities _ _ _ _ rest _) as [r |] eqn:Hloop; [discriminate |].
      intros [= <-]. eapply Hrest, Hloop.
    + intros [= <-]. eapply Hrec; [| exact Hinner].
      simpl. pose proof (length_filter_le
        (fun e0 => MessageEntity.offset e0 * 2
                   <? int_or (MessageEntity.offset x * 2 + MessageEntity.length x * 2) 0)
        rest). lia.
  - intros [= <-]. destruct (_ >? offset); [| discriminate].
    destruct (_remove_surrogates _) eqn:Hdec; [discriminate |].
    injection Hgap as <-. eapply _remove_surrogates_error, Hdec.
Qed.

Lemma _unparse_entities_error (fuel : nat) (text : bytes) (entities : list entity)
    (offset length : option Z) (e : exn) :
  (List.length entities < fuel)%nat ->
  _unparse_entities CUSTOM_EMOJIS isdecimal fuel text entities offset length = Raise e ->
  e = UnicodeDecodeError.
Proof.
  revert entities offset length e.
  induction fuel as [| fuel IH]; intros entities offset length e Hfuel; [lia |].
  cbn [_unparse_entities]. unfold_bind.
  destruct (for_entities _ _ _ _ entities _) as [r |] eqn:Hloop.
  - destruct (r.2 <? _); [| discriminate].
    destruct (_remove_surrogates _) eqn:Hdec; [discriminate |].
    intros [= <-]. eapply _remove_surrogates_error, Hdec.
  - intros [= <-]. eapply for_entities_error; [| exact Hloop].
    intros sub start stop ex Hsub. apply IH. lia.
Qed.

(** [unparse] raises nothing but the errors of the UTF-16 codecs; in
    particular the recursion never runs out of depth in the model. *)
Lemma unparse_with_error (text : pystr) (entities : option (list entity)) (e : exn) :
  unparse_with CUSTOM_EMOJIS isdecimal text entities = Raise e ->
  e = UnicodeEncodeError \/ e = UnicodeDecodeError.
Proof.
  unfold unparse_with, _add_surrogates, encode_utf_16_le. unfold_bind.
  destruct (encode_units strict text) eqn:Henc.
  - destruct (_unparse_entities _ _ _ _ _ _ _) eqn:Hrun; [discriminate |].
    intros [= <-]. right. eapply _unparse_entities_error; [| exact Hrun]. lia.
  - intros [= <-]. left. eapply encode_units_error, Henc.
Qed.
End errors.

(** ** Where [unparse] returns *)

Lemma utf16_length_app (t1 t2 : pystr) :
  utf16_length (t1 ++ t2) = utf16_length t1 + utf16_length t2.
Proof.
  unfold utf16_length, len. rewrite flat_map_app, length_app. lia.
Qed.

Lemma utf16_length_nonneg (t : pystr) : 0 <= utf16_length t.
Proof. unfold utf16_length, len. lia. Qed.

Lemma utf16_length_0 (t : pystr) : utf16_length t = 0 -> t = [].
Proof.
  destruct t as [| c t]; [reflexivity |].
  unfold utf16_length, len. simpl. rewrite length_app.
  unfold to_utf16_units. destruct (0xFFFF <? c); simpl; lia.
Qed.

Lemma drop_unit_bytes (o : byteorder) (us : list Z) (j : nat) :
  drop (2 * j) (concat (map (unit_bytes o) us))
  = concat (map (unit_bytes o) (drop j us)).
Proof.
  revert j. induction us as [| u us IH]; intros [| j]; try reflexivity.
  replace (2 * S j)%nat with (S (S (2 * j))) by lia.
  destruct o; simpl; apply IH.
Qed.

Lemma take_unit_bytes (o : byteorder) (us : list Z) (k : nat) :
  take (2 * k) (concat (map (unit_bytes o) us))
  = concat (map (unit_bytes o) (take k us)).
Proof.
  revert k. induction us as [| u us IH]; intros [| k]; try reflexivity.
  replace (2 * S k)%nat with (S (S (2 * k))) by lia.
  destruct o; simpl; do 2 f_equal; apply IH.
Qed.

Lemma len_unit_bytes (o : byteorder) (us : list Z) :
  len (concat (map (unit_bytes o) us)) = 2 * len us.
Proof.
  unfold len. induction us as [| u us IH]; [reflexivity |].
  destruct o; simpl in *; lia.
Qed.

Lemma py_slice_unit_bytes (o : byteorder) (us : list Z) (u v : Z) :
  0 <= u -> 0 <= v ->
  py_slice (concat (map (unit_bytes o) us)) (2 * u) (2 * v)
  = concat (map (unit_bytes o) (py_slice us u v)).
Proof.
  intros Hu Hv. unfold py_slice. rewrite len_unit_bytes.
  assert (Hidx : forall i, 0 <= i ->
            slice_index (2 * len us) (2 * i) = 2 * slice_index (len us) i).
  { intros i Hi. unfold slice_index.
    destruct (Z.ltb_spec (2 * i) 0), (Z.ltb_spec i 0); lia. }
  rewrite !Hidx by assumption.
  assert (Hpos : forall i, 0 <= i -> 0 <= slice_index (len us) i).
  { intros i Hi. unfold slice_index, len. destruct (Z.ltb_spec i 0); lia. }
  pose proof (Hpos u Hu). 
  replace (Z.to_nat (2 * slice_index (len us) u))
    with (2 * Z.to_nat (slice_index (len us) u))%nat by lia.
  replace (Z.to_nat (2 * slice_index (len us) v - 2 * slice_index (len us) u))
    with (2 * Z.to_nat (slice_index (len us) v - slice_index (len us) u))%nat by lia.
  now rewrite drop_unit_bytes, take_unit_bytes.
Qed.




Lemma Forall_list_filter {A} (P : A -> Prop) (f : A -> bool) (l : list A) :
  Forall P l -> Forall P (List.filter f l).
Proof.
  induction 1 as [| x l Hx _ IH]; simpl; [constructor |].
  destruct (f x); [constructor |]; assumption.
Qed.

Section returns.
Variable CUSTOM_EMOJIS : bool.
Variable isdecimal : Z -> bool.
Context {self : TextDecoration}.
Variable text : pystr.
Hypothesis Htext : Forall is_scalar_value text.








End returns.

(** ** Properties of the parser *)

Lemma same_span_refl (b : entity) : same_span b b.
Proof. now split. Qed.

Lemma same_span_trans (a b c : entity) : same_span a b -> same_span b c -> same_span a c.
Proof. intros [? ?] [? ?]. split; congruence. Qed.

Lemma builders_kept_refl (s : P.t) : builders_kept s s.
Proof.
  repeat split. intros t. destruct (P._building_entities s !! t); constructor.
  apply same_span_refl.
Qed.

Lemma builders_kept_trans (s1 s2 s3 : P.t) :
  builders_kept s1 s2 -> builders_kept s2 s3 -> builders_kept s1 s3.
Proof.
  intros (Ht & He & Hb) (Ht' & He' & Hb'). repeat split; try congruence.
  intros t. specialize (Hb t). specialize (Hb' t).
  destruct Hb as [x y Hxy |]; inversion Hb' as [y' z Hyz |]; subst; constructor.
  eapply same_span_trans; eassumption.
Qed.

Lemma keeps_ret {A} (a : A) : keeps_builders (ret a).
Proof. intros s. apply builders_kept_refl. Qed.

Lemma keeps_raise {A} (e : exn) : keeps_builders (raise (A := A) e).
Proof. intros s. apply builders_kept_refl. Qed.

Lemma keeps_lift {A} (o : outcome A) : keeps_builders (lift o).
Proof. intros s. apply builders_kept_refl. Qed.

Lemma keeps_bind {A B} (m : M A) (k : A -> M B) :
  keeps_builders m -> (forall a, keeps_builders (k a)) -> keeps_builders (bind m k).
Proof.
  intros Hm Hk s. unfold bind. specialize (Hm s).
  destruct (m s) as [[a | e] s1]; simpl in *; [| exact Hm].
  eapply builders_kept_trans; [exact Hm | apply Hk].
Qed.

Lemma keeps_open_tags_appendleft (tag : pystr) : keeps_builders (open_tags_appendleft tag).
Proof. intros s. apply (builders_kept_refl s). Qed.

Lemma keeps_open_tags_meta_appendleft (meta : option pystr) :
  keeps_builders (open_tags_meta_appendleft meta).
Proof. intros s. apply (builders_kept_refl s). Qed.

Lemma keeps_open_tags_meta_popleft : keeps_builders open_tags_meta_popleft.
Proof.
  intros s. unfold open_tags_meta_popleft.
  destruct (P._open_tags_meta s); apply (builders_kept_refl s).
Qed.

Lemma same_span_set_language (value : pystr) (b : entity) :
  same_span b (set_language value b).
Proof. unfold set_language. destruct (MessageEntity.type b); now split. Qed.

Lemma keeps_starttag_code (attrs : gmap (list Z) (option (list Z))) :
  keeps_builders (starttag_code attrs).
Proof.
  intros s. unfold starttag_code, bind, get.
  destruct (P._building_entities s !! str "pre") as [pre |] eqn:Hpre;
    [| apply builders_kept_refl].
  destruct (attrs !! str "class") as [[class |] |]; try apply builders_kept_refl.
  unfold builders_kept, modify, ret.
  cbn [snd fst set_building_entities P.text P.entities P._building_entities].
  split; [reflexivity |]. split; [reflexivity |]. intros t.
  destruct (decide (t = str "pre")) as [-> | Hne].
  - rewrite Hpre, lookup_insert_eq. constructor. apply same_span_set_language.
  - rewrite lookup_insert_ne by congruence.
    destruct (P._building_entities s !! t); constructor. apply same_span_refl.
Qed.

Lemma keeps_starttag_a (attrs : gmap (list Z) (option (list Z))) (starttag_text : pystr) :
  keeps_builders (starttag_a attrs starttag_text).
Proof.
  unfold starttag_a.
  destruct (attrs !! str "href") as [[url |] |];
    [| apply keeps_raise | apply keeps_ret].
  apply keeps_bind.
  - destruct (startswith url (str "mailto:")); [apply keeps_ret |].
    destruct (bool_decide (starttag_text = url)); [apply keeps_ret |].
    apply keeps_bind; [apply keeps_lift | intros; apply keeps_ret].
  - intros r. apply keeps_bind; [apply keeps_open_tags_meta_popleft |].
    intros _. apply keeps_bind; [apply keeps_open_tags_meta_appendleft |].
    intros _. apply keeps_ret.
Qed.

Lemma keeps_starttag_emoji (int : pystr -> option Z)
    (attrs : gmap (list Z) (option (list Z))) :
  keeps_builders (starttag_emoji int attrs).
Proof.
  unfold starttag_emoji.
  destruct (attrs !! str "document_id") as [[value |] |]; try apply keeps_raise.
  destruct (int value); [apply keeps_ret | apply keeps_raise].
Qed.

Lemma builders_kept_dom (s s' : P.t) :
  builders_kept s s' -> dom (P._building_entities s') = dom (P._building_entities s).
Proof.
  intros (_ & _ & Hb). apply set_eq. intros t. rewrite !elem_of_dom.
  specialize (Hb t). destruct Hb; split; intros [? ?]; (discriminate || eauto).
Qed.

(** C8. When a start tag arrives whose tag name has an open builder, the
    handler, whether it returns or raises, creates no builder and no
    entity: the set of tag names with an open builder is the same, the
    result list and the text are the same, and every open builder, the one
    of this tag name included, has the offset and the length it had.  (The
    builders are a map from tag names, so there is never more than one per
    tag name.) *)
Theorem reopened_tag_is_ignored (CUSTOM_EMOJIS : bool) (int : pystr -> option Z)
    (tag : pystr) (attrs : list (list Z * option (list Z))) (starttag_text : pystr)
    (s : P.t) (builder : entity) :
  P._building_entities s !! tag = Some builder ->
  let s' := (handle_starttag CUSTOM_EMOJIS int tag attrs starttag_text s).2 in
  (exists builder', P._building_entities s' !! tag = Some builder'
                    /\ same_span builder builder')
  /\ dom (P._building_entities s') = dom (P._building_entities s)
  /\ size (P._building_entities s') = size (P._building_entities s)
  /\ P.entities s' = P.entities s
  /\ P.text s' = P.text s
  /\ forall t b, P._building_entities s !! t = Some b ->
       exists b', P._building_entities s' !! t = Some b' /\ same_span b b'.
Proof.
  intros Hopen s'.
  assert (Hkept : builders_kept s s').
  { subst s'. unfold handle_starttag.
    set (chain := if tag_in tag [str "strong"; str "b"] then _ else _).
    assert (Hchain : keeps_builders chain).
    { subst chain.
      repeat match goal with
             | |- keeps_builders (if ?c then _ else _) => destruct c
             end;
        auto using @keeps_ret, keeps_starttag_code, keeps_starttag_a,
          keeps_starttag_emoji. }
    clearbody chain.
    unfold bind at 1 2. simpl.
    set (s0 := set_open_tags_meta _ _).
    assert (H0 : builders_kept s s0) by apply (builders_kept_refl s).
    unfold bind. specialize (Hchain s0).
    destruct (chain s0) as [[f | e] s1]; simpl in *;
      [| eapply builders_kept_trans; eassumption].
    assert (H1 : builders_kept s s1) by (eapply builders_kept_trans; eassumption).
    destruct f as [| [EntityType |]]; try exact H1.
    unfold get. destruct H1 as (Ht & He & Hb).
    pose proof (Hb tag) as Htag. rewrite Hopen in Htag.
    inversion Htag as [x y Hxy Hx Hy |]. simpl.
    repeat split; assumption. }
  pose proof (builders_kept_dom _ _ Hkept) as Hdom.
  destruct Hkept as (Ht & He & Hb).
  assert (Hall : forall t b, P._building_entities s !! t = Some b ->
            exists b', P._building_entities s' !! t = Some b' /\ same_span b b').
  { intros t b Htb. specialize (Hb t). rewrite Htb in Hb.
    inversion Hb as [x y Hxy Hx Hy |]. eauto. }
  split; [eauto |]. split; [exact Hdom |].
  split; [now rewrite <- !size_dom, Hdom |].
  repeat split; assumption.
Qed.

Lemma reopened_tag_is_ignored_witness :
  dom (P._building_entities
         (handle_starttag true (fun _ => None) (str "b") [] (str "<b>") after_b_x).2)
  = dom (P._building_entities after_b_x)
  /\ P.entities (handle_starttag true (fun _ => None) (str "b") [] (str "<b>") after_b_x).2
     = [].
Proof.
  destruct (reopened_tag_is_ignored true (fun _ => None) (str "b") [] (str "<b>")
              after_b_x (Bold 0 1)) as (_ & Hdom & _ & Hent & _).
  - reflexivity.
  - split; [exact Hdom | exact Hent].
Defined.

Lemma handle_endtag_returns (tag : pystr) (s : P.t) :
  exists s', handle_endtag tag s = (Ok tt, s') /\ P.text s' = P.text s.
Proof.
  destruct s as [text entities building tags metas].
  destruct tags as [| t tags], metas as [| m metas];
    cbv beta iota zeta delta
      [handle_endtag bind try_except open_tags_popleft
       open_tags_meta_popleft get modify ret
       P._open_tags P._open_tags_meta P._building_entities P.text P.entities
       set_open_tags set_open_tags_meta set_building_entities set_entities];
    try (destruct (decide (IndexError = IndexError)) as [_ | Hne];
         [| contradiction]);
    destruct (building !! tag) as [e |];
    eexists; split; reflexivity.
Qed.

(** C9. [handle_endtag] never raises, whatever the state: with an empty
    stack of open tags it returns and leaves both stacks empty or as they
    were; for a tag name without an open builder it appends nothing and
    leaves the builders as they were; in every case the text is unchanged
    and the entities closed before are still there, in order, followed only
    by the builder this tag closes. *)
Theorem handle_endtag_tolerates_malformed_nesting (tag : pystr) (s : P.t) :
  exists s',
    handle_endtag tag s = (Ok tt, s')
    /\ P.text s' = P.text s
    /\ P.entities s' = P.entities s ++ closed_by tag s
    /\ (P._open_tags s = [] ->
        P._open_tags s' = [] /\ P._open_tags_meta s' = P._open_tags_meta s)
    /\ (P._building_entities s !! tag = None ->
        P.entities s' = P.entities s
        /\ P._building_entities s' = P._building_entities s).
Proof.
  destruct s as [text entities building tags metas].
  destruct tags as [| t tags], metas as [| m metas];
    cbv beta iota zeta delta
      [handle_endtag closed_by bind try_except open_tags_popleft
       open_tags_meta_popleft get modify ret
       P._open_tags P._open_tags_meta P._building_entities P.text P.entities
       set_open_tags set_open_tags_meta set_building_entities set_entities];
    try (destruct (decide (IndexError = IndexError)) as [_ | Hne];
         [| contradiction]);
    destruct (building !! tag) as [e |] eqn:Hlookup;
    eexists; (split; [reflexivity |]);
    repeat split; try discriminate; try reflexivity;
    try (now rewrite app_nil_r); try (now apply delete_id).
Qed.

(** Any run of end tags, matched or not, is handled without an error and
    leaves the text as it is. *)
Lemma end_tags_never_raise (CUSTOM_EMOJIS : bool) (int : pystr -> option Z)
    (tags : list (list Z)) (s : P.t) :
  exists s', handle_all CUSTOM_EMOJIS int (map EndTag tags) s = (Ok tt, s')
             /\ P.text s' = P.text s.
Proof.
  revert s. induction tags as [| tag tags IH]; intros s.
  - exists s. split; reflexivity.
  - destruct (handle_endtag_returns tag s) as (s1 & Hrun & Htext).
    destruct (IH s1) as (s2 & Hrest & Htext2).
    exists s2. split; [| congruence].
    cbn [map handle_all handle]. unfold bind. now rewrite Hrun.
Qed.

(** The handlers on the events of [<strong>X</strong><em>Settings</em>],
    X being U+2699 U+FE0F, as in [test_entities_together]. *)
Lemma handlers_on_entities_together (CUSTOM_EMOJIS : bool) (int : pystr -> option Z) :
  exists s,
    handle_all CUSTOM_EMOJIS int
      [StartTag (str "strong") [] (str "<strong>"); Data [0x2699; 0xFE0F];
       EndTag (str "strong");
       StartTag (str "em") [] (str "<em>"); Data (str "Settings"); EndTag (str "em")]
      P.__init__ = (Ok tt, s)
    /\ P.text s = [0x2699; 0xFE0F] ++ str "Settings"
    /\ P.entities s
       = [MessageEntity.mk MessageEntityBold 0 2; MessageEntity.mk MessageEntityItalic 2 8].
Proof. eexists. split; [vm_compute; reflexivity |]. split; reflexivity. Qed.

(** ** [parse] on a false argument *)

(** C6. For an argument that is false, that is [None] or the empty string,
    [parse] returns the pair of that argument, unchanged, and the empty
    list. *)
Theorem parse_falsy (CUSTOM_EMOJIS : bool) (int : pystr -> option Z)
    (tokenize : pystr -> list event)
    (strip_text : pystr -> list entity -> pystr * list entity)
    (html : option pystr) :
  html = None \/ html = Some [] ->
  parse CUSTOM_EMOJIS int tokenize strip_text html = Ok (html, []).
Proof. intros [-> | ->]; reflexivity. Qed.

Lemma parse_falsy_witness :
  parse true (fun _ => None) (fun data => [Data data]) (fun text entities => (text, entities))
    (Some [])
  = Ok (Some [], []).
Proof.
  apply (parse_falsy true (fun _ => None) (fun data => [Data data])
           (fun text entities => (text, entities)) (Some [])).
  right. reflexivity.
Defined.

(** ** [unparse] only adds objects to the heap *)

Lemma extends_ret {A} (a : A) : extends (ret a).
Proof. intros h. reflexivity. Qed.

Lemma extends_raise {A} (e : exn) : extends (raise (A := A) e).
Proof. intros h. reflexivity. Qed.

Lemma extends_lift {A} (o : outcome A) : extends (lift o).
Proof. intros h. reflexivity. Qed.

Lemma extends_bind {A B} (m : H A) (k : A -> H B) :
  extends m -> (forall a, extends (k a)) -> extends (bind m k).
Proof.
  intros Hm Hk h. unfold bind. specialize (Hm h).
  destruct (m h) as [[a | e] h1]; simpl in *; [| exact Hm].
  etrans; [exact Hm | apply Hk].
Qed.

Lemma fresh_not_allocated (h : gmap positive object) : h !! fresh (dom h) = None.
Proof. apply not_elem_of_dom. apply is_fresh. Qed.

Lemma extends_alloc (o : object) : extends (alloc o).
Proof.
  intros h. unfold alloc. simpl. apply insert_subseteq, fresh_not_allocated.
Qed.

Lemma extends_read_list (l : loc) : extends (read_list l).
Proof.
  intros h. unfold read_list. destruct (h !! l) as [[items | e] |]; reflexivity.
Qed.

Lemma extends_read_entity (l : loc) : extends (read_entity l).
Proof.
  intros h. unfold read_entity. destruct (h !! l) as [[items | e] |]; reflexivity.
Qed.

Lemma extends_read_entities (items : list loc) : extends (read_entities items).
Proof.
  induction items as [| l items IH]; [apply extends_ret |].
  simpl. apply extends_bind; [apply extends_read_entity |].
  intros e. apply extends_bind; [exact IH |]. intros es. apply extends_ret.
Qed.

Lemma extends_sorted_h (entities : loc) : extends (sorted_h entities).
Proof.
  unfold sorted_h. apply extends_bind; [apply extends_read_list |].
  intros items. apply extends_bind; [apply extends_read_entities |].
  intros es. apply extends_alloc.
Qed.

Lemma extends_list_filter_h (test : entity -> bool) (entities : loc) :
  extends (list_filter_h test entities).
Proof.
  unfold list_filter_h. apply extends_bind; [apply extends_read_list |].
  intros items. apply extends_bind; [apply extends_read_entities |].
  intros es. apply extends_alloc.
Qed.

Section frame.
Variable CUSTOM_EMOJIS : bool.
Variable isdecimal : Z -> bool.
Context {self : TextDecoration}.

Lemma extends_for_entities_h (recurse : loc -> Z -> Z -> H (list pystr))
    (text : bytes) (entities : list loc) (offset : Z) :
  (forall sub start stop, extends (recurse sub start stop)) ->
  extends (for_entities_h CUSTOM_EMOJIS isdecimal recurse text entities offset).
Proof.
  intros Hrec. revert offset.
  induction entities as [| l rest IH]; intros offset; [apply extends_ret |].
  simpl. apply extends_bind; [apply extends_read_entity |].
  intros e. destruct (_ <? offset); [apply IH |].
  apply extends_bind; [apply extends_lift |]. intros gap.
  apply extends_bind; [apply extends_alloc |]. intros tail.
  apply extends_bind; [apply extends_list_filter_h |]. intros sub.
  apply extends_bind; [apply Hrec |]. intros inner.
  apply extends_bind; [apply IH |]. intros r. apply extends_ret.
Qed.

Lemma extends__unparse_entities_h (fuel : nat) (text : bytes) (entities : loc)
    (offset length : option Z) :
  extends (_unparse_entities_h CUSTOM_EMOJIS isdecimal fuel text entities offset length).
Proof.
  revert entities offset length.
  induction fuel as [| fuel IH]; intros entities offset length;
    [apply extends_raise |].
  cbn [_unparse_entities_h].
  apply extends_bind; [apply extends_read_list |]. intros items.
  apply extends_bind.
  - apply extends_for_entities_h. intros sub start stop. apply IH.
  - intros r. apply extends_bind; [apply extends_lift |].
    intros last. apply extends_ret.
Qed.

Lemma extends_unparse_h (text : pystr) (entities : option loc) :
  extends (unparse_h CUSTOM_EMOJIS isdecimal text entities).
Proof.
  unfold unparse_h. apply extends_bind; [apply extends_lift |]. intros b.
  apply extends_bind.
  - destruct entities as [l |]; [| apply extends_alloc].
    apply extends_bind; [apply extends_read_list |].
    intros [| i items]; [apply extends_alloc | apply extends_sorted_h].
  - intros es. apply extends_bind; [apply extends_read_list |]. intros items.
    apply extends_bind; [apply extends__unparse_entities_h |].
    intros parts. apply extends_ret.
Qed.

(** C10. [unparse] has no effect on its inputs: every object that exists
    before the call, so the list [entities] with its elements in their
    order and every entity with all of its fields, is the same object with
    the same contents after the call, whether the call returns or raises.
    (The text is a string, which has no state to change.) *)
Theorem unparse_leaves_inputs_unchanged (text : pystr) (entities : option loc)
    (h : gmap positive object) (l : loc) (o : object) :
  h !! l = Some o ->
  (unparse_h CUSTOM_EMOJIS isdecimal text entities h).2 !! l = Some o.
Proof.
  intros Hl. eapply lookup_weaken; [exact Hl | apply extends_unparse_h].
Qed.
End frame.

Lemma unparse_leaves_inputs_unchanged_witness :
  (unparse_h true ascii_digit (self := HtmlDecoration) (str "Hello, world")
     (Some 1%positive) caller_heap).2 !! 1%positive
  = Some (ListObject [3%positive; 2%positive]).
Proof.
  apply (unparse_leaves_inputs_unchanged true ascii_digit (self := HtmlDecoration)
           (str "Hello, world") (Some 1%positive) caller_heap 1%positive).
  reflexivity.
Defined.

(** ** The heap version renders what the functional one does *)

Lemma points_to_weaken (h h' : gmap positive object) (items : list loc) (es : list entity) :
  h ⊆ h' -> points_to h items es -> points_to h' items es.
Proof.
  intros Hsub Hp. eapply Forall2_impl; [exact Hp |].
  intros l e Hl. cbv beta in *. eapply lookup_weaken; [exact Hl | exact Hsub].
Qed.

Lemma points_to_zip (h : gmap positive object) (items : list loc) (es : list entity) :
  points_to h items es ->
  paired h (zip es items) /\ map fst (zip es items) = es /\ map snd (zip es items) = items.
Proof.
  induction 1 as [| l e items es Hl _ (IH1 & IH2 & IH3)]; simpl.
  - repeat split. constructor.
  - split; [constructor; assumption |]. split; congruence.
Qed.

Lemma paired_points_to (h : gmap positive object) (ps : list (entity * positive)) :
  paired h ps -> points_to h (map snd ps) (map fst ps).
Proof. induction 1; simpl; constructor; assumption. Qed.

Lemma paired_filter (h : gmap positive object) (f : entity * positive -> bool)
    (ps : list (entity * positive)) :
  paired h ps -> paired h (List.filter f ps).
Proof.
  induction 1 as [| p ps Hp _ IH]; simpl; [constructor |].
  destruct (f p); [constructor |]; assumption.
Qed.

Lemma paired_insert_by (h : gmap positive object) (key : entity * positive -> Z)
    (p : entity * positive) (ps : list (entity * positive)) :
  h !! p.2 = Some (EntityObject p.1) -> paired h ps -> paired h (insert_by key p ps).
Proof.
  intros Hp. induction 1 as [| q ps Hq Hps IH]; simpl.
  - repeat constructor. exact Hp.
  - destruct (key q <? key p); repeat (constructor; try assumption).
Qed.

Lemma paired_sorted_by (h : gmap positive object) (key : entity * positive -> Z)
    (ps : list (entity * positive)) :
  paired h ps -> paired h (sorted_by key ps).
Proof.
  induction 1 as [| p ps Hp _ IH]; simpl; [constructor |].
  now apply paired_insert_by.
Qed.

Lemma map_fst_filter {A B} (test : A -> bool) (ps : list (A * B)) :
  map fst (List.filter (fun p => test p.1) ps) = List.filter test (map fst ps).
Proof.
  induction ps as [| p ps IH]; [reflexivity |].
  simpl. destruct (test p.1); simpl; now rewrite IH.
Qed.

Lemma map_fst_insert_by {A B} (key : A -> Z) (p : A * B) (ps : list (A * B)) :
  map fst (insert_by (fun q => key q.1) p ps) = insert_by key p.1 (map fst ps).
Proof.
  induction ps as [| q ps IH]; [reflexivity |].
  simpl. destruct (key q.1 <? key p.1); simpl; now rewrite ?IH.
Qed.

Lemma map_fst_sorted_by {A B} (key : A -> Z) (ps : list (A * B)) :
  map fst (sorted_by (fun q => key q.1) ps) = sorted_by key (map fst ps).
Proof.
  induction ps as [| p ps IH]; [reflexivity |].
  simpl. now rewrite map_fst_insert_by, IH.
Qed.

Lemma read_entities_points_to (h : gmap positive object) (items : list loc)
    (es : list entity) :
  points_to h items es -> read_entities items h = (Ok es, h).
Proof.
  induction 1 as [| l e items es Hl _ IH]; [reflexivity |].
  simpl. unfold bind, read_entity. rewrite Hl, IH. reflexivity.
Qed.

Lemma list_filter_h_spec (test : entity -> bool) (h : gmap positive object)
    (l : loc) (items : list loc) (es : list entity) :
  h !! l = Some (ListObject items) ->
  points_to h items es ->
  exists items',
    list_filter_h test l h
    = (Ok (fresh (dom h)), <[fresh (dom h) := ListObject items']> h)
    /\ points_to h items' (List.filter test es).
Proof.
  intros Hl Hp. destruct (points_to_zip _ _ _ Hp) as (Hpaired & Hfst & Hsnd).
  eexists. split.
  - unfold list_filter_h, bind, read_list. rewrite Hl.
    rewrite (read_entities_points_to _ _ _ Hp). reflexivity.
  - rewrite <- Hfst at 2. rewrite <- map_fst_filter.
    apply paired_points_to, paired_filter, Hpaired.
Qed.

Lemma sorted_h_spec (h : gmap positive object) (l : loc) (items : list loc)
    (es : list entity) :
  h !! l = Some (ListObject items) ->
  points_to h items es ->
  exists items',
    sorted_h l h = (Ok (fresh (dom h)), <[fresh (dom h) := ListObject items']> h)
    /\ points_to h items' (sorted_by MessageEntity.offset es).
Proof.
  intros Hl Hp. destruct (points_to_zip _ _ _ Hp) as (Hpaired & Hfst & Hsnd).
  eexists. split.
  - unfold sorted_h, bind, read_list. rewrite Hl.
    rewrite (read_entities_points_to _ _ _ Hp). reflexivity.
  - rewrite <- Hfst at 2. rewrite <- map_fst_sorted_by.
    apply paired_points_to, paired_sorted_by, Hpaired.
Qed.

Section refinement.
Variable CUSTOM_EMOJIS : bool.
Variable isdecimal : Z -> bool.
Context {self : TextDecoration}.

Lemma for_entities_h_refines
    (recurse_h : loc -> Z -> Z -> H (list pystr))
    (recurse : list entity -> Z -> Z -> outcome (list pystr))
    (text : bytes) (items : list loc) (es : list entity) :
  (forall sub start stop, extends (recurse_h sub start stop)) ->
  (forall h sub subitems subes start stop,
     h !! sub = Some (ListObject subitems) -> points_to h subitems subes ->
     (recurse_h sub start stop h).1 = recurse subes start stop) ->
  forall offset h,
    points_to h items es ->
    (for_entities_h CUSTOM_EMOJIS isdecimal recurse_h text items offset h).1
    = for_entities CUSTOM_EMOJIS isdecimal recurse text es offset.
Proof.
  intros Hext Hrec. revert es.
  induction items as [| l items IH]; intros es0 offset h Hp;
    inversion Hp as [| ? e ? es Hl Hp0]; subst; [reflexivity |].
  simpl. unfold bind at 1. unfold read_entity at 1. rewrite Hl.
  destruct (_ <? offset); [now apply IH |].
  unfold bind at 1, lift at 1. unfold_bind.
  destruct (if _ >? offset then _ else _) as [gap | ex]; [| reflexivity].
  unfold bind at 1, alloc at 1. cbn [fst snd].
  set (l1 := fresh (dom h)). set (h1 := <[l1 := ListObject items]> h).
  assert (Hh1 : h ⊆ h1) by apply insert_subseteq, fresh_not_allocated.
  set (test := fun e0 : entity => _ <? int_or _ 0).
  destruct (list_filter_h_spec test h1 l1 items es) as (sub & Hrun & Hsub).
  { apply lookup_insert_eq. }
  { eapply points_to_weaken; eassumption. }
  unfold bind at 1. rewrite Hrun.
  set (l2 := fresh (dom h1)) in *. set (h2 := <[l2 := ListObject sub]> h1) in *.
  assert (Hh2 : h1 ⊆ h2) by apply insert_subseteq, fresh_not_allocated.
  unfold bind at 1.
  pose proof (Hrec h2 l2 sub (List.filter test es)
                (MessageEntity.offset e * 2)
                (MessageEntity.offset e * 2 + MessageEntity.length e * 2)) as Hinner.
  pose proof (Hext l2 (MessageEntity.offset e * 2)
                (MessageEntity.offset e * 2 + MessageEntity.length e * 2) h2) as Hh3.
  destruct (recurse_h l2 _ _ h2) as [r3 h3]. cbn [fst snd] in *.
  rewrite <- Hinner;
    [| apply lookup_insert_eq | eapply points_to_weaken; eassumption].
  destruct r3 as [inner | ex]; [| reflexivity].
  unfold bind at 1.
  specialize (IH es (MessageEntity.offset e * 2 + MessageEntity.length e * 2) h3).
  rewrite <- IH.
  - destruct (for_entities_h _ _ _ _ _ _ h3) as [[r | ex] h4]; reflexivity.
  - eapply points_to_weaken; [| exact Hp0].
    etrans; [exact Hh1 |]. etrans; [exact Hh2 |]. exact Hh3.
Qed.

Lemma _unparse_entities_h_refines (fuel : nat) (text : bytes) :
  forall (h : gmap positive object) (entities : loc) (items : list loc)
         (es : list entity) (offset length : option Z),
    h !! entities = Some (ListObject items) ->
    points_to h items es ->
    (_unparse_entities_h CUSTOM_EMOJIS isdecimal fuel text entities offset length h).1
    = _unparse_entities CUSTOM_EMOJIS isdecimal fuel text es offset length.
Proof.
  induction fuel as [| fuel IH]; intros h entities items es offset length Hl Hp;
    [reflexivity |].
  cbn [_unparse_entities_h _unparse_entities].
  unfold bind at 1, read_list at 1. rewrite Hl.
  unfold bind at 1.
  pose proof (for_entities_h_refines
                (fun sub start stop =>
                   _unparse_entities_h CUSTOM_EMOJIS isdecimal fuel text sub
                     (Some start) (Some stop))
                (fun sub start stop =>
                   _unparse_entities CUSTOM_EMOJIS isdecimal fuel text sub
                     (Some start) (Some stop))
                text items es) as Hloop.
  rewrite <- (Hloop (fun sub start stop => extends__unparse_entities_h _ _ _ _ _ _ _)
                (fun h0 sub subitems subes start stop H1 H2 =>
                   IH h0 sub subitems subes (Some start) (Some stop) H1 H2)
                _ h Hp).
  destruct (for_entities_h _ _ _ _ _ _ h) as [[r | ex] h1]; [| reflexivity].
  cbn [fst]. unfold_bind. unfold bind, lift, ret.
  destruct (if r.2 <? _ then _ else _); reflexivity.
Qed.

(** On a heap where [entities] is a list of entity objects, the heap
    version returns or raises exactly as [unparse] on their values. *)
Lemma unparse_h_refines (text : pystr) (h : gmap positive object) (l : loc)
    (items : list loc) (es : list entity) :
  h !! l = Some (ListObject items) ->
  points_to h items es ->
  (unparse_h CUSTOM_EMOJIS isdecimal text (Some l) h).1
  = unparse_with CUSTOM_EMOJIS isdecimal text (Some es).
Proof.
  intros Hl Hp. unfold unparse_h, unparse_with.
  unfold bind at 1, lift at 1.
  destruct (_add_surrogates text) as [b | ex]; [| reflexivity].
  unfold_bind. unfold bind at 1 2, read_list at 1. rewrite Hl.
  assert (Hrest : forall (h1 : gmap positive object) items' es',
    points_to h1 items' es' ->
    (let (o, s') := (Ok (fresh (dom h1)), <[fresh (dom h1) := ListObject items']> h1) in
     match o with
     | Ok a =>
         bind (read_list a)
           (fun items0 =>
              bind (_unparse_entities_h CUSTOM_EMOJIS isdecimal (S (length items0)) b a
                      None None)
                (fun parts => ret (concat parts))) s'
     | Raise e => (Raise e, s')
     end).1
    = match _unparse_entities CUSTOM_EMOJIS isdecimal (S (length es')) b es' None None with
      | Ok parts => Ok (concat parts)
      | Raise e => Raise e
      end).
  { intros h1 items' es' Hp'.
    unfold bind at 1, read_list at 1. rewrite lookup_insert_eq.
    unfold bind at 1.
    pose proof (_unparse_entities_h_refines (S (length items')) b
                  (<[fresh (dom h1) := ListObject items']> h1) (fresh (dom h1))
                  items' es' None None) as Href.
    rewrite (Forall2_length _ _ _ Hp') in Href at 2.
    rewrite <- Href;
      [| apply lookup_insert_eq
       | eapply points_to_weaken; [apply insert_subseteq, fresh_not_allocated | exact Hp']].
    destruct (_unparse_entities_h _ _ _ _ _ _ _ _) as [[parts | ex] h2]; reflexivity. }
  destruct Hp as [| i e items es Hi Hp].
  - unfold alloc. apply (Hrest h [] []). constructor.
  - destruct (sorted_h_spec h l (i :: items) (e :: es) Hl) as (items' & Hrun & Hp').
    { constructor; assumption. }
    rewrite Hrun. apply (Hrest h items' _ Hp').
Qed.
End refinement.

(** ** Rendering of well-nested entities *)

Lemma body_induction (P : body -> Prop) :
  P Done ->
  (forall gap ty content last rest,
     P content -> P rest -> P (Then gap (Span ty content last) rest)) ->
  forall b, P b.
Proof.
  intros H0 H1. fix IH 1.
  intros [| gap [ty content last] rest]; [exact H0 |].
  apply H1; apply IH.
Qed.

Lemma int_or_0 (a : Z) : int_or a 0 = a.
Proof. unfold int_or. destruct (Z.eqb_spec a 0); congruence. Qed.

Lemma utf16_length_pos (t : pystr) : t <> [] -> 0 < utf16_length t.
Proof.
  intros Ht. pose proof (utf16_length_nonneg t).
  destruct (Z.eq_dec (utf16_length t) 0) as [H0 | H0]; [| lia].
  now apply utf16_length_0 in H0.
Qed.

Lemma len_utf16_le (text : pystr) : len (utf16_le text) = 2 * utf16_length text.
Proof. apply len_unit_bytes. Qed.

(** The slice of the buffer between two character positions decodes to
    the characters between them. *)
Lemma _remove_surrogates_slice (t1 k t3 : pystr) :
  Forall is_scalar_value (t1 ++ k ++ t3) ->
  _remove_surrogates
    (py_slice (utf16_le (t1 ++ k ++ t3))
       (2 * utf16_length t1) (2 * (utf16_length t1 + utf16_length k)))
  = Ok k.
Proof.
  intros Htext. unfold utf16_le.
  pose proof (utf16_length_nonneg t1). pose proof (utf16_length_nonneg k).
  pose proof (utf16_length_nonneg t3).
  rewrite py_slice_unit_bytes by lia.
  unfold _remove_surrogates, decode_utf_16_le, decode_utf_16_with.
  rewrite units_of_bytes_unit_bytes. unfold_bind.
  apply Forall_app in Htext as [_ Htext]. apply Forall_app in Htext as [Hk _].
  unfold py_slice. fold (utf16_length (t1 ++ k ++ t3)).
  rewrite !utf16_length_app.
  assert (Hi : forall i, 0 <= i ->
            i <= utf16_length t1 + (utf16_length k + utf16_length t3) ->
            slice_index (utf16_length t1 + (utf16_length k + utf16_length t3)) i = i).
  { intros i Hi1 Hi2. unfold slice_index. destruct (Z.ltb_spec i 0); lia. }
  rewrite !Hi by lia.
  replace (utf16_length t1 + utf16_length k - utf16_length t1)
    with (utf16_length k) by lia.
  rewrite !flat_map_app. unfold utf16_length, len. rewrite !Nat2Z.id.
  rewrite drop_app_length, take_app_length.
  now apply decode_units_to_utf16.
Qed.

Lemma filter_all {A} (f : A -> bool) (l : list A) :
  Forall (fun x => f x = true) l -> List.filter f l = l.
Proof.
  induction 1 as [| x l Hx _ IH]; [reflexivity |]. simpl. now rewrite Hx, IH.
Qed.

Lemma filter_none {A} (f : A -> bool) (l : list A) :
  Forall (fun x => f x = false) l -> List.filter f l = [].
Proof.
  induction 1 as [| x l Hx _ IH]; [reflexivity |]. simpl. now rewrite Hx, IH.
Qed.

Lemma body_entities_bounds (b : body) :
  forall start,
    body_nonempty b ->
    Forall (fun e => start <= MessageEntity.offset e
                     /\ 0 < MessageEntity.length e
                     /\ MessageEntity.offset e + MessageEntity.length e
                        <= start + utf16_length (body_text b))
      (body_entities start b).
Proof.
  induction b as [| gap ty content last rest IHc IHr] using body_induction;
    intros start Hne; [constructor |].
  destruct Hne as [[Hs Hc] Hr].
  cbn [body_entities span_entities body_text span_text] in *.
  pose proof (utf16_length_nonneg gap). pose proof (utf16_length_nonneg last).
  pose proof (utf16_length_nonneg (body_text content)).
  pose proof (utf16_length_nonneg (body_text rest)).
  pose proof (utf16_length_pos _ Hs) as Hpos.
  rewrite !utf16_length_app in *.
  constructor; [cbn; lia |].
  apply Forall_app. split.
  - eapply Forall_impl; [apply (IHc _ Hc) |]. cbv beta. intros e ?. lia.
  - eapply Forall_impl; [apply (IHr _ Hr) |]. cbv beta. intros e ?. lia.
Qed.

Lemma body_entities_sorted (b : body) :
  forall start,
    body_nonempty b ->
    StronglySorted (fun a e => MessageEntity.offset a <= MessageEntity.offset e)
      (body_entities start b).
Proof.
  induction b as [| gap ty content last rest IHc IHr] using body_induction;
    intros start Hne; [constructor |].
  pose proof (body_entities_bounds _ start Hne) as Hall.
  destruct Hne as [[Hs Hc] Hr].
  cbn [body_entities span_entities] in *.
  inversion Hall as [| ? ? Hhead Htail]; subst. cbn in Hhead.
  constructor.
  - apply StronglySorted_app_2; [| now apply IHc | now apply IHr].
    intros x y Hx Hy.
    pose proof (body_entities_bounds _ (start + utf16_length gap) Hc) as Hbc.
    pose proof (body_entities_bounds _
                  (start + utf16_length gap
                   + utf16_length (span_text (Span ty content last))) Hr) as Hbr.
    rewrite Forall_forall in Hbc, Hbr.
    specialize (Hbc x Hx). specialize (Hbr y Hy).
    cbn [span_text] in *. rewrite utf16_length_app in *.
    pose proof (utf16_length_nonneg last). lia.
  - pose proof (body_entities_bounds _ (start + utf16_length gap) Hc) as Hbc.
    pose proof (body_entities_bounds _
                  (start + utf16_length gap
                   + utf16_length (span_text (Span ty content last))) Hr) as Hbr.
    pose proof (utf16_length_nonneg (span_text (Span ty content last))).
    apply Forall_app. split.
    + eapply Forall_impl; [exact Hbc |]. cbv beta. intros e ?. cbn. lia.
    + eapply Forall_impl; [exact Hbr |]. cbv beta. intros e ?. cbn. lia.
Qed.

Lemma insert_by_sorted_head {A} (key : A -> Z) (x : A) (l : list A) :
  Forall (fun y => key x <= key y) l -> insert_by key x l = x :: l.
Proof.
  intros Hl. destruct l as [| y l]; [reflexivity |].
  inversion Hl; subst. simpl. destruct (Z.ltb_spec (key y) (key x)); [lia | reflexivity].
Qed.

Lemma sorted_by_sorted_id {A} (key : A -> Z) (l : list A) :
  StronglySorted (fun a b => key a <= key b) l -> sorted_by key l = l.
Proof.
  induction 1 as [| x l Hl IH Hx]; [reflexivity |].
  cbn [sorted_by foldr]. fold (sorted_by key l). rewrite IH.
  now apply insert_by_sorted_head.
Qed.

Section rendering.
Variable CUSTOM_EMOJIS : bool.
Variable isdecimal : Z -> bool.
Context {self : TextDecoration}.

Lemma apply_entity_type_only (e e' : entity) (text : pystr) :
  MessageEntity.type e = MessageEntity.type e' ->
  apply_entity CUSTOM_EMOJIS isdecimal e text
  = apply_entity CUSTOM_EMOJIS isdecimal e' text.
Proof. intros Hty. unfold apply_entity. now rewrite Hty. Qed.

Lemma concat_fragment_if_any (t : pystr) :
  concat (fragment_if_any t) = quote_if_any t.
Proof. destruct t; [reflexivity |]. simpl. now rewrite app_nil_r. Qed.

(** The fragment for the plain text [k] between the cursor and a later
    position. *)
Lemma plain_fragment (t1 k t3 : pystr) (cursor stop : Z) :
  Forall is_scalar_value (t1 ++ k ++ t3) ->
  cursor = 2 * utf16_length t1 ->
  stop = 2 * (utf16_length t1 + utf16_length k) ->
  (if cursor <? stop
   then s ← _remove_surrogates (py_slice (utf16_le (t1 ++ k ++ t3)) cursor stop);
        Ok [quote s]
   else Ok [])
  = Ok (fragment_if_any k).
Proof.
  intros Htext -> ->. destruct k as [| c k].
  - replace (utf16_length []) with 0 by reflexivity.
    destruct (Z.ltb_spec (2 * utf16_length t1) (2 * (utf16_length t1 + 0))); [lia |].
    reflexivity.
  - pose proof (utf16_length_pos (c :: k) ltac:(discriminate)).
    destruct (Z.ltb_spec (2 * utf16_length t1)
                (2 * (utf16_length t1 + utf16_length (c :: k)))); [| lia].
    now rewrite _remove_surrogates_slice.
Qed.

(** A call whose loop ends at the end of [t1] and whose bound is the end
    of [k] yields the fragments of the loop and then [k]. *)
Lemma call_of_loop (fuel : nat) (t1 k t3 : pystr) (es : list entity)
    (offset length : option Z) (frags : list pystr) :
  Forall is_scalar_value (t1 ++ k ++ t3) ->
  for_entities CUSTOM_EMOJIS isdecimal
    (fun sub start stop =>
       _unparse_entities CUSTOM_EMOJIS isdecimal fuel (utf16_le (t1 ++ k ++ t3))
         sub (Some start) (Some stop))
    (utf16_le (t1 ++ k ++ t3)) es
    match offset with None => 0 | Some o => o end
  = Ok (frags, 2 * utf16_length t1) ->
  match length with
  | None | Some 0 => len (utf16_le (t1 ++ k ++ t3))
  | Some l => l
  end = 2 * (utf16_length t1 + utf16_length k) ->
  _unparse_entities CUSTOM_EMOJIS isdecimal (S fuel) (utf16_le (t1 ++ k ++ t3))
    es offset length
  = Ok (frags ++ fragment_if_any k).
Proof.
  intros Htext Hloop Hbound. cbn [_unparse_entities].
  rewrite Hloop. unfold_bind. cbn [fst snd]. rewrite Hbound.
  pose proof (plain_fragment t1 k t3 (2 * utf16_length t1)
                (2 * (utf16_length t1 + utf16_length k)) Htext eq_refl eq_refl) as Hk.
  unfold_bind. now rewrite Hk.
Qed.

Lemma body_loop (b : body) :
  forall (fuel : nat) (pre post : pystr),
    body_nonempty b ->
    Forall is_scalar_value (pre ++ body_text b ++ post) ->
    (List.length (body_entities (utf16_length pre) b) <= fuel)%nat ->
    exists frags,
      for_entities CUSTOM_EMOJIS isdecimal
        (fun sub start stop =>
           _unparse_entities CUSTOM_EMOJIS isdecimal fuel
             (utf16_le (pre ++ body_text b ++ post)) sub (Some start) (Some stop))
        (utf16_le (pre ++ body_text b ++ post))
        (body_entities (utf16_length pre) b) (2 * utf16_length pre)
      = Ok (frags, 2 * (utf16_length pre + utf16_length (body_text b)))
      /\ concat frags = body_markup CUSTOM_EMOJIS isdecimal b.
Proof.
  induction b as [| gap ty content last rest IHc IHr] using body_induction;
    intros fuel pre post Hne Htext Hfuel.
  - exists []. split; [| reflexivity].
    cbn. replace (utf16_length []) with 0 by reflexivity. now rewrite Z.add_0_r.
  - destruct Hne as [[Hs Hc] Hr].
    pose proof (utf16_length_nonneg pre). pose proof (utf16_length_nonneg gap).
    pose proof (utf16_length_nonneg last).
    pose proof (utf16_length_nonneg (body_text content)).
    pose proof (utf16_length_pos _ Hs) as Hpos.
    set (text := pre ++ body_text (Then gap (Span ty content last) rest) ++ post) in *.
    set (o := utf16_length pre + utf16_length gap).
    set (n := utf16_length (span_text (Span ty content last))) in *.
    (* the list: this entity, its descendants, the siblings that follow *)
    cbn [body_entities span_entities] in *. fold o n in Hfuel |- *.
    set (desc := body_entities o content) in *.
    set (sibs := body_entities (o + n) rest) in *.
    assert (Hfuel' : (S (List.length desc + List.length sibs) <= fuel)%nat).
    { cbn [app List.length] in Hfuel. rewrite length_app in Hfuel. exact Hfuel. }
    cbn [app for_entities]. cbn [MessageEntity.offset MessageEntity.length].
    destruct (Z.ltb_spec (o * 2) (2 * utf16_length pre)); [lia |].
    (* the gap *)
    assert (Hgap :
      (if o * 2 >? 2 * utf16_length pre
       then s ← _remove_surrogates
                  (py_slice (utf16_le text) (2 * utf16_length pre) (o * 2));
            Ok [quote s]
       else Ok []) = Ok (fragment_if_any gap)).
    { rewrite Z.gtb_ltb.
      assert (Htext1 : text = pre ++ gap
                              ++ ((body_text content ++ last) ++ body_text rest ++ post)).
      { subst text. cbn [body_text span_text]. now rewrite <- !app_assoc. }
      rewrite Htext1.
      apply plain_fragment; [rewrite <- Htext1; exact Htext | reflexivity | lia]. }
    rewrite Hgap. unfold_bind.
    (* the entities passed to the nested call are the descendants *)
    pose proof (body_entities_bounds _ o Hc) as Hdesc.
    pose proof (body_entities_bounds _ (o + n) Hr) as Hsibs.
    fold desc in Hdesc. fold sibs in Hsibs.
    assert (Hn : n = utf16_length (body_text content) + utf16_length last).
    { subst n. cbn [span_text]. now rewrite utf16_length_app. }
    assert (Hsub :
      List.filter
        (fun e => MessageEntity.offset e * 2 <? int_or (o * 2 + n * 2) 0)
        (desc ++ sibs) = desc).
    { rewrite List.filter_app, filter_all, filter_none; [apply app_nil_r | |].
      - eapply Forall_impl; [exact Hsibs |]. cbv beta. intros e He.
        rewrite int_or_0. apply Z.ltb_ge. lia.
      - eapply Forall_impl; [exact Hdesc |]. cbv beta. intros e He.
        rewrite int_or_0. apply Z.ltb_lt. lia. }
    rewrite Hsub.
    (* the nested call *)
    assert (Hlen : (List.length desc < fuel)%nat).
    { lia. }
    destruct fuel as [| fuel']; [lia |].
    assert (Htext' : text = (pre ++ gap) ++ body_text content
                            ++ (last ++ body_text rest ++ post)).
    { subst text. cbn [body_text span_text]. now rewrite <- !app_assoc. }
    destruct (IHc fuel' (pre ++ gap) (last ++ body_text rest ++ post) Hc)
      as (inner & Hinner & Hconcat).
    { rewrite <- Htext'. exact Htext. }
    { rewrite utf16_length_app. fold o desc. lia. }
    rewrite utf16_length_app in Hinner. fold o desc in Hinner.
    rewrite <- Htext' in Hinner.
    assert (Hcall :
      _unparse_entities CUSTOM_EMOJIS isdecimal (S fuel') (utf16_le text) desc
        (Some (o * 2)) (Some (o * 2 + n * 2))
      = Ok (inner ++ fragment_if_any last)).
    { assert (Htext2 : text = (pre ++ gap ++ body_text content) ++ last
                              ++ (body_text rest ++ post)).
      { rewrite Htext'. now rewrite <- !app_assoc. }
      rewrite Htext2.
      apply call_of_loop.
      - rewrite <- Htext2. exact Htext.
      - rewrite <- Htext2. cbn beta iota.
        replace (o * 2) with (2 * o) by lia.
        rewrite !utf16_length_app.
        replace (2 * (utf16_length pre
                      + (utf16_length gap + utf16_length (body_text content))))
          with (2 * (o + utf16_length (body_text content))) by (subst o; lia).
        (* the recursive calls inside use the smaller fuel *)
        erewrite for_entities_ext; [exact Hinner |].
        intros sub start stop Hsublen. cbv beta.
        apply _unparse_entities_fuel; lia.
      - rewrite !utf16_length_app.
        destruct (o * 2 + n * 2) as [| p | p] eqn:Hstop; lia. }
    rewrite Hcall. cbn [fst snd].
    (* the descendants are skipped, the siblings follow *)
    rewrite for_entities_skip_all
      by (eapply Forall_impl; [exact Hdesc |]; cbv beta; intros e He; lia).
    assert (Htext3 : text = (pre ++ gap ++ span_text (Span ty content last))
                            ++ body_text rest ++ post).
    { subst text. cbn [body_text span_text]. now rewrite <- !app_assoc. }
    destruct (IHr (S fuel') (pre ++ gap ++ span_text (Span ty content last)) post Hr)
      as (frags & Hfrags & Hconcat').
    { rewrite <- Htext3. exact Htext. }
    { rewrite !utf16_length_app. fold n. 
      replace (utf16_length pre + (utf16_length gap + n)) with (o + n) by (subst o; lia).
      fold sibs. lia. }
    rewrite !utf16_length_app in Hfrags. fold n in Hfrags.
    replace (utf16_length pre + (utf16_length gap + n)) with (o + n) in Hfrags
      by (subst o; lia).
    fold sibs in Hfrags. rewrite <- Htext3 in Hfrags.
    replace (o * 2 + n * 2) with (2 * (o + n)) by lia.
    rewrite Hfrags. cbn [fst snd].
    eexists. split.
    + f_equal. f_equal.
      subst text. cbn [body_text span_text]. rewrite !utf16_length_app.
      fold n. subst o. cbn [span_text] in n. subst n. rewrite utf16_length_app. lia.
    + rewrite concat_app, concat_fragment_if_any. cbn [concat].
      rewrite concat_app, concat_fragment_if_any, Hconcat, Hconcat'.
      cbn [body_markup span_markup].
      now rewrite (apply_entity_type_only _ (MessageEntity.mk ty 0 0)).
Qed.
End rendering.

Section nested.
Variable CUSTOM_EMOJIS : bool.
Variable isdecimal : Z -> bool.
Context {self : TextDecoration}.


Lemma _unparse_entities_body (b : body) (last : pystr) :
  body_nonempty b ->
  Forall is_scalar_value (body_text b ++ last) ->
  exists parts,
    _unparse_entities CUSTOM_EMOJIS isdecimal (S (List.length (body_entities 0 b)))
      (utf16_le (body_text b ++ last)) (body_entities 0 b) None None
    = Ok parts
    /\ concat parts = body_markup CUSTOM_EMOJIS isdecimal b ++ quote_if_any last.
Proof.
  intros Hne Htext.
  destruct (body_loop CUSTOM_EMOJIS isdecimal b
              (List.length (body_entities 0 b)) [] last Hne Htext)
    as (frags & Hloop & Hconcat); [reflexivity |].
  cbn [app] in Hloop.
  replace (utf16_length []) with 0 in Hloop by reflexivity.
  rewrite Z.add_0_l in Hloop.
  assert (Htext' : body_text b ++ last = body_text b ++ last ++ [])
    by now rewrite app_nil_r.
  exists (frags ++ fragment_if_any last). split.
  - rewrite Htext'. apply call_of_loop.
    + rewrite <- Htext'. exact Htext.
    + rewrite <- Htext'. exact Hloop.
    + rewrite <- Htext', len_utf16_le, utf16_length_app. reflexivity.
  - now rewrite concat_app, concat_fragment_if_any, Hconcat.
Qed.

End nested.


(** ** More on [unparse] *)


Lemma encode_units_strict_raises (text : pystr) :
  encode_units strict text = Raise UnicodeEncodeError
  <-> Exists (fun c => is_surrogate c = true) text.
Proof.
  induction text as [| c text IH]; simpl.
  - split; [discriminate | intros H; inversion H].
  - destruct (is_surrogate c) eqn:Hc.
    + split; [intros _; now left | reflexivity].
    + unfold_bind. rewrite Exists_cons.
      destruct (encode_units strict text) as [us | e] eqn:Henc.
      * split; [discriminate |]. intros [H | H]; [congruence |].
        apply IH in H. discriminate.
      * apply encode_units_error in Henc as ->.
        split; [intros _; right; now apply IH | reflexivity].
Qed.

Section more_unparse.
Variable CUSTOM_EMOJIS : bool.
Variable isdecimal : Z -> bool.
Context {self : TextDecoration}.

(** X3. [unparse] raises [UnicodeEncodeError] exactly when the text holds a
    surrogate code point, whatever the entities. *)
Theorem unparse_encode_error (text : pystr) (entities : option (list entity)) :
  unparse_with CUSTOM_EMOJIS isdecimal text entities = Raise UnicodeEncodeError
  <-> Exists (fun c => is_surrogate c = true) text.
Proof.
  rewrite <- encode_units_strict_raises.
  unfold unparse_with, _add_surrogates, encode_utf_16_le. unfold_bind.
  destruct (encode_units strict text) as [us | e] eqn:Henc.
  - split; [| discriminate].
    destruct (_unparse_entities _ _ _ _ _ _ _) eqn:Hrun; [discriminate |].
    intros [= ->]. apply _unparse_entities_error in Hrun; [discriminate | lia].
  - apply encode_units_error in Henc as ->. split; reflexivity.
Qed.

Lemma sorted_or_empty (l : list entity) :
  match l with [] => [] | _ :: _ => sorted l end = sorted l.
Proof. now destruct l. Qed.

Lemma unparse_with_sorted (text : pystr) (l : list entity) :
  unparse_with CUSTOM_EMOJIS isdecimal text (Some l)
  = (b ← _add_surrogates text;
     parts ← _unparse_entities CUSTOM_EMOJIS isdecimal (S (length (sorted l))) b
               (sorted l) None None;
     Ok (concat parts)).
Proof.
  unfold unparse_with. destruct l; reflexivity.
Qed.

Lemma same_key_same_element {A} (key : A -> Z) (l : list A) (x y : A) :
  NoDup (map key l) -> x ∈ l -> y ∈ l -> key x = key y -> x = y.
Proof.
  induction l as [| z l IH]; intros Hnd Hx Hy Hk; [inversion Hx |].
  cbn [map] in Hnd. apply NoDup_cons in Hnd as [Hz Hnd].
  apply elem_of_cons in Hx as [-> | Hx]; apply elem_of_cons in Hy as [-> | Hy];
    try reflexivity.
  - exfalso. apply Hz. rewrite Hk. apply list_elem_of_fmap. now exists y.
  - exfalso. apply Hz. rewrite <- Hk. apply list_elem_of_fmap. now exists x.
  - now apply IH.
Qed.

Lemma sorted_by_permutation {A} (key : A -> Z) (l l' : list A) :
  l ≡ₚ l' -> NoDup (map key l) -> sorted_by key l = sorted_by key l'.
Proof.
  intros Hperm Hnd.
  apply (StronglySorted_unique_strong (fun a b => key a <= key b)).
  - intros x y Hx Hy Hxy Hyx.
    rewrite sorted_by_perm in Hx. rewrite sorted_by_perm, <- Hperm in Hy.
    apply (same_key_same_element key l); [assumption .. | lia].
  - apply sorted_by_sorted.
  - apply sorted_by_sorted.
  - now rewrite !sorted_by_perm.
Qed.

(** X4. The order in which the entities are passed does not matter as long as
    no two of them have the same offset. *)
Theorem unparse_order_independent (text : pystr) (entities entities' : list entity) :
  entities ≡ₚ entities' ->
  NoDup (map MessageEntity.offset entities) ->
  unparse_with CUSTOM_EMOJIS isdecimal text (Some entities)
  = unparse_with CUSTOM_EMOJIS isdecimal text (Some entities').
Proof.
  intros Hperm Hnd. rewrite !unparse_with_sorted. unfold sorted.
  now rewrite (sorted_by_permutation _ _ _ Hperm Hnd).
Qed.
End more_unparse.

Lemma unparse_order_independent_witness :
  unparse true ascii_digit (str "Hello, world") (Some [Bold 7 5; Bold 0 5])
  = unparse true ascii_digit (str "Hello, world") (Some [Bold 0 5; Bold 7 5]).
Proof.
  apply (unparse_order_independent true ascii_digit (self := HtmlDecoration)).
  - apply Permutation_swap.
  - apply (bool_decide_unpack _). reflexivity.
Defined.

(** ** Entities that are ignored, and one that is not *)

Lemma filter_insert_by {A} (key : A -> Z) (p : A -> bool) (x : A) (l : list A) :
  StronglySorted (fun a b => key a <= key b) l ->
  List.filter p (insert_by key x l)
  = if p x then insert_by key x (List.filter p l) else List.filter p l.
Proof.
  induction 1 as [| y l Hl IH Hy]; [cbn; now destruct (p x) |].
  cbn [insert_by]. destruct (Z.ltb_spec (key y) (key x)) as [Hlt | Hge].
  - cbn [List.filter]. rewrite IH.
    destruct (p x), (p y); try reflexivity.
    cbn [insert_by]. now destruct (Z.ltb_spec (key y) (key x)); [| lia].
  - cbn [List.filter]. destruct (p x) eqn:Hpx; [| reflexivity].
    destruct (p y) eqn:Hpy.
    + cbn [insert_by]. now destruct (Z.ltb_spec (key y) (key x)); [lia |].
    + symmetry. apply insert_by_sorted_head.
      apply Forall_list_filter. eapply Forall_impl; [exact Hy |].
      cbv beta. intros z Hz. lia.
Qed.

Lemma filter_sorted_by {A} (key : A -> Z) (p : A -> bool) (l : list A) :
  List.filter p (sorted_by key l) = sorted_by key (List.filter p l).
Proof.
  induction l as [| x l IH]; [reflexivity |].
  cbn [sorted_by foldr]. fold (sorted_by key l).
  rewrite filter_insert_by by apply sorted_by_sorted.
  cbn [List.filter]. destruct (p x); [| exact IH].
  cbn [foldr]. fold (sorted_by key (List.filter p l)). now rewrite IH.
Qed.

Lemma sorted_split_at {A} (key : A -> Z) (k : Z) (l : list A) :
  StronglySorted (fun a b => key a <= key b) l ->
  l = List.filter (fun a => key a <? k) l ++ List.filter (fun a => k <=? key a) l.
Proof.
  induction 1 as [| x l Hl IH Hx]; [reflexivity |].
  cbn [List.filter]. destruct (Z.ltb_spec (key x) k) as [Hlt | Hge].
  - destruct (Z.leb_spec k (key x)); [lia |]. cbn [app]. now rewrite <- IH.
  - destruct (Z.leb_spec k (key x)); [| lia].
    rewrite filter_none, filter_all; [reflexivity | |].
    + eapply Forall_impl; [exact Hx |]. cbv beta. intros y Hy. apply Z.leb_le. lia.
    + eapply Forall_impl; [exact Hx |]. cbv beta. intros y Hy. apply Z.ltb_ge. lia.
Qed.

Section ignored.
Variable CUSTOM_EMOJIS : bool.
Variable isdecimal : Z -> bool.
Context {self : TextDecoration}.

(** X5. Entities with a negative offset are ignored: [unparse] returns, or
    raises, what it does without them. *)
Theorem unparse_ignores_negative_offsets (text : pystr) (entities : list entity) :
  unparse_with CUSTOM_EMOJIS isdecimal text (Some entities)
  = unparse_with CUSTOM_EMOJIS isdecimal text
      (Some (List.filter (fun e => 0 <=? MessageEntity.offset e) entities)).
Proof.
  rewrite !unparse_with_sorted.
  destruct (_add_surrogates text) as [b | ex]; [| reflexivity].
  unfold_bind. unfold sorted. rewrite <- filter_sorted_by.
  set (l := sorted_by MessageEntity.offset entities).
  assert (Hl : StronglySorted
                 (fun a e => MessageEntity.offset a <= MessageEntity.offset e) l)
    by apply sorted_by_sorted.
  pose proof (sorted_split_at MessageEntity.offset 0 l Hl) as Hsplit.
  set (kept := List.filter (fun e => 0 <=? MessageEntity.offset e) l) in *.
  set (skipped := List.filter (fun e => MessageEntity.offset e <? 0) l) in *.
  assert (Hskip : Forall (fun e => MessageEntity.offset e * 2 < 0) skipped).
  { apply Forall_forall. intros e He. apply list_elem_of_In in He.
    apply List.filter_In in He as [_ He]. apply Z.ltb_lt in He. lia. }
  assert (Hlen : (length kept <= length l)%nat) by apply length_filter_le.
  clearbody kept skipped. clearbody l.
  rewrite (_unparse_entities_fuel _ _ (S (length kept)) (S (length l)) b kept) by lia.
  cbn [_unparse_entities].
  set (recurse := fun sub start stop => _unparse_entities _ _ _ _ sub _ _).
  rewrite Hsplit.
  now rewrite for_entities_skip_all by exact Hskip.
Qed.

(** X6. An entity of length 0 at offset 0 is rendered around the whole text,
    and the text follows once more: its end, 0, is taken for "no bound"
    by the nested call. *)
Theorem unparse_empty_entity_at_start (text : pystr) (e : entity) :
  Forall is_scalar_value text ->
  text <> [] ->
  MessageEntity.offset e = 0 ->
  MessageEntity.length e = 0 ->
  unparse_with CUSTOM_EMOJIS isdecimal text (Some [e])
  = Ok (apply_entity CUSTOM_EMOJIS isdecimal e (quote text) ++ quote text).
Proof.
  intros Htext Hne Ho Hn.
  unfold unparse_with, _add_surrogates, encode_utf_16_le.
  rewrite encode_units_strict by exact Htext. unfold_bind.
  fold (utf16_le text). cbn [sorted sorted_by foldr insert_by length].
  assert (Hnil : [] ++ text ++ [] = text) by (cbn [app]; apply app_nil_r).
  assert (Htext' : Forall is_scalar_value ([] ++ text ++ [])) by now rewrite Hnil.
  assert (Hbound : len (utf16_le ([] ++ text ++ []))
                   = 2 * (utf16_length [] + utf16_length text)).
  { rewrite Hnil, len_utf16_le. reflexivity. }
  assert (Hfrag : fragment_if_any text = [quote text]) by now destruct text.
  pose proof (call_of_loop CUSTOM_EMOJIS isdecimal 0 [] text [] []
                (Some 0) (Some 0) [] Htext' eq_refl Hbound) as Hinner.
  rewrite Hfrag in Hinner.
  pose proof (call_of_loop CUSTOM_EMOJIS isdecimal 1 [] text [] [e] None None
                [apply_entity CUSTOM_EMOJIS isdecimal e (concat [quote text])]
                Htext') as Hcall.
  rewrite Hfrag in Hcall. rewrite Hnil in Hcall, Hinner.
  rewrite Hcall.
  - cbn [concat app]. now rewrite !app_nil_r.
  - cbn [for_entities]. rewrite Ho, Hn.
    change (0 * 2 + 0 * 2) with 0. change (0 * 2) with 0.
    change (0 <? 0) with false. change (0 >? 0) with false.
    cbn [List.filter]. unfold_bind. rewrite Hinner. reflexivity.
  - rewrite <- Hnil at 1. exact Hbound.
Qed.
End ignored.

Lemma unparse_empty_entity_at_start_witness :
  unparse true ascii_digit (str "ab") (Some [Bold 0 0]) = Ok (str "<b>ab</b>ab").
Proof.
  apply (unparse_empty_entity_at_start true ascii_digit (self := HtmlDecoration)
           (str "ab") (Bold 0 0)).
  - repeat constructor; unfold is_scalar_value; cbn; lia.
  - discriminate.
  - reflexivity.
  - reflexivity.
Defined.

(** ** What [quote] emits *)

Lemma escape_char_plain (c : Z) : Forall (fun x => x <> 60 /\ x <> 62) (escape_char c).
Proof.
  unfold escape_char.
  destruct (Z.eqb_spec c 38); [repeat constructor; discriminate |].
  destruct (Z.eqb_spec c 60); [repeat constructor; discriminate |].
  destruct (Z.eqb_spec c 62); repeat constructor; (discriminate || assumption).
Qed.

(** X7. The quote rule of the HTML decoration emits neither ['<'] nor ['>'],
    and it leaves a text without ['&'], ['<'] and ['>'] as it is. *)
Theorem html_quote_is_plain (value : pystr) :
  Forall (fun x => x <> 60 /\ x <> 62) (quote (TextDecoration := HtmlDecoration) value)
  /\ (Forall (fun c => c <> 38 /\ c <> 60 /\ c <> 62) value ->
      quote (TextDecoration := HtmlDecoration) value = value).
Proof.
  change (quote (TextDecoration := HtmlDecoration) value) with (escape value).
  rewrite escape_html_quote. unfold html_quote. split.
  - induction value as [| c value IH]; [constructor |].
    cbn [flat_map]. apply Forall_app. split; [apply escape_char_plain | exact IH].
  - induction 1 as [| c value (H38 & H60 & H62) _ IH]; [reflexivity |].
    cbn [flat_map]. rewrite IH. unfold escape_char.
    destruct (Z.eqb_spec c 38); [contradiction |].
    destruct (Z.eqb_spec c 60); [contradiction |].
    destruct (Z.eqb_spec c 62); [contradiction |]. reflexivity.
Qed.

(** ** Custom emoji under a style entity *)

Lemma digits_str_digits (d : Decimal.uint) :
  Forall (fun c => 48 <= c <= 57) (digits_str d).
Proof. induction d; simpl; constructor; (lia || assumption). Qed.

Lemma digits_str_nonnil (d : Decimal.uint) : d <> Decimal.Nil -> digits_str d <> [].
Proof. destruct d; (contradiction || discriminate). Qed.

Lemma int_str_digits (n : Z) :
  0 <= n -> int_str n <> [] /\ Forall (fun c => 48 <= c <= 57) (int_str n).
Proof.
  intros Hn. unfold int_str. destruct n as [| p | p]; [| | lia]; cbn [Z.to_int].
  - split; [discriminate | repeat constructor; lia].
  - split; [| apply digits_str_digits].
    apply digits_str_nonnil, DecimalPos.Unsigned.to_uint_nonnil.
Qed.

Lemma startswith_app (prefix s : pystr) : startswith (prefix ++ s) prefix = true.
Proof.
  induction prefix as [| c prefix IH]; [now destruct s |].
  simpl. now rewrite Z.eqb_refl, IH.
Qed.

Lemma strip_prefix_app (prefix s : pystr) : strip_prefix prefix (prefix ++ s) = Some s.
Proof. unfold strip_prefix. now rewrite startswith_app, drop_app_length. Qed.

Lemma skip_while_app (p : Z -> bool) (l : pystr) (c : Z) (rest : pystr) :
  Forall (fun x => p x = true) l -> p c = false ->
  skip_while p (l ++ c :: rest) = c :: rest.
Proof.
  intros Hl Hc. induction Hl as [| x l Hx _ IH]; simpl; [now rewrite Hc |].
  now rewrite Hx.
Qed.

Lemma emoji_placeholder_custom_emoji (isdecimal : Z -> bool) (value : pystr)
    (document_id : Z) :
  (forall c, 48 <= c <= 57 -> isdecimal c = true) ->
  isdecimal 62 = false ->
  0 <= document_id ->
  Forall (fun c => c <> 60) value ->
  emoji_placeholder isdecimal
    (custom_emoji (TextDecoration := HtmlDecoration) value document_id) = true.
Proof.
  intros Hdigit Hgt Hid Hvalue.
  destruct (int_str_digits document_id Hid) as [Hne Hdigits].
  cbn [custom_emoji HtmlDecoration]. unfold emoji_placeholder.
  rewrite strip_prefix_app.
  destruct (int_str document_id) as [| d ds] eqn:Hstr; [contradiction |].
  inversion Hdigits as [| ? ? Hd Hds]; subst.
  cbn [app skip_optional].
  destruct (Z.eqb_spec d 34); [lia |].
  rewrite (Hdigit d Hd). cbn [andb].
  change (str ">" ++ value ++ str "</emoji>") with (62 :: value ++ str "</emoji>").
  change (d :: ds ++ 62 :: value ++ str "</emoji>")
    with ((d :: ds) ++ 62 :: value ++ str "</emoji>").
  rewrite skip_while_app;
    [| eapply Forall_impl; [exact Hdigits | exact Hdigit] | exact Hgt].
  cbn [skip_optional]. change (62 =? 34) with false. change (62 =? 62) with true.
  cbn [andb].
  change (str "</emoji>") with (60 :: str "/emoji>").
  rewrite skip_while_app;
    [| eapply Forall_impl; [exact Hvalue |]; cbv beta; intros c Hc;
       now destruct (Z.eqb_spec c 60)
     | reflexivity].
  reflexivity.
Qed.

(** X8. A style entity (bold, italic, spoiler, code, underline, strikethrough,
    blockquote) around the placeholder that [custom_emoji] makes leaves
    the placeholder as it is. *)
Theorem style_entity_keeps_custom_emoji (CUSTOM_EMOJIS : bool) (isdecimal : Z -> bool)
    (e : entity) (value : pystr) (document_id : Z) :
  (forall c, 48 <= c <= 57 -> isdecimal c = true) ->
  isdecimal 62 = false ->
  entity_map (self := HtmlDecoration) (MessageEntity.type e) <> None ->
  0 <= document_id ->
  Forall (fun c => c <> 60) value ->
  apply_entity CUSTOM_EMOJIS isdecimal (self := HtmlDecoration) e
    (custom_emoji (TextDecoration := HtmlDecoration) value document_id)
  = custom_emoji (TextDecoration := HtmlDecoration) value document_id.
Proof.
  intros Hdigit Hgt Hstyle Hid Hvalue. unfold apply_entity.
  destruct (entity_map (MessageEntity.type e)) as [method |]; [| contradiction].
  now rewrite emoji_placeholder_custom_emoji.
Qed.

Lemma style_entity_keeps_custom_emoji_witness :
  apply_entity true ascii_digit (self := HtmlDecoration) (Bold 0 2)
    (str "<emoji document_id=5>ab</emoji>")
  = str "<emoji document_id=5>ab</emoji>".
Proof.
  apply (style_entity_keeps_custom_emoji true ascii_digit (Bold 0 2) (str "ab") 5).
  - intros c Hc. unfold ascii_digit. apply andb_true_iff. split; apply Z.leb_le; lia.
  - reflexivity.
  - discriminate.
  - lia.
  - repeat constructor; discriminate.
Defined.

(** ** Invariants of the parser *)

Lemma len_app {A} (l k : list A) : len (l ++ k) = len l + len k.
Proof. unfold len. rewrite length_app. lia. Qed.

Lemma len_nonneg {A} (l : list A) : 0 <= len l.
Proof. unfold len. lia. Qed.

Lemma within_mono (n m : Z) (e : entity) : n <= m -> within n e -> within m e.
Proof. unfold within. lia. Qed.

Lemma reaches_within (n : Z) (e : entity) : reaches n e -> within n e.
Proof. unfold reaches, within. lia. Qed.

Lemma parser_ok_init : parser_ok P.__init__.
Proof.
  split; [constructor |]. split; [apply map_Forall_empty | reflexivity].
Qed.

Lemma keeps_ok_ret {A} (a : A) : keeps_parser_ok (ret a).
Proof. intros s Hs. exact Hs. Qed.

Lemma keeps_ok_raise {A} (e : exn) : keeps_parser_ok (raise (A := A) e).
Proof. intros s Hs. exact Hs. Qed.

Lemma keeps_ok_lift {A} (o : outcome A) : keeps_parser_ok (lift o).
Proof. intros s Hs. exact Hs. Qed.

Lemma keeps_ok_bind {A B} (m : M A) (k : A -> M B) :
  keeps_parser_ok m -> (forall a, keeps_parser_ok (k a)) -> keeps_parser_ok (bind m k).
Proof.
  intros Hm Hk s Hs. unfold bind. specialize (Hm s Hs).
  destruct (m s) as [[a | e] s1]; cbn [snd] in *; [now apply Hk | exact Hm].
Qed.

Lemma reaches_set_language (n : Z) (value : pystr) (b : entity) :
  reaches n b -> reaches n (set_language value b).
Proof. unfold reaches, set_language. now destruct (MessageEntity.type b). Qed.

Lemma keeps_ok_starttag_code (attrs : gmap (list Z) (option (list Z))) :
  keeps_parser_ok (starttag_code attrs).
Proof.
  intros s Hs. unfold starttag_code, bind, get.
  destruct (P._building_entities s !! str "pre") as [pre |] eqn:Hpre;
    [| exact Hs].
  destruct (attrs !! str "class") as [[class |] |]; try exact Hs.
  destruct Hs as (He & Hb & Hl).
  unfold modify, ret. cbn [snd fst].
  split; [exact He |]. split; [| exact Hl].
  cbn [set_building_entities P._building_entities P.text].
  apply map_Forall_insert_2; [| exact Hb].
  apply reaches_set_language. exact (Hb _ _ Hpre).
Qed.

Lemma keeps_ok_replace_meta (meta : option pystr) :
  keeps_parser_ok (open_tags_meta_popleft ;;; open_tags_meta_appendleft meta).
Proof.
  intros s Hs.
  unfold bind, open_tags_meta_popleft, open_tags_meta_appendleft, modify.
  destruct (P._open_tags_meta s) as [| m metas] eqn:Hm; cbn [snd]; [exact Hs |].
  destruct Hs as (He & Hb & Hl).
  split; [exact He |]. split; [exact Hb |].
  cbn. rewrite Hl, Hm. reflexivity.
Qed.

Lemma keeps_ok_starttag_a (attrs : gmap (list Z) (option (list Z)))
    (starttag_text : pystr) :
  keeps_parser_ok (starttag_a attrs starttag_text).
Proof.
  unfold starttag_a.
  destruct (attrs !! str "href") as [[url |] |];
    [| apply keeps_ok_raise | apply keeps_ok_ret].
  apply keeps_ok_bind.
  - destruct (startswith url (str "mailto:")); [apply keeps_ok_ret |].
    destruct (bool_decide (starttag_text = url)); [apply keeps_ok_ret |].
    apply keeps_ok_bind; [apply keeps_ok_lift | intros; apply keeps_ok_ret].
  - intros r s Hs.
    pose proof (keeps_ok_replace_meta r.1 s Hs) as Hok.
    unfold bind in *.
    destruct (open_tags_meta_popleft s) as [[m | e] s1]; [| exact Hok].
    destruct (open_tags_meta_appendleft r.1 s1) as [[[] | e] s2]; exact Hok.
Qed.

Lemma keeps_ok_starttag_emoji (int : pystr -> option Z)
    (attrs : gmap (list Z) (option (list Z))) :
  keeps_parser_ok (starttag_emoji int attrs).
Proof.
  unfold starttag_emoji.
  destruct (attrs !! str "document_id") as [[value |] |]; try apply keeps_ok_raise.
  destruct (int value); [apply keeps_ok_ret | apply keeps_ok_raise].
Qed.

Section parser_invariants.
Variable CUSTOM_EMOJIS : bool.
Variable int : pystr -> option Z.

Lemma keeps_ok_handle_starttag (tag : pystr) (attrs : list (list Z * option (list Z)))
    (starttag_text : pystr) :
  keeps_parser_ok (handle_starttag CUSTOM_EMOJIS int tag attrs starttag_text).
Proof.
  intros s Hs. unfold handle_starttag.
  set (chain := if tag_in tag [str "strong"; str "b"] then _ else _).
  assert (Hchain : keeps_parser_ok chain).
  { subst chain.
    repeat match goal with
           | |- keeps_parser_ok (if ?c then _ else _) => destruct c
           end;
      auto using @keeps_ok_ret, keeps_ok_starttag_code, keeps_ok_starttag_a,
        keeps_ok_starttag_emoji. }
  clearbody chain.
  unfold bind at 1 2. cbn [open_tags_appendleft open_tags_meta_appendleft modify].
  set (s0 := set_open_tags_meta _ _).
  assert (H0 : parser_ok s0).
  { destruct Hs as (He & Hb & Hl).
    split; [exact He |]. split; [exact Hb |].
    subst s0. cbn. f_equal. exact Hl. }
  unfold bind. specialize (Hchain s0 H0).
  destruct (chain s0) as [[f | e] s1]; cbn [snd] in *; [| exact Hchain].
  destruct f as [| [EntityType |]]; try exact Hchain.
  unfold get.
  destruct (P._building_entities s1 !! tag); [exact Hchain |].
  destruct Hchain as (He & Hb & Hl). unfold modify. cbn [snd].
  split; [exact He |]. split; [| exact Hl].
  cbn [set_building_entities P._building_entities P.text].
  apply map_Forall_insert_2; [| exact Hb].
  pose proof (len_nonneg (P.text s1)). unfold reaches. cbn. lia.
Qed.

Lemma handle_data_runs (text : pystr) (s : P.t) :
  length (P._open_tags s) = length (P._open_tags_meta s) ->
  exists text',
    handle_data text s
    = (Ok tt,
       set_text (P.text s ++ text')
         (set_building_entities (add_length (len text') <$> P._building_entities s) s)).
Proof.
  intros Hl. unfold handle_data, bind, get.
  destruct (P._open_tags s) as [| t tags], (P._open_tags_meta s) as [| m metas];
    try discriminate.
  - change (tag_is [] (str "a")) with false. cbn. now eexists.
  - destruct (tag_is t (str "a")); [| cbn; now eexists].
    destruct m as [[| c url] |]; cbn; now eexists.
Qed.

Lemma keeps_ok_handle_data (text : pystr) : keeps_parser_ok (handle_data text).
Proof.
  intros s Hs. destruct Hs as (He & Hb & Hl).
  destruct (handle_data_runs text s Hl) as (text' & ->). cbn [snd].
  pose proof (len_nonneg text').
  split; [| split]; cbn; rewrite ?len_app; try assumption.
  - eapply Forall_impl; [exact He |]. intros e. apply within_mono. lia.
  - apply map_Forall_fmap. intros t b Htb. specialize (Hb t b Htb).
    unfold reaches in *. cbn. lia.
Qed.

Lemma keeps_ok_handle_endtag (tag : pystr) : keeps_parser_ok (handle_endtag tag).
Proof.
  intros s (He & Hb & Hl).
  destruct s as [text entities building tags metas]. cbn in He, Hb, Hl.
  destruct tags as [| t tags], metas as [| m metas]; try discriminate;
    cbv beta iota zeta delta
      [handle_endtag bind try_except open_tags_popleft
       open_tags_meta_popleft get modify ret snd fst
       P._open_tags P._open_tags_meta P._building_entities P.text P.entities
       set_open_tags set_open_tags_meta set_building_entities set_entities];
    try (destruct (decide (IndexError = IndexError)) as [_ | Hne];
         [| contradiction]);
    destruct (building !! tag) as [e |] eqn:Hlookup;
    (split; [| split]); cbn;
    try (now apply map_Forall_delete); try assumption;
    try (apply Forall_app_2;
         [assumption
         | apply Forall_cons_2;
           [apply reaches_within; exact (Hb _ _ Hlookup) | constructor]]);
    try (injection Hl; auto).
Qed.

Lemma keeps_ok_handle_all (events : list event) :
  keeps_parser_ok (handle_all CUSTOM_EMOJIS int events).
Proof.
  induction events as [| ev events IH]; [apply keeps_ok_ret |].
  cbn [handle_all]. apply keeps_ok_bind; [| intros _; exact IH].
  destruct ev; cbn [handle];
    auto using keeps_ok_handle_starttag, keeps_ok_handle_data, keeps_ok_handle_endtag.
Qed.

(** X9. Whatever the tokenizer reports, and whether the handlers return or
    raise, the parser is left in a state in which every entity in the
    result list lies within the text gathered so far, every builder still
    open starts within it and reaches exactly to its end, and the two
    stacks have the same length. *)
Theorem parser_entities_within_text (events : list event) :
  parser_ok (handle_all CUSTOM_EMOJIS int events P.__init__).2.
Proof. apply keeps_ok_handle_all, parser_ok_init. Qed.
End parser_invariants.

(** ** The errors of the handlers *)

Lemma encode_units_surrogatepass_returns (s : pystr) :
  exists us, encode_units surrogatepass s = Ok us.
Proof.
  induction s as [| c s [us IH]]; [now exists [] |].
  simpl. rewrite IH. unfold_bind. now eexists.
Qed.

Lemma decode_utf_16_with_error (o : byteorder) (b : bytes) (e : exn) :
  decode_utf_16_with o b = Raise e -> e = UnicodeDecodeError.
Proof.
  unfold decode_utf_16_with. unfold_bind.
  destruct (units_of_bytes o b) eqn:Hu.
  - apply decode_units_error.
  - intros [= <-]. eapply units_of_bytes_error, Hu.
Qed.

Lemma _del_surrogate_error (text : pystr) (e : exn) :
  _del_surrogate text = Raise e -> e = UnicodeDecodeError.
Proof.
  unfold _del_surrogate, encode_utf_16, encode_utf_16_le.
  destruct (encode_units_surrogatepass_returns text) as [us ->].
  unfold_bind. unfold decode_utf_16.
  destruct (BOM_LE ++ _) as [| b0 [| b1 rest]];
    try apply decode_utf_16_with_error.
  destruct (_ && _); [apply decode_utf_16_with_error |].
  destruct (_ && _); apply decode_utf_16_with_error.
Qed.

Lemma starttag_code_error (attrs : gmap (list Z) (option (list Z))) (s : P.t) (e : exn) :
  (starttag_code attrs s).1 = Raise e -> attribute_error e.
Proof.
  unfold starttag_code, bind, get.
  destruct (P._building_entities s !! str "pre"); [| discriminate].
  destruct (attrs !! str "class") as [[class |] |]; try discriminate.
  intros [= <-]. now left.
Qed.

Lemma starttag_a_error (attrs : gmap (list Z) (option (list Z)))
    (starttag_text : pystr) (s : P.t) (e : exn) :
  P._open_tags_meta s <> [] ->
  (starttag_a attrs starttag_text s).1 = Raise e -> attribute_error e.
Proof.
  intros Hmeta. unfold starttag_a.
  destruct (attrs !! str "href") as [[url |] |]; [| | discriminate].
  2: { intros [= <-]. right. now left. }
  unfold bind at 1.
  assert (Hpop : forall r, (open_tags_meta_popleft ;;;
                            open_tags_meta_appendleft r.1 ;;;
                            ret (Continue (Some r.2))) s
                           = (Ok (Continue (Some r.2)),
                              set_open_tags_meta
                                (r.1 :: tl (P._open_tags_meta s))
                                (set_open_tags_meta (tl (P._open_tags_meta s)) s))).
  { intros r. unfold bind, open_tags_meta_popleft, open_tags_meta_appendleft, modify, ret.
    destruct (P._open_tags_meta s) as [| m metas]; [contradiction | reflexivity]. }
  destruct (startswith url (str "mailto:")).
  { unfold ret at 1. now rewrite Hpop. }
  destruct (bool_decide (starttag_text = url)).
  { unfold ret at 1. now rewrite Hpop. }
  unfold bind at 1, lift.
  destruct (_del_surrogate url) as [u | e'] eqn:Hurl.
  - unfold ret at 1. now rewrite Hpop.
  - cbn. intros [= <-]. apply _del_surrogate_error in Hurl. subst e'.
    right. right. right. now right.
Qed.

Lemma starttag_emoji_error (int : pystr -> option Z)
    (attrs : gmap (list Z) (option (list Z))) (s : P.t) (e : exn) :
  (starttag_emoji int attrs s).1 = Raise e -> attribute_error e.
Proof.
  unfold starttag_emoji, attribute_error.
  destruct (attrs !! str "document_id") as [[value |] |]; cbn; try (intros [= <-]; auto).
  destruct (int value); cbn; [discriminate | intros [= <-]; auto].
Qed.

Section handler_errors.
Variable CUSTOM_EMOJIS : bool.
Variable int : pystr -> option Z.

Lemma handle_starttag_error (tag : pystr) (attrs : list (list Z * option (list Z)))
    (starttag_text : pystr) (s : P.t) (e : exn) :
  (handle_starttag CUSTOM_EMOJIS int tag attrs starttag_text s).1 = Raise e ->
  attribute_error e.
Proof.
  unfold handle_starttag.
  set (chain := if tag_in tag [str "strong"; str "b"] then _ else _).
  unfold bind at 1 2. cbn [open_tags_appendleft open_tags_meta_appendleft modify].
  set (s0 := set_open_tags_meta _ _).
  assert (Hchain : forall e, (chain s0).1 = Raise e -> attribute_error e).
  { subst chain. intros e'.
    repeat match goal with
           | |- (if ?c then _ else _) _ = _ -> _ => destruct c
           | |- ((if ?c then _ else _) _).1 = _ -> _ => destruct c
           end;
      try discriminate;
      [apply starttag_code_error | apply starttag_a_error; subst s0; discriminate
       | apply starttag_emoji_error]. }
  clearbody chain. unfold bind.
  destruct (chain s0) as [[f | e'] s1]; cbn [fst] in *;
    [| intros [= <-]; now apply Hchain].
  destruct f as [| [EntityType |]]; try discriminate.
  unfold get. destruct (P._building_entities s1 !! tag); discriminate.
Qed.

Lemma handle_starttag_plain (tag : pystr) (attrs : list (list Z * option (list Z)))
    (starttag_text : pystr) (s : P.t) :
  tag_in tag [str "code"; str "a"] || (tag_is tag (str "emoji") && CUSTOM_EMOJIS)
  = false ->
  (handle_starttag CUSTOM_EMOJIS int tag attrs starttag_text s).1 = Ok tt.
Proof.
  intros [Htag Hemoji]%orb_false_iff.
  unfold tag_in in Htag. apply bool_decide_eq_false in Htag.
  assert (Hcode : tag_is tag (str "code") = false).
  { apply bool_decide_eq_false. intros ->. apply Htag. set_solver. }
  assert (Ha : tag_is tag (str "a") = false).
  { apply bool_decide_eq_false. intros ->. apply Htag. set_solver. }
  unfold handle_starttag. rewrite Hcode, Ha, Hemoji.
  unfold bind at 1 2. cbn [open_tags_appendleft open_tags_meta_appendleft modify].
  set (s0 := set_open_tags_meta _ _). clearbody s0.
  repeat match goal with
         | |- context [if ?c then _ else _] => destruct c
         end;
    unfold bind, ret, get, modify;
    try reflexivity;
    destruct (P._building_entities s0 !! tag); reflexivity.
Qed.

Lemma handle_error (ev : event) (s : P.t) (e : exn) :
  parser_ok s -> (handle CUSTOM_EMOJIS int ev s).1 = Raise e -> attribute_error e.
Proof.
  intros (_ & _ & Hl). destruct ev as [tag attrs st | text | tag]; cbn [handle].
  - apply handle_starttag_error.
  - destruct (handle_data_runs text s Hl) as (text' & ->). discriminate.
  - destruct (handle_endtag_returns tag s) as (s1 & -> & _). discriminate.
Qed.

Lemma keeps_ok_handle (ev : event) : keeps_parser_ok (handle CUSTOM_EMOJIS int ev).
Proof.
  destruct ev; cbn [handle];
    auto using keeps_ok_handle_starttag, keeps_ok_handle_data, keeps_ok_handle_endtag.
Qed.

Lemma handle_all_error (events : list event) (s : P.t) (e : exn) :
  parser_ok s ->
  (handle_all CUSTOM_EMOJIS int events s).1 = Raise e -> attribute_error e.
Proof.
  revert s.
  induction events as [| ev events IH]; intros s Hs; [discriminate |].
  cbn [handle_all]. unfold bind.
  pose proof (keeps_ok_handle ev s Hs) as Hs1.
  pose proof (handle_error ev s e Hs) as He.
  destruct (handle CUSTOM_EMOJIS int ev s) as [[[] | e'] s1]; cbn [fst snd] in *.
  - now apply IH.
  - intros [= <-]. now apply He.
Qed.

(** X10. Whatever the tokenizer reports, the handlers raise nothing but the
    errors of a start tag with unusable attributes: [TypeError],
    [AttributeError], [KeyError], [ValueError] or [UnicodeDecodeError].  In
    particular no [IndexError] of the two stacks escapes. *)
Theorem handlers_raise_attribute_errors (events : list event) (e : exn) :
  (handle_all CUSTOM_EMOJIS int events P.__init__).1 = Raise e -> attribute_error e.
Proof. apply handle_all_error, parser_ok_init. Qed.

(** X11. The handlers return on every sequence of events in which no start tag
    is one whose attributes are read: [code], [a], and [emoji] when
    [CUSTOM_EMOJIS] is on. *)
Theorem handlers_return_without_attributes (events : list event) :
  forallb (fun ev => negb (reads_attributes CUSTOM_EMOJIS ev)) events = true ->
  (handle_all CUSTOM_EMOJIS int events P.__init__).1 = Ok tt.
Proof.
  generalize parser_ok_init. generalize P.__init__ as s.
  induction events as [| ev events IH]; intros s Hs Hplain; [reflexivity |].
  cbn [forallb] in Hplain. apply andb_true_iff in Hplain as [Hev Hplain].
  apply negb_true_iff in Hev.
  cbn [handle_all]. unfold bind.
  pose proof (keeps_ok_handle ev s Hs) as Hs1.
  assert (Hrun : (handle CUSTOM_EMOJIS int ev s).1 = Ok tt).
  { destruct Hs as (_ & _ & Hl). destruct ev as [tag attrs st | text | tag]; cbn [handle].
    - now apply handle_starttag_plain.
    - now destruct (handle_data_runs text s Hl) as (text' & ->).
    - now destruct (handle_endtag_returns tag s) as (s1 & -> & _). }
  destruct (handle CUSTOM_EMOJIS int ev s) as [[[] | e'] s1]; cbn [fst snd] in *;
    [| discriminate].
  now apply IH.
Qed.
End handler_errors.

Lemma handlers_raise_attribute_errors_witness :
  (handle_all true (fun _ => None)
     [Data (str "a"); StartTag (str "emoji") [] (str "<emoji>")] P.__init__).1
  = Raise KeyError
  /\ attribute_error KeyError.
Proof.
  split; [vm_compute; reflexivity |].
  apply (handlers_raise_attribute_errors true (fun _ => None)
           [Data (str "a"); StartTag (str "emoji") [] (str "<emoji>")] KeyError).
  vm_compute. reflexivity.
Defined.

Lemma handlers_return_without_attributes_witness :
  (handle_all false (fun _ => None)
     [EndTag (str "i"); StartTag (str "b") [] (str "<b>"); Data (str "a");
      StartTag (str "emoji") [] (str "<emoji>"); EndTag (str "u")]
     P.__init__).1 = Ok tt.
Proof.
  apply (handlers_return_without_attributes false (fun _ => None)). reflexivity.
Defined.

(** ** The handlers step by step *)

Lemma add_length_0 (e : entity) : add_length 0 e = e.
Proof. destruct e. unfold add_length. cbn. now rewrite Z.add_0_r. Qed.

Lemma add_length_add_length (n m : Z) (e : entity) :
  add_length m (add_length n e) = add_length (n + m) e.
Proof. unfold add_length. cbn. now rewrite Z.add_assoc. Qed.

Lemma fmap_add_length_0 (building : gmap (list Z) entity) :
  add_length 0 <$> building = building.
Proof.
  rewrite <- (map_fmap_id building) at 2. apply map_fmap_ext.
  intros t e _. apply add_length_0.
Qed.

Lemma fmap_add_length_add_length (n m : Z) (building : gmap (list Z) entity) :
  add_length m <$> (add_length n <$> building) = add_length (n + m) <$> building.
Proof.
  rewrite <- map_fmap_compose. apply map_fmap_ext.
  intros t e _. apply add_length_add_length.
Qed.

Lemma handle_data_outside_anchor (data : pystr) (text : pystr) (entities : list entity)
    (building : gmap (list Z) entity) (tags : list (list Z))
    (metas : list (option (list Z))) :
  hd [] tags <> str "a" ->
  handle_data data (P.mk text entities building tags metas)
  = (Ok tt, P.mk (text ++ data) entities (add_length (len data) <$> building) tags metas).
Proof.
  intros Htop. unfold handle_data, bind, get. cbn [P._open_tags].
  assert (Hnot : tag_is match tags with tag :: _ => tag | [] => [] end (str "a") = false).
  { apply bool_decide_eq_false. now destruct tags. }
  rewrite Hnot. reflexivity.
Qed.

Lemma handle_data_in_anchor (data : pystr) (text : pystr) (entities : list entity)
    (building : gmap (list Z) entity) (tags : list (list Z))
    (url : option pystr) (metas : list (option (list Z))) :
  handle_data data (P.mk text entities building (str "a" :: tags) (url :: metas))
  = (Ok tt,
     P.mk (text ++ anchor_text url data) entities
       (add_length (len (anchor_text url data)) <$> building)
       (str "a" :: tags) (url :: metas)).
Proof.
  unfold handle_data, bind, get. cbn [P._open_tags P._open_tags_meta].
  change (tag_is (str "a") (str "a")) with true. cbv iota.
  now destruct url as [[| c url] |].
Qed.

Lemma handle_endtag_closes (tag : pystr) (text : pystr) (entities : list entity)
    (building : gmap (list Z) entity) (t : list Z) (tags : list (list Z))
    (m : option (list Z)) (metas : list (option (list Z))) (e : entity) :
  building !! tag = Some e ->
  handle_endtag tag (P.mk text entities building (t :: tags) (m :: metas))
  = (Ok tt, P.mk text (entities ++ [e]) (delete tag building) tags metas).
Proof.
  intros He.
  cbv beta iota zeta delta
    [handle_endtag bind try_except open_tags_popleft
     open_tags_meta_popleft get modify ret snd fst
     P._open_tags P._open_tags_meta P._building_entities P.text P.entities
     set_open_tags set_open_tags_meta set_building_entities set_entities].
  now rewrite He.
Qed.

Lemma handle_endtag_ignored (tag : pystr) (text : pystr) (entities : list entity)
    (building : gmap (list Z) entity) (t : list Z) (tags : list (list Z))
    (m : option (list Z)) (metas : list (option (list Z))) :
  building !! tag = None ->
  handle_endtag tag (P.mk text entities building (t :: tags) (m :: metas))
  = (Ok tt, P.mk text entities building tags metas).
Proof.
  intros He.
  cbv beta iota zeta delta
    [handle_endtag bind try_except open_tags_popleft
     open_tags_meta_popleft get modify ret snd fst
     P._open_tags P._open_tags_meta P._building_entities P.text P.entities
     set_open_tags set_open_tags_meta set_building_entities set_entities].
  rewrite He. now rewrite delete_id.
Qed.

Lemma handle_all_app (CUSTOM_EMOJIS : bool) (int : pystr -> option Z)
    (events events' : list event) (s s1 : P.t) :
  handle_all CUSTOM_EMOJIS int events s = (Ok tt, s1) ->
  handle_all CUSTOM_EMOJIS int (events ++ events') s
  = handle_all CUSTOM_EMOJIS int events' s1.
Proof.
  revert s. induction events as [| ev events IH]; intros s; cbn [handle_all app].
  - unfold ret. now intros [= ->].
  - unfold bind. destruct (handle CUSTOM_EMOJIS int ev s) as [[[] | e] s0]; [apply IH |].
    discriminate.
Qed.

(** ** The handlers on the events of nested spans *)

Section nested_events.
Variable CUSTOM_EMOJIS : bool.
Variable int : pystr -> option Z.

Lemma handle_starttag_simple (ty : entity_type)
    (attrs : list (list Z * option (list Z))) (starttag_text : pystr)
    (text : pystr) (entities : list entity) (building : gmap (list Z) entity)
    (tags : list (list Z)) (metas : list (option (list Z))) :
  simple ty = true ->
  building !! tag_of ty = None ->
  (ty = MessageEntityCode -> building !! str "pre" = None) ->
  handle_starttag CUSTOM_EMOJIS int (tag_of ty) attrs starttag_text
    (P.mk text entities building tags metas)
  = (Ok tt,
     P.mk text entities
       (<[tag_of ty := MessageEntity.mk ty (len text) 0]> building)
       (tag_of ty :: tags) (None :: metas)).
Proof.
  intros Hsimple Hnew Hpre.
  destruct ty as [| | | [| c language] | | | | | | | | | | | | |];
    try discriminate Hsimple;
    cbn [tag_of] in *;
    cbv beta iota zeta delta
      [handle_starttag starttag_code
       bind ret get modify open_tags_appendleft open_tags_meta_appendleft fst snd
       P.text P.entities P._building_entities P._open_tags P._open_tags_meta
       set_text set_entities set_building_entities set_open_tags set_open_tags_meta];
    repeat match goal with
           | |- context [tag_in ?t ?l] =>
               let b := eval vm_compute in (tag_in t l) in
               change (tag_in t l) with b
           | |- context [tag_is ?t ?l] =>
               let b := eval vm_compute in (tag_is t l) in
               change (tag_is t l) with b
           end;
    cbv beta iota zeta delta
      [starttag_code bind ret get modify fst snd
       P.text P.entities P._building_entities P._open_tags P._open_tags_meta
       set_text set_entities set_building_entities set_open_tags set_open_tags_meta];
    rewrite ?(Hpre eq_refl); cbv beta iota; rewrite Hnew; reflexivity.
Qed.

Lemma simple_not_anchor (ty : entity_type) : simple ty = true -> tag_of ty <> str "a".
Proof. destruct ty; try discriminate; intros _; discriminate. Qed.

Lemma data_events_run (t : pystr) (text : pystr) (entities : list entity)
    (building : gmap (list Z) entity) (tags : list (list Z))
    (metas : list (option (list Z))) :
  hd [] tags <> str "a" ->
  handle_all CUSTOM_EMOJIS int (data_events t) (P.mk text entities building tags metas)
  = (Ok tt,
     P.mk (text ++ flat_map to_utf16_units t) entities
       (add_length (utf16_length t) <$> building) tags metas).
Proof.
  intros Htop. unfold data_events, utf16_length.
  destruct (flat_map to_utf16_units t) as [| c units]; cbn [handle_all handle].
  - change (len []) with 0. now rewrite app_nil_r, fmap_add_length_0.
  - unfold bind. now rewrite handle_data_outside_anchor.
Qed.

Lemma body_events_run (b : body) :
  forall (open : list pystr) (text : pystr) (entities : list entity)
         (building : gmap (list Z) entity) (tags : list (list Z))
         (metas : list (option (list Z))),
    body_tags_ok open b ->
    (forall t, is_Some (building !! t) -> t ∈ open) ->
    hd [] tags <> str "a" ->
    handle_all CUSTOM_EMOJIS int (body_events b) (P.mk text entities building tags metas)
    = (Ok tt,
       P.mk (text ++ flat_map to_utf16_units (body_text b))
         (entities ++ body_closed (len text) b)
         (add_length (utf16_length (body_text b)) <$> building) tags metas).
Proof.
  induction b as [| gap ty content last rest IHcontent IHrest] using body_induction;
    intros open text entities building tags metas Hok Hdom Htop.
  - cbn [body_events handle_all body_text body_closed flat_map]. unfold ret.
    change (utf16_length []) with 0.
    now rewrite !app_nil_r, fmap_add_length_0.
  - destruct Hok as [(Hsimple & Hfresh & Hcode & Hcontent) Hrest].
    cbn [body_events span_events].
    erewrite handle_all_app by (apply data_events_run; exact Htop).
    rewrite <- app_comm_cons.
    cbn [handle_all handle]. unfold bind at 1.
    assert (Hnone : forall t, t ∉ open ->
                      (add_length (utf16_length gap) <$> building) !! t = None).
    { intros t Ht. rewrite lookup_fmap.
      destruct (building !! t) eqn:Hlookup; [| reflexivity].
      exfalso. apply Ht, Hdom. now rewrite Hlookup. }
    rewrite handle_starttag_simple;
      [| exact Hsimple | now apply Hnone | intros Hty; now apply Hnone, Hcode].
    rewrite <- app_assoc.
    erewrite handle_all_app.
    2: { apply (IHcontent (tag_of ty :: open)); [exact Hcontent | |].
         - intros t Ht. destruct (decide (t = tag_of ty)) as [-> | Hne]; [set_solver |].
           rewrite lookup_insert_ne in Ht by congruence.
           rewrite lookup_fmap, fmap_is_Some in Ht. set_solver.
         - now apply simple_not_anchor. }
    rewrite <- app_assoc.
    erewrite handle_all_app
      by (apply data_events_run; now apply simple_not_anchor).
    change ([EndTag (tag_of ty)] ++ body_events rest)
      with (EndTag (tag_of ty) :: body_events rest).
    cbn [handle_all handle]. unfold bind at 1.
    erewrite handle_endtag_closes
      by (rewrite !fmap_insert; apply lookup_insert_eq).
    rewrite (IHrest open); [| exact Hrest | |  exact Htop].
    2: { intros t Ht. rewrite lookup_delete_is_Some in Ht. destruct Ht as [Hne Ht].
         rewrite !fmap_insert, lookup_insert_ne in Ht by congruence.
         rewrite !lookup_fmap, !fmap_is_Some in Ht. now apply Hdom. }
    f_equal. f_equal.
    + cbn [body_text span_text]. rewrite !flat_map_app. now rewrite <- !app_assoc.
    + cbn [body_closed span_closed span_text].
      rewrite !len_app, <- !app_assoc. unfold utf16_length at 1 2 3 4 5 6.
      rewrite !flat_map_app, !len_app.
      change (len (flat_map to_utf16_units gap)) with (utf16_length gap).
      rewrite utf16_length_app, (Z.add_assoc (len text + utf16_length gap)).
      reflexivity.
    + rewrite !fmap_insert, delete_insert_eq.
      rewrite !fmap_add_length_add_length.
      rewrite delete_id by (rewrite lookup_fmap; destruct (building !! tag_of ty) eqn:Hl;
                            [exfalso; apply Hfresh, Hdom; now rewrite Hl | reflexivity]).
      rewrite fmap_add_length_add_length.
      cbn [body_text span_text]. unfold utf16_length.
      rewrite !flat_map_app, !len_app. f_equal. f_equal. lia.
Qed.
End nested_events.

(** ** Anchors and code blocks *)

Section tags.
Variable CUSTOM_EMOJIS : bool.
Variable int : pystr -> option Z.

Lemma handle_starttag_anchor (attrs : list (list Z * option (list Z)))
    (starttag_text url : pystr) (text : pystr) (entities : list entity)
    (building : gmap (list Z) entity) (tags : list (list Z))
    (metas : list (option (list Z))) :
  dict attrs !! str "href" = Some (Some url) ->
  building !! str "a" = None ->
  handle_starttag CUSTOM_EMOJIS int (str "a") attrs starttag_text
    (P.mk text entities building tags metas)
  = if startswith url (str "mailto:")
    then (Ok tt,
          P.mk text entities
            (<[str "a" := MessageEntity.mk MessageEntityEmail (len text) 0]> building)
            (str "a" :: tags) (Some (drop 7 url) :: metas))
    else if bool_decide (starttag_text = url)
    then (Ok tt,
          P.mk text entities
            (<[str "a" := MessageEntity.mk MessageEntityUrl (len text) 0]> building)
            (str "a" :: tags) (Some url :: metas))
    else match _del_surrogate url with
         | Ok u =>
             (Ok tt,
              P.mk text entities
                (<[str "a" := MessageEntity.mk (MessageEntityTextUrl u) (len text) 0]>
                   building)
                (str "a" :: tags) (None :: metas))
         | Raise e => (Raise e, P.mk text entities building (str "a" :: tags) (None :: metas))
         end.
Proof.
  intros Hhref Hnew. unfold handle_starttag.
  change (tag_in (str "a") [str "strong"; str "b"]) with false.
  change (tag_in (str "a") [str "em"; str "i"]) with false.
  change (tag_in (str "a") [str "tg-spoiler"]) with false.
  change (tag_in (str "a") [str "del"; str "s"]) with false.
  change (tag_is (str "a") (str "u")) with false.
  change (tag_is (str "a") (str "blockquote")) with false.
  change (tag_is (str "a") (str "code")) with false.
  change (tag_is (str "a") (str "pre")) with false.
  change (tag_is (str "a") (str "a")) with true.
  cbv iota. unfold starttag_a. rewrite Hhref.
  destruct (startswith url (str "mailto:"));
    [| destruct (bool_decide (starttag_text = url));
       [| destruct (_del_surrogate url) as [u | e]]];
    cbv beta iota zeta delta
      [bind ret get modify lift open_tags_appendleft open_tags_meta_appendleft
       open_tags_meta_popleft fst snd
       P.text P.entities P._building_entities P._open_tags P._open_tags_meta
       set_text set_entities set_building_entities set_open_tags set_open_tags_meta];
    rewrite ?Hnew; reflexivity.
Qed.

Lemma handle_starttag_code_in_pre (attrs : list (list Z * option (list Z)))
    (starttag_text class : pystr) (pre : entity) (text : pystr) (entities : list entity)
    (building : gmap (list Z) entity) (tags : list (list Z))
    (metas : list (option (list Z))) :
  dict attrs !! str "class" = Some (Some class) ->
  building !! str "pre" = Some pre ->
  handle_starttag CUSTOM_EMOJIS int (str "code") attrs starttag_text
    (P.mk text entities building tags metas)
  = (Ok tt,
     P.mk text entities (<[str "pre" := set_language (drop 9 class) pre]> building)
       (str "code" :: tags) (None :: metas)).
Proof.
  intros Hclass Hpre. unfold handle_starttag.
  change (tag_in (str "code") [str "strong"; str "b"]) with false.
  change (tag_in (str "code") [str "em"; str "i"]) with false.
  change (tag_in (str "code") [str "tg-spoiler"]) with false.
  change (tag_in (str "code") [str "del"; str "s"]) with false.
  change (tag_is (str "code") (str "u")) with false.
  change (tag_is (str "code") (str "blockquote")) with false.
  change (tag_is (str "code") (str "code")) with true.
  cbv iota. unfold starttag_code. rewrite Hclass.
  cbv beta iota zeta delta
    [bind ret get modify open_tags_appendleft open_tags_meta_appendleft fst snd
     P.text P.entities P._building_entities P._open_tags P._open_tags_meta
     set_text set_entities set_building_entities set_open_tags set_open_tags_meta].
  now rewrite Hpre.
Qed.


(** X13. Any other anchor keeps its data as the text: when the address does not
    start with [mailto:] and is not the text of the start tag itself,
    closing the anchor gives a [MessageEntityTextUrl] over the data, with
    the address after [_del_surrogate]. *)
Theorem anchor_text_url (s : P.t) (attrs : list (list Z * option (list Z)))
    (starttag_text url u label : pystr) :
  dict attrs !! str "href" = Some (Some url) ->
  startswith url (str "mailto:") = false ->
  starttag_text <> url ->
  _del_surrogate url = Ok u ->
  P._building_entities s !! str "a" = None ->
  handle_all CUSTOM_EMOJIS int
    [StartTag (str "a") attrs starttag_text; Data label; EndTag (str "a")] s
  = (Ok tt,
     P.mk (P.text s ++ label)
       (P.entities s
        ++ [MessageEntity.mk (MessageEntityTextUrl u) (len (P.text s)) (len label)])
       (add_length (len label) <$> P._building_entities s)
       (P._open_tags s) (P._open_tags_meta s)).
Proof.
  intros Hhref Hmail Htext Hurl Hnew.
  destruct s as [text entities building tags metas].
  cbn [P.text P.entities P._building_entities P._open_tags P._open_tags_meta] in *.
  cbn [handle_all handle]. unfold bind at 1.
  rewrite (handle_starttag_anchor _ _ _ _ _ _ _ _ Hhref Hnew), Hmail, Hurl.
  rewrite bool_decide_eq_false_2 by exact Htext.
  unfold bind at 1. rewrite handle_data_in_anchor. cbn [anchor_text].
  unfold bind at 1.
  erewrite handle_endtag_closes
    by (rewrite fmap_insert; apply lookup_insert_eq).
  unfold ret. f_equal. f_equal; try reflexivity.
  rewrite fmap_insert, delete_insert_eq. apply delete_id.
  now rewrite lookup_fmap, Hnew.
Qed.

(** X14. A [code] tag inside an open [pre] tag makes no entity of its own: it
    sets the language of the [MessageEntityPre] to its [class] attribute
    without the first nine characters (the length of [language-]),
    whatever they are. *)
Theorem code_in_pre_sets_language (s : P.t)
    (pre_attrs attrs : list (list Z * option (list Z)))
    (pre_text starttag_text class data : pystr) :
  dict attrs !! str "class" = Some (Some class) ->
  P._building_entities s !! str "pre" = None ->
  P._building_entities s !! str "code" = None ->
  handle_all CUSTOM_EMOJIS int
    [StartTag (str "pre") pre_attrs pre_text; StartTag (str "code") attrs starttag_text;
     Data data; EndTag (str "code"); EndTag (str "pre")] s
  = (Ok tt,
     P.mk (P.text s ++ data)
       (P.entities s
        ++ [MessageEntity.mk (MessageEntityPre (drop 9 class)) (len (P.text s)) (len data)])
       (add_length (len data) <$> P._building_entities s)
       (P._open_tags s) (P._open_tags_meta s)).
Proof.
  intros Hclass Hpre Hcode.
  destruct s as [text entities building tags metas].
  cbn [P.text P.entities P._building_entities P._open_tags P._open_tags_meta] in *.
  cbn [handle_all handle]. unfold bind at 1.
  rewrite (handle_starttag_simple _ _ (MessageEntityPre []));
    [| reflexivity | exact Hpre | discriminate].
  cbn [tag_of]. unfold bind at 1.
  erewrite (handle_starttag_code_in_pre _ _ _ _ _ _ _ _ _ Hclass)
    by apply lookup_insert_eq.
  unfold bind at 1. rewrite handle_data_outside_anchor by discriminate.
  unfold bind at 1.
  rewrite handle_endtag_ignored.
  2: { rewrite lookup_fmap, insert_insert_eq, lookup_insert_ne by discriminate.
       now rewrite Hcode. }
  unfold bind at 1.
  erewrite handle_endtag_closes
    by (rewrite insert_insert_eq, fmap_insert; apply lookup_insert_eq).
  unfold ret. f_equal. f_equal; try reflexivity.
  rewrite insert_insert_eq, fmap_insert, delete_insert_eq. apply delete_id.
  now rewrite lookup_fmap, Hpre.
Qed.
End tags.


Lemma anchor_text_url_witness :
  handle_all true (fun _ => None)
    [StartTag (str "a") [(str "href", Some (str "http://t.me"))] (str "<a>");
     Data (str "link"); EndTag (str "a")]
    (P.mk (str "x") [] ∅ [] [])
  = (Ok tt,
     P.mk (str "xlink") [MessageEntity.mk (MessageEntityTextUrl (str "http://t.me")) 1 4]
       ∅ [] []).
Proof.
  refine (eq_trans
            (anchor_text_url true (fun _ => None) (P.mk (str "x") [] ∅ [] [])
               [(str "href", Some (str "http://t.me"))] (str "<a>") (str "http://t.me")
               (str "http://t.me") (str "link") _ _ _ _ _) _);
    try reflexivity.
  discriminate.
Defined.

Lemma code_in_pre_sets_language_witness :
  handle_all true (fun _ => None)
    [StartTag (str "pre") [] (str "<pre>");
     StartTag (str "code") [(str "class", Some (str "language-py"))] (str "<code>");
     Data (str "x = 1"); EndTag (str "code"); EndTag (str "pre")]
    P.__init__
  = (Ok tt,
     P.mk (str "x = 1") [MessageEntity.mk (MessageEntityPre (str "py")) 0 5] ∅ [] []).
Proof.
  refine (eq_trans
            (code_in_pre_sets_language true (fun _ => None) P.__init__
               [] [(str "class", Some (str "language-py"))] (str "<pre>") (str "<code>")
               (str "language-py") (str "x = 1") _ _ _) _);
    reflexivity.
Defined.

(** ** The handlers on the events of a whole text *)

Lemma closed_permutation (b : body) :
  forall start, body_closed start b ≡ₚ body_entities start b.
Proof.
  induction b as [| gap ty content last rest IHcontent IHrest] using body_induction;
    intros start; [reflexivity |].
  cbn [body_closed span_closed body_entities span_entities].
  rewrite IHrest. apply Permutation_app_tail.
  rewrite <- Permutation_cons_append. now constructor.
Qed.

Section whole_text.
Variable CUSTOM_EMOJIS : bool.
Variable int : pystr -> option Z.

Lemma handle_all_nested (b : body) (last : pystr) :
  body_tags_ok [] b ->
  handle_all CUSTOM_EMOJIS int (body_events b ++ data_events last) P.__init__
  = (Ok tt,
     P.mk (flat_map to_utf16_units (body_text b ++ last)) (body_closed 0 b) ∅ [] []).
Proof.
  intros Hok. unfold P.__init__.
  erewrite handle_all_app.
  2: { apply (body_events_run CUSTOM_EMOJIS int b []); [exact Hok | | discriminate].
       intros t Ht. rewrite lookup_empty in Ht. now destruct Ht. }
  rewrite data_events_run by discriminate.
  rewrite !fmap_empty, flat_map_app. reflexivity.
Qed.

(** X15. Fed the events of the markup of nested spans, the handlers return and
    give back the text, in UTF-16 code units, and exactly the entities of
    the spans, each with its offset and length in code units, in the order
    in which the tags close. *)
Theorem handlers_on_nested_spans (b : body) (last : pystr) :
  body_tags_ok [] b ->
  handle_all CUSTOM_EMOJIS int (body_events b ++ data_events last) P.__init__
  = (Ok tt,
     P.mk (flat_map to_utf16_units (body_text b ++ last)) (body_closed 0 b) ∅ [] [])
  /\ body_closed 0 b ≡ₚ body_entities 0 b.
Proof.
  intros Hok. split; [now apply handle_all_nested | apply closed_permutation].
Qed.
End whole_text.

(** The events of "Hi <b>a<i>b</i></b> c". *)
Lemma handlers_on_nested_spans_witness :
  handle_all true (fun _ => None)
    [Data (str "Hi "); StartTag (str "b") [] (str "<b>"); Data (str "a");
     StartTag (str "i") [] (str "<i>"); Data (str "b"); EndTag (str "i");
     EndTag (str "b"); Data (str " c")]
    P.__init__
  = (Ok tt,
     P.mk (str "Hi ab c") [MessageEntity.mk MessageEntityItalic 4 1; Bold 3 2] ∅ [] [])
  /\ [MessageEntity.mk MessageEntityItalic 4 1; Bold 3 2]
     ≡ₚ [Bold 3 2; MessageEntity.mk MessageEntityItalic 4 1].
Proof.
  apply (handlers_on_nested_spans true (fun _ => None)
           (Then (str "Hi ")
              (Span MessageEntityBold
                 (Then (str "a") (Span MessageEntityItalic Done (str "b")) Done) [])
              Done)
           (str " c")).
  cbn. repeat split; try (intros; discriminate);
    apply (bool_decide_unpack _); reflexivity.
Defined.

(** ** [unparse] after the handlers *)

Section round_trip.
Variable CUSTOM_EMOJIS : bool.
Variable int : pystr -> option Z.
Variable isdecimal : Z -> bool.

(** X16. [unparse] undoes the handlers: they are fed the events of the markup of
    nested spans of which no two start at the same offset; [_del_surrogate]
    of the text they gather is the text of the spans, and [unparse] of that
    text with the entities they return, in the order in which they return
    them, is the markup again. *)
Theorem unparse_inverts_handlers (b : body) (last : pystr) :
  body_nonempty b ->
  body_tags_ok [] b ->
  Forall is_scalar_value (body_text b ++ last) ->
  NoDup (map MessageEntity.offset (body_entities 0 b)) ->
  exists s,
    handle_all CUSTOM_EMOJIS int (body_events b ++ data_events last) P.__init__
    = (Ok tt, s)
    /\ _del_surrogate (P.text s) = Ok (body_text b ++ last)
    /\ unparse_with CUSTOM_EMOJIS isdecimal (self := HtmlDecoration)
         (body_text b ++ last) (Some (P.entities s))
       = Ok (body_markup CUSTOM_EMOJIS isdecimal (self := HtmlDecoration) b
             ++ quote_if_any (self := HtmlDecoration) last).
Proof.
  intros Hne Hok Htext Hnd. eexists.
  split; [now apply handle_all_nested |]. cbn [P.text P.entities]. split.
  - rewrite _del_surrogate_units by now apply to_utf16_units_in_range.
    now apply decode_units_to_utf16.
  - rewrite unparse_with_sorted. unfold sorted.
    rewrite (sorted_by_permutation _ _ _ (closed_permutation b 0))
      by (now rewrite (closed_permutation b 0)).
    rewrite sorted_by_sorted_id by now apply body_entities_sorted.
    unfold _add_surrogates, encode_utf_16_le.
    rewrite encode_units_strict by exact Htext. unfold_bind.
    fold (utf16_le (body_text b ++ last)).
    destruct (_unparse_entities_body CUSTOM_EMOJIS isdecimal b last Hne Htext)
      as (parts & -> & ->).
    reflexivity.
Qed.
End round_trip.

(** The events of "Hi <b>a<i>b</i></b> c". *)
Lemma unparse_inverts_handlers_witness :
  exists s,
    handle_all true (fun _ => None)
      [Data (str "Hi "); StartTag (str "b") [] (str "<b>"); Data (str "a");
       StartTag (str "i") [] (str "<i>"); Data (str "b"); EndTag (str "i");
       EndTag (str "b"); Data (str " c")]
      P.__init__
    = (Ok tt, s)
    /\ _del_surrogate (P.text s) = Ok (str "Hi ab c")
    /\ unparse true ascii_digit (str "Hi ab c") (Some (P.entities s))
       = Ok (str "Hi <b>a<i>b</i></b> c").
Proof.
  apply (unparse_inverts_handlers true (fun _ => None) ascii_digit
           (Then (str "Hi ")
              (Span MessageEntityBold
                 (Then (str "a") (Span MessageEntityItalic Done (str "b")) Done) [])
              Done)
           (str " c")).
  - cbn. repeat split; discriminate.
  - cbn. repeat split; try (intros; discriminate);
      apply (bool_decide_unpack _); reflexivity.
  - repeat constructor; unfold is_scalar_value; cbn; lia.
  - apply (bool_decide_unpack _). reflexivity.
Defined.

(** ** A child listed before its parent *)

Section child_first.
Variable CUSTOM_EMOJIS : bool.
Variable isdecimal : Z -> bool.
Context {self : TextDecoration}.

Lemma fragment_between (text t1 k t3 : pystr) (cursor stop : Z) :
  text = t1 ++ k ++ t3 ->
  Forall is_scalar_value text ->
  cursor = 2 * utf16_length t1 ->
  stop = 2 * (utf16_length t1 + utf16_length k) ->
  (if cursor <? stop
   then s ← _remove_surrogates (py_slice (utf16_le text) cursor stop);
        Ok [quote s]
   else Ok [])
  = Ok (fragment_if_any k).
Proof. intros -> Htext Hc Hs. now apply plain_fragment. Qed.

Lemma bound_of_some (l n : Z) :
  l <> 0 -> match Some l with None | Some 0 => n | Some l => l end = l.
Proof. now destruct l. Qed.

Lemma child_first_call (fuel : nat) (A B : entity) (pre x y post : pystr) :
  Forall is_scalar_value (pre ++ x ++ y ++ post) ->
  x <> [] -> y <> [] ->
  MessageEntity.offset A = utf16_length pre ->
  MessageEntity.length A = utf16_length x ->
  MessageEntity.offset B = utf16_length pre ->
  MessageEntity.length B = utf16_length (x ++ y) ->
  _unparse_entities CUSTOM_EMOJIS isdecimal (S (S (S fuel)))
    (utf16_le (pre ++ x ++ y ++ post)) [A; B] None None
  = Ok (fragment_if_any pre
        ++ [apply_entity CUSTOM_EMOJIS isdecimal A
              (apply_entity CUSTOM_EMOJIS isdecimal B (quote (x ++ y)));
            quote (y ++ post)]).
Proof.
  intros Htext Hx Hy HoA HlA HoB HlB.
  pose proof (utf16_length_nonneg pre) as Hpre.
  pose proof (utf16_length_pos x Hx) as Hxpos.
  pose proof (utf16_length_pos y Hy) as Hypos.
  pose proof (utf16_length_nonneg post) as Hpost.
  rewrite utf16_length_app in HlB.
  set (text := pre ++ x ++ y ++ post) in *.
  assert (Hlen : len (utf16_le text)
                 = 2 * (utf16_length pre + utf16_length x + utf16_length y
                        + utf16_length post)).
  { rewrite len_utf16_le. subst text. rewrite !utf16_length_app. lia. }
  (* the call for what the parent holds *)
  assert (Hleaf :
    _unparse_entities CUSTOM_EMOJIS isdecimal (S fuel) (utf16_le text) []
      (Some (MessageEntity.offset B * 2))
      (Some (MessageEntity.offset B * 2 + MessageEntity.length B * 2))
    = Ok [quote (x ++ y)]).
  { cbn [_unparse_entities for_entities]. unfold_bind. cbn [fst snd app].
    rewrite bound_of_some by lia.
    rewrite (fragment_between text pre (x ++ y) post);
      [| subst text; now rewrite <- app_assoc | exact Htext | lia
       | rewrite utf16_length_app; lia].
    destruct (x ++ y) eqn:Hxy; [| reflexivity].
    apply app_eq_nil in Hxy as [? _]. contradiction. }
  (* the call for what the child holds: the parent, all of it *)
  assert (Hchild :
    _unparse_entities CUSTOM_EMOJIS isdecimal (S (S fuel)) (utf16_le text) [B]
      (Some (MessageEntity.offset A * 2))
      (Some (MessageEntity.offset A * 2 + MessageEntity.length A * 2))
    = Ok [apply_entity CUSTOM_EMOJIS isdecimal B (quote (x ++ y))]).
  { remember (S fuel) as fuel1 eqn:Hfuel1.
    cbn [_unparse_entities for_entities]. subst fuel1.
    rewrite bound_of_some by lia.
    destruct (Z.ltb_spec (MessageEntity.offset B * 2) (MessageEntity.offset A * 2));
      [lia |].
    destruct (Z.gtb_spec (MessageEntity.offset B * 2) (MessageEntity.offset A * 2));
      [lia |].
    cbn [List.filter]. rewrite Hleaf. unfold_bind. cbn [fst snd app concat].
    rewrite app_nil_r.
    destruct (Z.ltb_spec (MessageEntity.offset B * 2 + MessageEntity.length B * 2)
                (MessageEntity.offset A * 2 + MessageEntity.length A * 2)); [lia |].
    reflexivity. }
  remember (S (S fuel)) as fuel2 eqn:Hfuel2.
  cbn [_unparse_entities for_entities]. subst fuel2.
  destruct (Z.ltb_spec (MessageEntity.offset A * 2) 0); [lia |].
  rewrite (Z.gtb_ltb (MessageEntity.offset A * 2) 0).
  rewrite (fragment_between text [] pre (x ++ y ++ post) 0 (MessageEntity.offset A * 2));
    [| reflexivity | exact Htext | reflexivity
     | change (utf16_length []) with 0; lia].
  rewrite !int_or_0. cbn [List.filter].
  destruct (Z.ltb_spec (MessageEntity.offset B * 2)
              (MessageEntity.offset A * 2 + MessageEntity.length A * 2)); [| lia].
  rewrite Hchild.
  assert (Hlast := fragment_between text (pre ++ x) (y ++ post) []
             (MessageEntity.offset A * 2 + MessageEntity.length A * 2)
             (len (utf16_le text))).
  unfold_bind. cbn [fst snd concat]. rewrite app_nil_r.
  rewrite Hlast;
    [| subst text; now rewrite app_nil_r, <- app_assoc | exact Htext
     | rewrite utf16_length_app; lia
     | rewrite Hlen, !utf16_length_app; lia].
  clear Hlast.
  destruct (y ++ post) eqn:Hyp.
  { apply app_eq_nil in Hyp as [? _]. contradiction. }
  cbn [fragment_if_any]. now rewrite <- app_assoc.
Qed.

(** X17. When an entity is listed before a longer one that starts at the same
    offset (a child before its parent, the order in which the parser
    returns them), [unparse] puts the shorter one around the whole of the
    longer one, and then renders again, as plain text, the part of the
    longer one that the shorter one does not cover. *)
Theorem unparse_child_before_parent (A B : entity) (pre x y post : pystr) :
  Forall is_scalar_value (pre ++ x ++ y ++ post) ->
  x <> [] -> y <> [] ->
  MessageEntity.offset A = utf16_length pre ->
  MessageEntity.length A = utf16_length x ->
  MessageEntity.offset B = utf16_length pre ->
  MessageEntity.length B = utf16_length (x ++ y) ->
  unparse_with CUSTOM_EMOJIS isdecimal (pre ++ x ++ y ++ post) (Some [A; B])
  = Ok (quote_if_any pre
        ++ apply_entity CUSTOM_EMOJIS isdecimal A
             (apply_entity CUSTOM_EMOJIS isdecimal B (quote (x ++ y)))
        ++ quote (y ++ post)).
Proof.
  intros Htext Hx Hy HoA HlA HoB HlB.
  unfold unparse_with, _add_surrogates, encode_utf_16_le.
  rewrite encode_units_strict by exact Htext. unfold_bind.
  fold (utf16_le (pre ++ x ++ y ++ post)).
  assert (Hsorted : sorted [A; B] = [A; B]).
  { apply sorted_by_sorted_id. repeat constructor. lia. }
  rewrite Hsorted. cbn [length].
  rewrite (child_first_call 0 A B pre x y post) by assumption.
  rewrite concat_app, concat_fragment_if_any. cbn [concat].
  now rewrite app_nil_r.
Qed.
End child_first.

(** [<b><i>x</i>y</b>] comes back as [<i><b>xy</b></i>y]. *)
Lemma unparse_child_before_parent_witness :
  unparse true ascii_digit (str "xy")
    (Some [MessageEntity.mk MessageEntityItalic 0 1; Bold 0 2])
  = Ok (str "<i><b>xy</b></i>y").
Proof.
  apply (unparse_child_before_parent true ascii_digit (self := HtmlDecoration)
           (MessageEntity.mk MessageEntityItalic 0 1) (Bold 0 2)
           [] (str "x") (str "y") []);
    try reflexivity; try discriminate.
  repeat constructor; unfold is_scalar_value; cbn; lia.
Defined.

(** ** The surrogate helpers on every string *)

Lemma _add_surrogate_any (text : pystr) :
  Forall is_code_point text ->
  _add_surrogate text = Ok (flat_map to_utf16_units text).
Proof.
  induction 1 as [| c text Hc _ IH]; [reflexivity |].
  change (flat_map to_utf16_units (c :: text))
    with (to_utf16_units c ++ flat_map to_utf16_units text).
  unfold is_code_point in Hc.
  simpl. rewrite IH.
  destruct (Z.lt_ge_cases 0xFFFF c).
  - replace ((0x10000 <=? c) && (c <=? 0x10FFFF)) with true
      by (symmetry; apply andb_true_iff; split; apply Z.leb_le; lia).
    unfold encode_utf_16_le. simpl.
    replace (is_surrogate c) with false
      by (symmetry; unfold is_surrogate; apply andb_false_iff; right; apply Z.leb_gt; lia).
    rewrite code_units_to_utf16, to_utf16_units_astral by lia.
    pose proof (unit_of_bytes_unit_bytes LittleEndian (high_surrogate c)) as Hh.
    pose proof (unit_of_bytes_unit_bytes LittleEndian (low_surrogate c)) as Hl.
    simpl in *. now rewrite Hh, Hl.
  - replace ((0x10000 <=? c) && (c <=? 0x10FFFF)) with false
      by (symmetry; apply andb_false_iff; left; apply Z.leb_gt; lia).
    now rewrite to_utf16_units_bmp by lia.
Qed.

Lemma to_utf16_units_code_units (text : pystr) :
  Forall is_code_point text -> Forall is_code_unit (flat_map to_utf16_units text).
Proof.
  induction 1 as [| c text Hc _ IH]; simpl; [constructor |].
  unfold is_code_point in Hc.
  apply Forall_app; split; [| exact IH].
  destruct (Z.lt_ge_cases 0xFFFF c).
  - rewrite to_utf16_units_astral by lia.
    pose proof (surrogate_ranges c ltac:(lia)).
    repeat constructor; unfold is_code_unit; lia.
  - rewrite to_utf16_units_bmp by lia. repeat constructor; unfold is_code_unit; lia.
Qed.

Lemma flat_map_to_utf16_units_bmp (text : pystr) :
  Forall (fun c => c <= 0xFFFF) text -> flat_map to_utf16_units text = text.
Proof.
  induction 1 as [| c text Hc _ IH]; [reflexivity |].
  simpl. now rewrite to_utf16_units_bmp, IH.
Qed.

(** X18. [_add_surrogate] returns on every Python string, also on one that
    holds lone surrogates: the result is the string with every code point
    above U+FFFF replaced by its two UTF-16 code units, so it holds code
    units only, and a string without such code points comes back as it
    is. *)
Theorem _add_surrogate_total (text : pystr) :
  Forall is_code_point text ->
  exists units,
    _add_surrogate text = Ok units
    /\ units = flat_map to_utf16_units text
    /\ Forall is_code_unit units
    /\ (Forall (fun c => c <= 0xFFFF) text -> units = text).
Proof.
  intros Htext. exists (flat_map to_utf16_units text).
  split; [now apply _add_surrogate_any |]. split; [reflexivity |].
  split; [now apply to_utf16_units_code_units |].
  apply flat_map_to_utf16_units_bmp.
Qed.

(** The lone surrogate U+D800, "a" and U+1F3C6. *)
Lemma _add_surrogate_total_witness :
  exists units,
    _add_surrogate [0xD800; 97; 0x1F3C6] = Ok units
    /\ units = [0xD800; 97; 0xD83C; 0xDFC6]
    /\ Forall is_code_unit units
    /\ (Forall (fun c => c <= 0xFFFF) [0xD800; 97; 0x1F3C6]
        -> units = [0xD800; 97; 0x1F3C6]).
Proof.
  apply (_add_surrogate_total [0xD800; 97; 0x1F3C6]).
  repeat constructor; unfold is_code_point; lia.
Defined.

Lemma join_is_astral (u v : Z) :
  is_high_surrogate u = true -> is_low_surrogate v = true ->
  0x10000 <= Py_UNICODE_JOIN_SURROGATES u v <= 0x10FFFF
  /\ to_utf16_units (Py_UNICODE_JOIN_SURROGATES u v) = [u; v].
Proof.
  unfold is_high_surrogate, is_low_surrogate.
  intros [Hu1 Hu2]%andb_true_iff [Hv1 Hv2]%andb_true_iff.
  apply Z.leb_le in Hu1, Hu2, Hv1, Hv2.
  assert (Hjoin : Py_UNICODE_JOIN_SURROGATES u v
                  = 0x10000 + (u - 0xD800) * 0x400 + (v - 0xDC00)).
  { unfold Py_UNICODE_JOIN_SURROGATES.
    rewrite !land_0x3FF.
    rewrite lor_shiftl_low; [| lia |].
    - change (2 ^ 10) with 1024.
      rewrite <- (Z.mod_unique u 1024 54 (u - 0xD800)) by lia.
      rewrite <- (Z.mod_unique v 1024 55 (v - 0xDC00)) by lia.
      lia.
    - change (2 ^ 10) with 1024. apply Z.mod_pos_bound. lia. }
  rewrite Hjoin. split; [lia |].
  rewrite to_utf16_units_astral by lia.
  unfold high_surrogate, low_surrogate.
  rewrite <- (Z.div_unique (0x10000 + (u - 0xD800) * 0x400 + (v - 0xDC00) - 0x10000)
                0x400 (u - 0xD800) (v - 0xDC00)) by lia.
  rewrite <- (Z.mod_unique (0x10000 + (u - 0xD800) * 0x400 + (v - 0xDC00) - 0x10000)
                0x400 (u - 0xD800) (v - 0xDC00)) by lia.
  f_equal; [lia |]. f_equal. lia.
Qed.

Lemma decode_units_inverse (us : list Z) :
  forall text,
    decode_units us = Ok text ->
    Forall is_code_unit us ->
    Forall is_scalar_value text /\ flat_map to_utf16_units text = us.
Proof.
  remember (length us) as n eqn:Hn. revert us Hn.
  induction n as [n IH] using lt_wf_ind. intros us Hn text Hdec Hus.
  destruct us as [| u rest]; simpl in Hdec.
  { injection Hdec as <-. split; [constructor | reflexivity]. }
  apply Forall_cons in Hus as [Hu Hrest]. unfold is_code_unit in Hu.
  destruct (is_high_surrogate u) eqn:Hhigh.
  - destruct rest as [| v rest']; [discriminate |].
    destruct (is_low_surrogate v) eqn:Hlow; [| discriminate].
    apply Forall_cons in Hrest as [Hv Hrest'].
    unfold_bind. destruct (decode_units rest') as [s |] eqn:Hs; [| discriminate].
    injection Hdec as <-.
    destruct (IH (length rest') ltac:(simpl in Hn; lia) rest' eq_refl s Hs Hrest')
      as [Hscalar Hunits].
    destruct (join_is_astral u v Hhigh Hlow) as [Hrange Hpair].
    split.
    + constructor; [| exact Hscalar]. unfold is_scalar_value. lia.
    + cbn [flat_map]. now rewrite Hpair, Hunits.
  - destruct (is_low_surrogate u) eqn:Hlow; [discriminate |].
    unfold_bind. destruct (decode_units rest) as [s |] eqn:Hs; [| discriminate].
    injection Hdec as <-.
    destruct (IH (length rest) ltac:(simpl in Hn; lia) rest eq_refl s Hs Hrest)
      as [Hscalar Hunits].
    unfold is_high_surrogate, is_low_surrogate in Hhigh, Hlow.
    apply andb_false_iff in Hhigh, Hlow.
    rewrite !Z.leb_gt in Hhigh, Hlow.
    split.
    + constructor; [| exact Hscalar]. unfold is_scalar_value. lia.
    + cbn [flat_map]. now rewrite to_utf16_units_bmp, Hunits by lia.
Qed.

(** X19. What [_del_surrogate] returns for a string of code units is a string
    of Unicode scalar values that [_add_surrogate] maps back to the
    string: with the round trip of the other direction, the two helpers
    are inverse bijections between the strings of scalar values and the
    strings of code units that [_del_surrogate] accepts. *)
Theorem _del_surrogate_inverse (units text : pystr) :
  Forall is_code_unit units ->
  _del_surrogate units = Ok text ->
  Forall is_scalar_value text /\ _add_surrogate text = Ok units.
Proof.
  intros Hunits Hdel. rewrite _del_surrogate_units in Hdel by exact Hunits.
  destruct (decode_units_inverse units text Hdel Hunits) as [Hscalar <-].
  split; [exact Hscalar | now apply _add_surrogate_units].
Qed.

Lemma _del_surrogate_inverse_witness :
  Forall is_scalar_value [97; 0x1F3C6]
  /\ _add_surrogate [97; 0x1F3C6] = Ok [97; 0xD83C; 0xDFC6].
Proof.
  apply (_del_surrogate_inverse [97; 0xD83C; 0xDFC6] [97; 0x1F3C6]).
  - repeat constructor; unfold is_code_unit; lia.
  - reflexivity.
Defined.

(** ** The errors of [parse] *)

Section parse_errors.
Variable CUSTOM_EMOJIS : bool.
Variable int : pystr -> option Z.
Variable tokenize : pystr -> list event.
Variable strip_text : pystr -> list entity -> pystr * list entity.

(** X20. Where the tokenizer and [helpers.strip_text] return, [parse] raises
    nothing but what the handlers raise for a start tag with unusable
    attributes ([TypeError], [AttributeError], [KeyError], [ValueError],
    [UnicodeDecodeError]) and the [UnicodeDecodeError] of the final
    [_del_surrogate]: [_add_surrogate] never fails. *)
Theorem parse_raises_attribute_errors (html : option pystr) (e : exn) :
  (forall text, html = Some text -> Forall is_code_point text) ->
  parse CUSTOM_EMOJIS int tokenize strip_text html = Raise e ->
  attribute_error e.
Proof.
  intros Hrange. unfold parse.
  destruct (truthy html); cbn [negb]; [| discriminate].
  destruct html as [text |]; [| intros [= <-]; now left].
  rewrite _add_surrogate_any by now apply Hrange. unfold_bind. unfold feed.
  pose proof (handle_all_error CUSTOM_EMOJIS int
                (tokenize (flat_map to_utf16_units text)) P.__init__ e parser_ok_init)
    as Hfeed.
  destruct (handle_all _ _ _ _) as [[[] | e'] parser]; cbn [fst] in Hfeed.
  - destruct (strip_text _ _) as [stripped entities].
    destruct (_del_surrogate stripped) eqn:Hdel; [discriminate |].
    intros [= <-]. apply _del_surrogate_error in Hdel as ->.
    right. right. right. now right.
  - intros [= <-]. now apply Hfeed.
Qed.
End parse_errors.

Lemma parse_raises_attribute_errors_witness :
  parse true (fun _ => None) (fun _ => [StartTag (str "emoji") [] (str "<emoji>")])
    (fun text entities => (text, entities)) (Some (str "<emoji>"))
  = Raise KeyError
  /\ attribute_error KeyError.
Proof.
  split; [reflexivity |].
  apply (parse_raises_attribute_errors true (fun _ => None)
           (fun _ => [StartTag (str "emoji") [] (str "<emoji>")])
           (fun text entities => (text, entities)) (Some (str "<emoji>")) KeyError).
  - intros text [= <-]. repeat constructor; unfold is_code_point; cbn; lia.
  - reflexivity.
Defined.

(** ** One entity: past the end, and of a type without rendering *)

Lemma py_slice_past_the_end {A} (l : list A) (a b : Z) :
  len l <= b -> py_slice l a b = py_slice l a (len l).
Proof.
  intros Hb. unfold py_slice, slice_index.
  assert (0 <= len l) by (unfold len; lia).
  destruct (Z.ltb_spec b 0), (Z.ltb_spec (len l) 0); try lia.
  now rewrite (Z.min_r b (len l)), Z.min_id by lia.
Qed.

Section one_entity.
Variable CUSTOM_EMOJIS : bool.
Variable isdecimal : Z -> bool.
Context {self : TextDecoration}.

(** X21. An entity that reaches to the end of the text or past it is rendered
    over the text that is there: the slice is clipped, nothing is
    raised. *)
Theorem unparse_clips_at_the_end (e : entity) (pre k : pystr) :
  Forall is_scalar_value (pre ++ k) ->
  k <> [] ->
  MessageEntity.offset e = utf16_length pre ->
  utf16_length k <= MessageEntity.length e ->
  unparse_with CUSTOM_EMOJIS isdecimal (pre ++ k) (Some [e])
  = Ok (quote_if_any pre ++ apply_entity CUSTOM_EMOJIS isdecimal e (quote k)).
Proof.
  intros Htext Hk Ho Hl.
  pose proof (utf16_length_nonneg pre) as Hpre.
  pose proof (utf16_length_pos k Hk) as Hkpos.
  unfold unparse_with, _add_surrogates, encode_utf_16_le.
  rewrite encode_units_strict by exact Htext. unfold_bind.
  fold (utf16_le (pre ++ k)).
  set (text := pre ++ k) in *.
  assert (Hlen : len (utf16_le text) = 2 * (utf16_length pre + utf16_length k)).
  { rewrite len_utf16_le. subst text. now rewrite utf16_length_app. }
  assert (Hinner :
    _remove_surrogates
      (py_slice (utf16_le text) (MessageEntity.offset e * 2)
         (MessageEntity.offset e * 2 + MessageEntity.length e * 2))
    = Ok k).
  { rewrite py_slice_past_the_end by lia. rewrite Hlen.
    replace (MessageEntity.offset e * 2) with (2 * utf16_length pre) by lia.
    subst text. rewrite <- (app_nil_r k) at 1.
    apply _remove_surrogates_slice. now rewrite app_nil_r. }
  assert (Hgap := fragment_between text [] pre k 0 (MessageEntity.offset e * 2)).
  change (sorted [e]) with [e].
  cbn [length _unparse_entities for_entities List.filter].
  unfold_bind. cbn [fst snd].
  destruct (Z.ltb_spec (MessageEntity.offset e * 2) 0); [lia |].
  rewrite (Z.gtb_ltb (MessageEntity.offset e * 2) 0).
  rewrite Hgap;
    [| reflexivity | exact Htext | reflexivity
     | change (utf16_length []) with 0; lia].
  rewrite bound_of_some by lia.
  destruct (Z.ltb_spec (MessageEntity.offset e * 2)
              (MessageEntity.offset e * 2 + MessageEntity.length e * 2)); [| lia].
  rewrite Hinner. cbn [app concat fst snd].
  destruct (Z.ltb_spec (MessageEntity.offset e * 2 + MessageEntity.length e * 2)
              (len (utf16_le text))); [lia |].
  rewrite !app_nil_r, concat_app, concat_fragment_if_any. cbn [concat].
  now rewrite !app_nil_r.
Qed.

Lemma unparse_with_sorted_body (b : body) (last : pystr) (l : list entity) :
  body_nonempty b ->
  Forall is_scalar_value (body_text b ++ last) ->
  sorted l = body_entities 0 b ->
  unparse_with CUSTOM_EMOJIS isdecimal (body_text b ++ last) (Some l)
  = Ok (body_markup CUSTOM_EMOJIS isdecimal b ++ quote_if_any last).
Proof.
  intros Hne Htext Hsorted. rewrite unparse_with_sorted, Hsorted.
  unfold _add_surrogates, encode_utf_16_le.
  rewrite encode_units_strict by exact Htext. unfold_bind.
  fold (utf16_le (body_text b ++ last)).
  destruct (_unparse_entities_body CUSTOM_EMOJIS isdecimal b last Hne Htext)
    as (parts & -> & ->).
  reflexivity.
Qed.

(** X22. The text under an entity of a type that [apply_entity] has no
    rendering for (a mention, a hashtag, a bot command, ..., a custom emoji
    when [CUSTOM_EMOJIS] is off) is quoted twice: once as plain text and
    once more by the final [return self.quote(text)]. *)
Theorem unparse_quotes_twice (e : entity) (pre k post : pystr) :
  Forall is_scalar_value (pre ++ k ++ post) ->
  k <> [] ->
  unrendered CUSTOM_EMOJIS (MessageEntity.type e) = true ->
  MessageEntity.offset e = utf16_length pre ->
  MessageEntity.length e = utf16_length k ->
  unparse_with CUSTOM_EMOJIS isdecimal (pre ++ k ++ post) (Some [e])
  = Ok (quote_if_any pre ++ quote (quote k) ++ quote_if_any post).
Proof.
  intros Htext Hk Hty Ho Hl.
  pose (b := Then pre (Span (MessageEntity.type e) Done k) Done).
  assert (Hb : body_text b ++ post = pre ++ k ++ post).
  { cbn. now rewrite app_nil_r, <- app_assoc. }
  rewrite <- Hb.
  rewrite (unparse_with_sorted_body b post [e]).
  - assert (Happly :
      apply_entity CUSTOM_EMOJIS isdecimal
        (MessageEntity.mk (MessageEntity.type e) 0 0) (quote_if_any k)
      = quote (quote k)).
    { destruct k as [| c k]; [contradiction |]. cbn [quote_if_any].
      unfold apply_entity. cbn [MessageEntity.type].
      destruct (MessageEntity.type e); try discriminate Hty; cbn [entity_map];
        try reflexivity.
      cbn [unrendered] in Hty. apply negb_true_iff in Hty. now rewrite Hty. }
    cbn [b body_markup span_markup app]. rewrite Happly, app_nil_r.
    now rewrite <- app_assoc.
  - cbn. split; [| exact I]. split; [exact Hk | exact I].
  - now rewrite Hb.
  - destruct e as [ty o n]. cbn in *. subst o n.
    change (sorted [?x]) with [x]. reflexivity.
Qed.
End one_entity.

(** The trophy of [test_malformed_entities] under an entity that runs
    past the end. *)
Lemma unparse_clips_at_the_end_witness :
  unparse true ascii_digit [97; trophy] (Some [Bold 1 9]) = Ok [97; 60; 98; 62; trophy; 60; 47; 98; 62].
Proof.
  apply (unparse_clips_at_the_end true ascii_digit (self := HtmlDecoration)
           (Bold 1 9) [97] [trophy]).
  - repeat constructor; unfold is_scalar_value, trophy; cbn; lia.
  - discriminate.
  - reflexivity.
  - vm_compute. discriminate.
Defined.

(** "a&b" under a mention comes back as "a&amp;amp;b". *)
Lemma unparse_quotes_twice_witness :
  unparse true ascii_digit (str "a&b") (Some [MessageEntity.mk MessageEntityMention 0 3])
  = Ok (str "a&amp;amp;b").
Proof.
  apply (unparse_quotes_twice true ascii_digit (self := HtmlDecoration)
           (MessageEntity.mk MessageEntityMention 0 3) [] (str "a&b") []).
  - repeat constructor; unfold is_scalar_value; cbn; lia.
  - discriminate.
  - reflexivity.
  - reflexivity.
  - reflexivity.
Defined.

(** ** Two entities that overlap *)

Section overlap.
Variable CUSTOM_EMOJIS : bool.
Variable isdecimal : Z -> bool.
Context {self : TextDecoration}.

Lemma overlap_call (fuel : nat) (A B : entity) (pre x y z post : pystr) :
  Forall is_scalar_value (pre ++ x ++ y ++ z ++ post) ->
  x <> [] -> y <> [] -> z <> [] ->
  MessageEntity.offset A = utf16_length pre ->
  MessageEntity.length A = utf16_length (x ++ y) ->
  MessageEntity.offset B = utf16_length (pre ++ x) ->
  MessageEntity.length B = utf16_length (y ++ z) ->
  _unparse_entities CUSTOM_EMOJIS isdecimal (S (S (S fuel)))
    (utf16_le (pre ++ x ++ y ++ z ++ post)) [A; B] None None
  = Ok (fragment_if_any pre
        ++ [apply_entity CUSTOM_EMOJIS isdecimal A
              (quote x ++ apply_entity CUSTOM_EMOJIS isdecimal B (quote (y ++ z)));
            quote (z ++ post)]).
Proof.
  intros Htext Hx Hy Hz HoA HlA HoB HlB.
  pose proof (utf16_length_nonneg pre) as Hpre.
  pose proof (utf16_length_pos x Hx) as Hxpos.
  pose proof (utf16_length_pos y Hy) as Hypos.
  pose proof (utf16_length_pos z Hz) as Hzpos.
  pose proof (utf16_length_nonneg post) as Hpost.
  rewrite utf16_length_app in HlA, HoB, HlB.
  set (text := pre ++ x ++ y ++ z ++ post) in *.
  assert (Hlen : len (utf16_le text)
                 = 2 * (utf16_length pre + utf16_length x + utf16_length y
                        + utf16_length z + utf16_length post)).
  { rewrite len_utf16_le. subst text. rewrite !utf16_length_app. lia. }
  (* the call for what the second entity holds *)
  assert (Hleaf :
    _unparse_entities CUSTOM_EMOJIS isdecimal (S fuel) (utf16_le text) []
      (Some (MessageEntity.offset B * 2))
      (Some (MessageEntity.offset B * 2 + MessageEntity.length B * 2))
    = Ok [quote (y ++ z)]).
  { assert (Hfrag := fragment_between text (pre ++ x) (y ++ z) post
                       (MessageEntity.offset B * 2)
                       (MessageEntity.offset B * 2 + MessageEntity.length B * 2)).
    cbn [_unparse_entities for_entities]. unfold_bind. cbn [fst snd app].
    rewrite bound_of_some by lia.
    rewrite Hfrag;
      [| subst text; now rewrite <- !app_assoc | exact Htext
       | rewrite utf16_length_app; lia
       | rewrite !utf16_length_app; lia].
    destruct (y ++ z) eqn:Hyz; [| reflexivity].
    apply app_eq_nil in Hyz as [? _]. contradiction. }
  (* the call for what the first entity holds: the second one, all of it *)
  assert (Hinner :
    _unparse_entities CUSTOM_EMOJIS isdecimal (S (S fuel)) (utf16_le text) [B]
      (Some (MessageEntity.offset A * 2))
      (Some (MessageEntity.offset A * 2 + MessageEntity.length A * 2))
    = Ok [quote x; apply_entity CUSTOM_EMOJIS isdecimal B (quote (y ++ z))]).
  { assert (Hgap := fragment_between text pre x (y ++ z ++ post)
                      (MessageEntity.offset A * 2) (MessageEntity.offset B * 2)).
    remember (S fuel) as fuel1 eqn:Hfuel1.
    cbn [_unparse_entities for_entities]. subst fuel1.
    rewrite bound_of_some by lia.
    destruct (Z.ltb_spec (MessageEntity.offset B * 2) (MessageEntity.offset A * 2));
      [lia |].
    rewrite (Z.gtb_ltb (MessageEntity.offset B * 2) (MessageEntity.offset A * 2)).
    cbn [List.filter]. rewrite Hleaf. unfold_bind.
    rewrite Hgap; [| reflexivity | exact Htext | lia | lia].
    cbn [fst snd app concat].
    destruct (Z.ltb_spec (MessageEntity.offset B * 2 + MessageEntity.length B * 2)
                (MessageEntity.offset A * 2 + MessageEntity.length A * 2)); [lia |].
    destruct x as [| c x]; [contradiction |].
    cbn [fragment_if_any app]. now rewrite !app_nil_r. }
  assert (Hgap := fragment_between text [] pre (x ++ y ++ z ++ post) 0
                    (MessageEntity.offset A * 2)).
  assert (Hlast := fragment_between text (pre ++ x ++ y) (z ++ post) []
                     (MessageEntity.offset A * 2 + MessageEntity.length A * 2)
                     (len (utf16_le text))).
  remember (S (S fuel)) as fuel2 eqn:Hfuel2.
  cbn [_unparse_entities for_entities]. subst fuel2.
  destruct (Z.ltb_spec (MessageEntity.offset A * 2) 0); [lia |].
  rewrite (Z.gtb_ltb (MessageEntity.offset A * 2) 0).
  rewrite !int_or_0. cbn [List.filter].
  destruct (Z.ltb_spec (MessageEntity.offset B * 2)
              (MessageEntity.offset A * 2 + MessageEntity.length A * 2)); [| lia].
  rewrite Hinner. unfold_bind.
  rewrite Hgap;
    [| reflexivity | exact Htext | reflexivity
     | change (utf16_length []) with 0; lia].
  cbn [fst snd concat]. rewrite !app_nil_r.
  rewrite Hlast;
    [| subst text; now rewrite app_nil_r, <- !app_assoc | exact Htext
     | rewrite !utf16_length_app; lia
     | rewrite Hlen, !utf16_length_app; lia].
  destruct (z ++ post) eqn:Hzp.
  { apply app_eq_nil in Hzp as [? _]. contradiction. }
  cbn [fragment_if_any]. now rewrite <- app_assoc.
Qed.

(** X23. Two entities that overlap without one holding the other: [unparse]
    renders the second one wholly inside the first, from where the second
    starts, and then renders again, as plain text, the part of the second
    that lies after the end of the first. *)
Theorem unparse_overlapping_entities (A B : entity) (pre x y z post : pystr) :
  Forall is_scalar_value (pre ++ x ++ y ++ z ++ post) ->
  x <> [] -> y <> [] -> z <> [] ->
  MessageEntity.offset A = utf16_length pre ->
  MessageEntity.length A = utf16_length (x ++ y) ->
  MessageEntity.offset B = utf16_length (pre ++ x) ->
  MessageEntity.length B = utf16_length (y ++ z) ->
  unparse_with CUSTOM_EMOJIS isdecimal (pre ++ x ++ y ++ z ++ post) (Some [A; B])
  = Ok (quote_if_any pre
        ++ apply_entity CUSTOM_EMOJIS isdecimal A
             (quote x ++ apply_entity CUSTOM_EMOJIS isdecimal B (quote (y ++ z)))
        ++ quote (z ++ post)).
Proof.
  intros Htext Hx Hy Hz HoA HlA HoB HlB.
  unfold unparse_with, _add_surrogates, encode_utf_16_le.
  rewrite encode_units_strict by exact Htext. unfold_bind.
  fold (utf16_le (pre ++ x ++ y ++ z ++ post)).
  assert (Hsorted : sorted [A; B] = [A; B]).
  { apply sorted_by_sorted_id. repeat constructor.
    rewrite HoA, HoB, utf16_length_app. pose proof (utf16_length_nonneg x). lia. }
  rewrite Hsorted. cbn [length].
  rewrite (overlap_call 0 A B pre x y z post) by assumption.
  rewrite concat_app, concat_fragment_if_any. cbn [concat].
  now rewrite app_nil_r.
Qed.
End overlap.

(** Bold over "ab" and italic over "bc" in "abc". *)
Lemma unparse_overlapping_entities_witness :
  unparse true ascii_digit (str "abc")
    (Some [Bold 0 2; MessageEntity.mk MessageEntityItalic 1 2])
  = Ok (str "<b>a<i>bc</i></b>c").
Proof.
  apply (unparse_overlapping_entities true ascii_digit (self := HtmlDecoration)
           (Bold 0 2) (MessageEntity.mk MessageEntityItalic 1 2)
           [] (str "a") (str "b") (str "c") []);
    try reflexivity; try discriminate.
  repeat constructor; unfold is_scalar_value; cbn; lia.
Defined.

(** ** What the tags do not touch *)

Section untouched.
Variable CUSTOM_EMOJIS : bool.
Variable int : pystr -> option Z.

Lemma handle_starttag_keeps (tag : pystr) (attrs : list (list Z * option (list Z)))
    (starttag_text : pystr) (s : P.t) :
  P.text (handle_starttag CUSTOM_EMOJIS int tag attrs starttag_text s).2 = P.text s
  /\ P.entities (handle_starttag CUSTOM_EMOJIS int tag attrs starttag_text s).2
     = P.entities s
  /\ (tag_is tag (str "a") = false ->
      str "a" ∉ P._open_tags s ->
      str "a" ∉ P._open_tags
                  (handle_starttag CUSTOM_EMOJIS int tag attrs starttag_text s).2).
Proof.
  pose (Q := fun r : outcome unit * P.t =>
               P.text r.2 = P.text s /\ P.entities r.2 = P.entities s
               /\ P._open_tags r.2 = tag :: P._open_tags s).
  assert (HQ : Q (handle_starttag CUSTOM_EMOJIS int tag attrs starttag_text s)).
  { unfold handle_starttag.
    set (chain := if tag_in tag [str "strong"; str "b"] then _ else _).
    unfold bind at 1 2. cbn [open_tags_appendleft open_tags_meta_appendleft modify].
    set (s0 := set_open_tags_meta _ _).
    assert (Hchain : P.text (chain s0).2 = P.text s0
                     /\ P.entities (chain s0).2 = P.entities s0
                     /\ P._open_tags (chain s0).2 = P._open_tags s0).
    { subst chain.
      repeat match goal with
             | |- context [if ?c then _ else _] => destruct c
             end;
        try (repeat split; reflexivity).
      - unfold starttag_code, bind, get.
        destruct (P._building_entities s0 !! str "pre"); [| repeat split; reflexivity].
        destruct (dict attrs !! str "class") as [[class |] |]; repeat split; reflexivity.
      - unfold starttag_a.
        destruct (dict attrs !! str "href") as [[url |] |];
          try (repeat split; reflexivity).
        unfold bind at 1.
        destruct (startswith url (str "mailto:"));
          [| destruct (bool_decide (starttag_text = url));
             [| unfold bind at 1, lift; destruct (_del_surrogate url)]];
          try (repeat split; reflexivity);
          cbv beta iota zeta delta
            [bind ret open_tags_meta_popleft open_tags_meta_appendleft modify fst snd];
          subst s0; cbn; repeat split; reflexivity.
      - unfold starttag_emoji.
        destruct (dict attrs !! str "document_id") as [[value |] |];
          try (repeat split; reflexivity).
        destruct (int value); repeat split; reflexivity. }
    clearbody chain. destruct Hchain as (Ht & He & Ho).
    unfold bind.
    destruct (chain s0) as [[f | e] s1]; cbn [snd] in *;
      [| unfold Q; cbn [snd]; rewrite Ht, He, Ho; repeat split; reflexivity].
    destruct f as [| [EntityType |]];
      try (unfold Q, ret; cbn [snd]; rewrite Ht, He, Ho; repeat split; reflexivity).
    unfold get. destruct (P._building_entities s1 !! tag);
      unfold Q, ret, modify; cbn [snd]; cbn; rewrite Ht, He, Ho; repeat split; reflexivity. }
  destruct HQ as (H1 & H2 & H3). split; [exact H1 |]. split; [exact H2 |].
  intros Htag Hs. rewrite H3. apply bool_decide_eq_false in Htag.
  apply not_elem_of_cons. split; [congruence | exact Hs].
Qed.

Lemma handle_data_keeps (data : pystr) (s : P.t) :
  P.entities (handle_data data s).2 = P.entities s
  /\ P._open_tags (handle_data data s).2 = P._open_tags s.
Proof.
  unfold handle_data, bind, get.
  destruct (tag_is _ _); [| split; reflexivity].
  destruct (P._open_tags_meta s) as [| [[| c url] |] metas]; split; reflexivity.
Qed.

Lemma handle_endtag_keeps (tag : pystr) (s : P.t) :
  P.text (handle_endtag tag s).2 = P.text s
  /\ (str "a" ∉ P._open_tags s -> str "a" ∉ P._open_tags (handle_endtag tag s).2).
Proof.
  destruct s as [text entities building tags metas].
  destruct tags as [| t tags], metas as [| m metas];
    cbv beta iota zeta delta
      [handle_endtag bind try_except open_tags_popleft
       open_tags_meta_popleft get modify ret snd fst
       P._open_tags P._open_tags_meta P._building_entities P.text P.entities
       set_open_tags set_open_tags_meta set_building_entities set_entities];
    try (destruct (decide (IndexError = IndexError)) as [_ | Hne];
         [| contradiction]);
    destruct (building !! tag); cbn; (split; [reflexivity |]);
    rewrite ?not_elem_of_cons; tauto.
Qed.

Lemma handle_all_entities (events : list event) (s : P.t) :
  forallb (fun ev => negb (closes_tag ev)) events = true ->
  P.entities (handle_all CUSTOM_EMOJIS int events s).2 = P.entities s.
Proof.
  revert s. induction events as [| ev events IH]; intros s Hopen; [reflexivity |].
  cbn [forallb] in Hopen. apply andb_true_iff in Hopen as [Hev Hopen].
  cbn [handle_all]. unfold bind.
  assert (Hstep : P.entities (handle CUSTOM_EMOJIS int ev s).2 = P.entities s).
  { destruct ev as [tag attrs st | data | tag]; cbn [handle].
    - apply handle_starttag_keeps.
    - apply handle_data_keeps.
    - discriminate. }
  destruct (handle CUSTOM_EMOJIS int ev s) as [[[] | e] s1]; cbn [snd] in *.
  - now rewrite IH.
  - exact Hstep.
Qed.

(** X24. A tag that is never closed gives no entity: as long as no end tag is
    reported, [parser.entities] stays empty, whatever was opened and
    whether a handler raised. *)
Theorem unclosed_tags_give_no_entities (events : list event) :
  forallb (fun ev => negb (closes_tag ev)) events = true ->
  P.entities (handle_all CUSTOM_EMOJIS int events P.__init__).2 = [].
Proof. intros Hopen. now rewrite handle_all_entities. Qed.

Lemma handle_all_text (events : list event) :
  forall s s',
    forallb (fun ev => negb (opens_anchor ev)) events = true ->
    str "a" ∉ P._open_tags s ->
    handle_all CUSTOM_EMOJIS int events s = (Ok tt, s') ->
    P.text s' = P.text s ++ data_of events.
Proof.
  induction events as [| ev events IH]; intros s s' Hplain Hs.
  { cbn. intros [= <-]. now rewrite app_nil_r. }
  cbn [forallb] in Hplain. apply andb_true_iff in Hplain as [Hev Hplain].
  apply negb_true_iff in Hev.
  cbn [handle_all]. unfold bind.
  destruct ev as [tag attrs st | data | tag]; cbn [handle data_of opens_anchor] in *.
  - destruct (handle_starttag_keeps tag attrs st s) as (Ht & _ & Ha).
    destruct (handle_starttag CUSTOM_EMOJIS int tag attrs st s) as [[[] | e] s1];
      [| discriminate].
    cbn [snd] in *. intros Hrest.
    rewrite (IH s1 s' Hplain (Ha Hev Hs) Hrest). now rewrite Ht.
  - destruct s as [text entities building tags metas]. cbn [P._open_tags P.text] in *.
    rewrite handle_data_outside_anchor.
    2: { destruct tags as [| t tags]; [discriminate |].
         cbn. intros ->. apply Hs. now left. }
    intros Hrest. apply (IH _ s' Hplain) in Hrest; [| exact Hs].
    rewrite Hrest. cbn [P.text]. now rewrite <- app_assoc.
  - destruct (handle_endtag_keeps tag s) as (Ht & Ha).
    destruct (handle_endtag tag s) as [[[] | e] s1]; [| discriminate].
    cbn [snd] in *. intros Hrest.
    rewrite (IH s1 s' Hplain (Ha Hs) Hrest). now rewrite Ht.
Qed.

(** X25. Tags other than anchors never change the text: when no anchor is
    opened and the handlers return, [parser.text] is the data of the
    events, in order, and nothing else. *)
Theorem text_is_the_data (events : list event) (s : P.t) :
  forallb (fun ev => negb (opens_anchor ev)) events = true ->
  handle_all CUSTOM_EMOJIS int events P.__init__ = (Ok tt, s) ->
  P.text s = data_of events.
Proof.
  intros Hplain Hrun.
  apply (handle_all_text events P.__init__ s Hplain) in Hrun; [exact Hrun |].
  apply not_elem_of_nil.
Qed.
End untouched.

(** The events of "<b>x<i>y": nothing is closed. *)
Lemma unclosed_tags_give_no_entities_witness :
  P.entities
    (handle_all true (fun _ => None)
       [StartTag (str "b") [] (str "<b>"); Data (str "x");
        StartTag (str "i") [] (str "<i>"); Data (str "y")]
       P.__init__).2
  = [].
Proof.
  apply (unclosed_tags_give_no_entities true (fun _ => None)). reflexivity.
Defined.

(** The events of "x<b>y</b><br>z". *)
Lemma text_is_the_data_witness :
  handle_all true (fun _ => None)
    [Data (str "x"); StartTag (str "b") [] (str "<b>"); Data (str "y");
     EndTag (str "b"); StartTag (str "br") [] (str "<br>"); Data (str "z")]
    P.__init__
  = (Ok tt, P.mk (str "xyz") [Bold 1 1] ∅ [str "br"] [None])
  /\ P.text (P.mk (str "xyz") [Bold 1 1] ∅ [str "br"] [None]) = str "xyz".
Proof.
  split; [vm_compute; reflexivity |].
  apply (text_is_the_data true (fun _ => None)
           [Data (str "x"); StartTag (str "b") [] (str "<b>"); Data (str "y");
            EndTag (str "b"); StartTag (str "br") [] (str "<br>"); Data (str "z")]
           (P.mk (str "xyz") [Bold 1 1] ∅ [str "br"] [None])).
  - reflexivity.
  - vm_compute. reflexivity.
Defined.
